(** * SIM800L driver: the command/response engine of [SIM800L.cpp]

    A shallow embedding of the driver's protocol code (the matcher
    [strIndex], the response reader [readResponse], the HTTP GET and POST
    flows and the status queries) together with the properties the
    specification states about them, and further properties read off the
    code itself (the last part of the file).

    Conventions.
    - A byte is a [Z] in [0, 256).  A [char] buffer is a [list Z] whose
      length is the allocated size; a C string argument is the list of its
      characters before the terminating NUL.
    - Fixed-width integers are [Z] with the wrap-around written out
      ([uint8], [uint16], [uint32], [int16]).  [char] is signed, as on the AVR
      targets of the Arduino core ([schar]).
    - The transport and the clock are oracles carried in the driver state:
      [rx] lists what the coming polls of the stream will find and [clk]
      what the coming calls of [millis()] will return.  A polling loop that
      outlives the oracles ends in [Starved]; an access outside an array ends
      in [Fault].
    - The header SIM800L.h is not among the sources.  What the code takes
      from it is a parameter of the model ([DEFAULT_TIMEOUT], the default
      [crlfToWait]) or is declared under a comment that says so (the
      enumerations, the type of [dataSize]).  The examples use 5000 ms for
      the timeout and the default [crlfToWait] of the specification, 1;
      where the value matters an example for a default of 2 comes with it.
    - Debug output ([enableDebug], [Serial.print]), [stream->flush()] and
      the reset of the module are not modelled. *)

From Stdlib Require Import String Ascii DecimalString ZArith List Bool Lia.
Import ListNotations.
Open Scope Z_scope.

(** ** Machine integers and characters *)

Definition uint8 (z : Z) : Z := z mod 256.
Definition uint16 (z : Z) : Z := z mod 65536.
Definition uint32 (z : Z) : Z := z mod 4294967296.
Definition int16 (z : Z) : Z := (z + 32768) mod 65536 - 32768.

(** The value of a stored byte read back through a (signed) [char]. *)
Definition schar (b : Z) : Z := if b <? 128 then b else b - 256.

Definition chars (s : string) : list Z :=
  map (fun a => Z.of_N (N_of_ascii a)) (list_ascii_of_string s).

Definition CR : Z := 13.
Definition LF : Z := 10.
Definition QUOTE : Z := 34.   (* the double quote *)

Definition len (s : list Z) : Z := Z.of_nat (length s).

(** ** Arrays and C strings *)

(** [a[i]]: nothing outside the array. *)
Definition load (a : list Z) (i : Z) : option Z :=
  if i <? 0 then None else nth_error a (Z.to_nat i).

Fixpoint store_nat (a : list Z) (n : nat) (v : Z) : option (list Z) :=
  match a, n with
  | [], _ => None
  | _ :: a', O => Some (v :: a')
  | x :: a', S n' => option_map (cons x) (store_nat a' n' v)
  end.

(** [a[i] = v]: nothing outside the array. *)
Definition store (a : list Z) (i : Z) (v : Z) : option (list Z) :=
  if i <? 0 then None else store_nat a (Z.to_nat i) v.

(** The string a pointer to the array [a] denotes: the characters before
    the first NUL.  An array without a NUL is not a C string ([strlen] runs
    off its end). *)
Fixpoint c_str (a : list Z) : option (list Z) :=
  match a with
  | [] => None
  | c :: a' => if c =? 0 then Some [] else option_map (cons c) (c_str a')
  end.

(** ** The matcher, [SIM800L::strIndex] *)

(** [a >= strlen(s)] for an [int16_t a]: the comparison is made in the
    unsigned type of [strlen], where a negative [a] is above the length of
    any string. *)
Definition ge_strlen (a : Z) (s : list Z) : bool := (a <? 0) || (a >=? len s).

(** The body of the [for] loop, over the characters [str[i..]] still to
    visit; returns the final [(firstIndex, sizeMatch)].  The counter [i] and
    [sizeMatch] are [int16_t]: incremented past 32767 they wrap to -32768,
    and the test [i < strlen(str)] converts [i] to the unsigned type of
    [strlen], where a negative [i] is 2^15 or more, above the length of any
    string the targets of the driver hold: the scan ends at index 32767. *)
Fixpoint strIndex_scan (rest findStr : list Z) (i firstIndex sizeMatch : Z)
  : Z * Z :=
  match rest with
  | [] => (firstIndex, sizeMatch)
  | c :: rest' =>
      if i <? 0 then (firstIndex, sizeMatch)
      else if ge_strlen sizeMatch findStr then (firstIndex, sizeMatch)
      else if c =? nth (Z.to_nat sizeMatch) findStr 0 then
        strIndex_scan rest' findStr (int16 (i + 1))
          (if firstIndex <? 0 then i else firstIndex) (int16 (sizeMatch + 1))
      else strIndex_scan rest' findStr (int16 (i + 1)) (-1) 0
  end.

(** [startIdx] is a [uint16_t] and initialises the [int16_t] counter: an
    offset of 32768 or more starts the counter below 0 and the loop is not
    entered. *)
Definition strIndex (str findStr : list Z) (startIdx : Z) : Z :=
  let i := int16 (uint16 startIdx) in
  let '(firstIndex, sizeMatch) :=
    strIndex_scan (skipn (Z.to_nat i) str) findStr i (-1) 0 in
  if ge_strlen sizeMatch findStr then firstIndex else -1.

(** A contiguous occurrence of [needle] in [hay] starting at index [i]. *)
Definition occurs_at (hay needle : list Z) (i : Z) : Prop :=
  0 <= i /\ firstn (length needle) (skipn (Z.to_nat i) hay) = needle.

(** ** The driver object, the transport and the clock *)

Record SIM800L : Type := mkSIM800L {
  internalBuffer : list Z;     (* the array of internalBufferSize chars *)
  recvBuffer : list Z;         (* the array of recvBufferSize chars *)
  dataSize : Z;                (* dataSize, a dataSize_t *)
  rx : list (option Z);        (* Stream: what each coming poll finds *)
  clk : list Z;                (* what each coming millis() returns *)
  tx : list Z                  (* Stream: bytes written so far *)
}.

(** The size fields are set once by the constructor, to the sizes it
    allocates; they are read off the buffers. *)
Definition internalBufferSize (d : SIM800L) : Z := len (internalBuffer d).
Definition recvBufferSize (d : SIM800L) : Z := len (recvBuffer d).

Definition set_internalBuffer (b : list Z) (d : SIM800L) : SIM800L :=
  mkSIM800L b (recvBuffer d) (dataSize d) (rx d) (clk d) (tx d).
Definition set_recvBuffer (b : list Z) (d : SIM800L) : SIM800L :=
  mkSIM800L (internalBuffer d) b (dataSize d) (rx d) (clk d) (tx d).
Definition set_dataSize (n : Z) (d : SIM800L) : SIM800L :=
  mkSIM800L (internalBuffer d) (recvBuffer d) n (rx d) (clk d) (tx d).
Definition set_rx (r : list (option Z)) (d : SIM800L) : SIM800L :=
  mkSIM800L (internalBuffer d) (recvBuffer d) (dataSize d) r (clk d) (tx d).
Definition set_clk (c : list Z) (d : SIM800L) : SIM800L :=
  mkSIM800L (internalBuffer d) (recvBuffer d) (dataSize d) (rx d) c (tx d).
Definition set_tx (t : list Z) (d : SIM800L) : SIM800L :=
  mkSIM800L (internalBuffer d) (recvBuffer d) (dataSize d) (rx d) (clk d) t.

(** How a call ends. *)
Inductive outcome (A : Type) : Type :=
| Done (a : A)     (* it returns *)
| Starved          (* it is still polling when the oracles run out *)
| Fault.           (* it reads or writes outside an array *)
Arguments Done {A} a.
Arguments Starved {A}.
Arguments Fault {A}.

(** Member functions: state passing with the two ways of not returning. *)
Definition M (A : Type) : Type := SIM800L -> outcome (A * SIM800L).

Definition ret {A : Type} (a : A) : M A := fun d => Done (a, d).

Definition bind {A B : Type} (m : M A) (k : A -> M B) : M B :=
  fun d =>
    match m d with
    | Done (a, d') => k a d'
    | Starved => Starved
    | Fault => Fault
    end.

Notation "x <- m ;; k" := (bind m (fun x => k))
  (at level 61, m at next level, right associativity).
Notation "m ;; k" := (bind m (fun _ => k))
  (at level 61, right associativity).

Definition get {A : Type} (f : SIM800L -> A) : M A := fun d => Done (f d, d).
Definition modify (f : SIM800L -> SIM800L) : M unit := fun d => Done (tt, f d).
Definition or_fault {A : Type} (o : option A) : M A :=
  fun d => match o with Some a => Done (a, d) | None => Fault end.

(** [millis()] *)
Definition millis : M Z :=
  fun d =>
    match clk d with
    | [] => Starved
    | t :: c => Done (t, set_clk c d)
    end.

(** [stream->write(s)] *)
Definition stream_write (s : list Z) : M unit :=
  modify (fun d => set_tx (tx d ++ s) d).

(** [strIndex(internalBuffer, findStr, startIdx)] *)
Definition strIndex_internalBuffer (findStr : list Z) (startIdx : Z) : M Z :=
  s <- (fun d => or_fault (c_str (internalBuffer d)) d) ;;
  ret (strIndex s findStr startIdx).

(** [internalBuffer[i]] *)
Definition internalBuffer_at (i : Z) : M Z :=
  fun d => or_fault (load (internalBuffer d) i) d.

(** [SIM800L::initInternalBuffer] *)
Definition initInternalBuffer : M unit :=
  modify (fun d =>
    set_internalBuffer (repeat 0 (length (internalBuffer d))) d).

(** ** Reading from the module *)

(** The [while (1)] loop of [readToForget]; one round per poll of the
    stream.  Returns the buffer and what is left of the oracles. *)
Fixpoint readToForget_loop (rx : list (option Z)) (clk : list Z)
    (timerStart timeout : Z) (buf : list Z) (currentSizeResponse : Z)
    {struct rx} : outcome (list Z * list (option Z) * list Z) :=
  match rx with
  | [] => Starved
  | None :: rx' =>
      match clk with
      | [] => Starved
      | t :: clk' =>
          if uint32 (t - timerStart) >? timeout then Done (buf, rx', clk')
          else readToForget_loop rx' clk' timerStart timeout buf
                 currentSizeResponse
      end
  | Some b :: rx' =>
      match store buf currentSizeResponse b with
      | None => Fault
      | Some buf1 =>
          let n := uint16 (currentSizeResponse + 1) in
          if n =? len buf then Done (buf1, rx', clk)
          else
            match clk with
            | [] => Starved
            | t :: clk' =>
                if uint32 (t - timerStart) >? timeout
                then Done (buf1, rx', clk')
                else readToForget_loop rx' clk' timerStart timeout buf1 n
            end
      end
  end.

(** [SIM800L::readToForget] *)
Definition readToForget (timeout : Z) : M unit :=
  initInternalBuffer ;;
  timerStart <- millis ;;
  fun d =>
    match readToForget_loop (rx d) (clk d) timerStart timeout
            (internalBuffer d) 0 with
    | Done (buf, r, c) => Done (tt, set_clk c (set_rx r (set_internalBuffer buf d)))
    | Starved => Starved
    | Fault => Fault
    end.

(** The CRLF detection of [readResponse] on the byte just stored: the new
    [seenCR], the new [countCRLF], and whether the loop breaks. *)
Definition detectCRLF (b : Z) (seenCR : bool) (countCRLF crlfToWait : Z)
  : bool * Z * bool :=
  if b =? CR then (true, countCRLF, false)
  else if (b =? LF) && seenCR then
    let c := uint8 (countCRLF + 1) in (seenCR, c, c =? crlfToWait)
  else (false, countCRLF, false).

(** The [while (1)] loop of [readResponse]; one round per poll of the
    stream.  Returns the result, the buffer and what is left of the
    oracles. *)
Fixpoint readResponse_loop (rx : list (option Z)) (clk : list Z)
    (timerStart timeout crlfToWait : Z) (buf : list Z)
    (currentSizeResponse : Z) (seenCR : bool) (countCRLF : Z)
    {struct rx} : outcome (bool * list Z * list (option Z) * list Z) :=
  match rx with
  | [] => Starved
  | None :: rx' =>
      match clk with
      | [] => Starved
      | t :: clk' =>
          if uint32 (t - timerStart) >? timeout
          then Done (false, buf, rx', clk')
          else readResponse_loop rx' clk' timerStart timeout crlfToWait buf
                 currentSizeResponse seenCR countCRLF
      end
  | Some b :: rx' =>
      match store buf currentSizeResponse b with
      | None => Fault
      | Some buf1 =>
          let '(seenCR1, countCRLF1, stop) :=
            detectCRLF b seenCR countCRLF crlfToWait in
          if stop then Done (true, buf1, rx', clk)
          else
            let n := uint16 (currentSizeResponse + 1) in
            if n =? len buf then Done (true, buf1, rx', clk)
            else
              match clk with
              | [] => Starved
              | t :: clk' =>
                  if uint32 (t - timerStart) >? timeout
                  then Done (false, buf1, rx', clk')
                  else readResponse_loop rx' clk' timerStart timeout
                         crlfToWait buf1 n seenCR1 countCRLF1
              end
      end
  end.

(** [SIM800L::readResponse] *)
Definition readResponse (timeout crlfToWait : Z) : M bool :=
  initInternalBuffer ;;
  timerStart <- millis ;;
  fun d =>
    match readResponse_loop (rx d) (clk d) timerStart timeout crlfToWait
            (internalBuffer d) 0 false 0 with
    | Done (ok, buf, r, c) =>
        Done (ok, set_clk c (set_rx r (set_internalBuffer buf d)))
    | Starved => Starved
    | Fault => Fault
    end.

(** [strcpy_P] into a local array of [size] chars. *)
Definition strcpy_P (size : Z) (s : list Z) : M (list Z) :=
  or_fault (if len s <? size then Some s else None).

(** [SIM800L::readResponseCheckAnswer_P] *)
Definition readResponseCheckAnswer_P (timeout : Z) (expectedAnswer : list Z)
    (crlfToWait : Z) : M bool :=
  ok <- readResponse timeout crlfToWait ;;
  if ok then
    rspBuff <- strcpy_P 16 expectedAnswer ;;
    idx <- strIndex_internalBuffer rspBuff 0 ;;
    if idx >? 0 then ret true else ret false
  else ret false.

(** ** Sending commands *)

(** [SIM800L::sendCommand(command)] *)
Definition sendCommand (command : list Z) : M unit :=
  readToForget 500 ;;
  stream_write command ;;
  stream_write [CR; LF].

(** [SIM800L::sendCommand(command, parameter)] *)
Definition sendCommand2 (command parameter : list Z) : M unit :=
  readToForget 500 ;;
  stream_write command ;;
  stream_write [QUOTE] ;;
  stream_write parameter ;;
  stream_write [QUOTE] ;;
  stream_write [CR; LF].

(** [SIM800L::sendCommand_P(command)] *)
Definition sendCommand_P (command : list Z) : M unit :=
  cmdBuff <- strcpy_P 32 command ;;
  sendCommand cmdBuff.

(** [SIM800L::sendCommand_P(command, parameter)] *)
Definition sendCommand_P2 (command parameter : list Z) : M unit :=
  cmdBuff <- strcpy_P 32 command ;;
  sendCommand2 cmdBuff parameter.

(** ** Commands and answers (the PROGMEM constants) *)

Definition AT_CMD_BASE : list Z := chars "AT".
Definition AT_CMD_CSQ : list Z := chars "AT+CSQ".
Definition AT_CMD_CFUN_TEST : list Z := chars "AT+CFUN?".
Definition AT_CMD_CFUN0 : list Z := chars "AT+CFUN=0".
Definition AT_CMD_CFUN1 : list Z := chars "AT+CFUN=1".
Definition AT_CMD_CFUN4 : list Z := chars "AT+CFUN=4".
Definition AT_CMD_CREG_TEST : list Z := chars "AT+CREG?".
Definition AT_CMD_SAPBR_GPRS : list Z :=
  chars "AT+SAPBR=3,1," ++ [QUOTE] ++ chars "Contype" ++ [QUOTE]
    ++ chars "," ++ [QUOTE] ++ chars "GPRS" ++ [QUOTE].
Definition AT_CMD_SAPBR_APN : list Z :=
  chars "AT+SAPBR=3,1," ++ [QUOTE] ++ chars "APN" ++ [QUOTE] ++ chars ",".
Definition AT_CMD_SAPBR1 : list Z := chars "AT+SAPBR=1,1".
Definition AT_CMD_SAPBR0 : list Z := chars "AT+SAPBR=0,1".
Definition AT_CMD_HTTPINIT : list Z := chars "AT+HTTPINIT".
Definition AT_CMD_HTTPPARA_CID : list Z :=
  chars "AT+HTTPPARA=" ++ [QUOTE] ++ chars "CID" ++ [QUOTE] ++ chars ",1".
Definition AT_CMD_HTTPPARA_URL : list Z :=
  chars "AT+HTTPPARA=" ++ [QUOTE] ++ chars "URL" ++ [QUOTE] ++ chars ",".
Definition AT_CMD_HTTPPARA_CONTENT : list Z :=
  chars "AT+HTTPPARA=" ++ [QUOTE] ++ chars "CONTENT" ++ [QUOTE] ++ chars ",".
Definition AT_CMD_HTTPSSL_Y : list Z := chars "AT+HTTPSSL=1".
Definition AT_CMD_HTTPSSL_N : list Z := chars "AT+HTTPSSL=0".
Definition AT_CMD_HTTPACTION0 : list Z := chars "AT+HTTPACTION=0".
Definition AT_CMD_HTTPACTION1 : list Z := chars "AT+HTTPACTION=1".
Definition AT_CMD_HTTPREAD : list Z := chars "AT+HTTPREAD".
Definition AT_CMD_HTTPTERM : list Z := chars "AT+HTTPTERM".

Definition AT_RSP_OK : list Z := chars "OK".
Definition AT_RSP_DOWNLOAD : list Z := chars "DOWNLOAD".
Definition AT_RSP_HTTPREAD : list Z := chars "+HTTPREAD: ".

(** Modelled from the spec: the enumerations [PowerMode] and
    [NetworkRegistration] are declared in SIM800L.h, which is not among the
    sources; the enumerants are those the source names (section 3 of the
    specification lists the same). *)
Inductive PowerMode : Type :=
| MINIMUM | NORMAL | SLEEP | POW_UNKNOWN | POW_ERROR.

Inductive NetworkRegistration : Type :=
| NOT_REGISTERED | REGISTERED_HOME | SEARCHING | DENIED | REGISTERED_ROAMING
| NET_UNKNOWN | NET_ERROR.

Definition PowerMode_eqb (a b : PowerMode) : bool :=
  match a, b with
  | MINIMUM, MINIMUM | NORMAL, NORMAL | SLEEP, SLEEP
  | POW_UNKNOWN, POW_UNKNOWN | POW_ERROR, POW_ERROR => true
  | _, _ => false
  end.

(** ** Parsing the answer to HTTPACTION *)

(** The three digit positions of the HTTP return code, [httpRC] being a
    [uint16_t]. *)
Definition parseHttpRC (idxBase : Z) : M Z :=
  c1 <- internalBuffer_at (idxBase + 15) ;;
  c2 <- internalBuffer_at (idxBase + 16) ;;
  c3 <- internalBuffer_at (idxBase + 17) ;;
  let httpRC := 0 in
  let httpRC := uint16 (httpRC + (schar c1 - 48) * 100) in
  let httpRC := uint16 (httpRC + (schar c2 - 48) * 10) in
  let httpRC := uint16 (httpRC + (schar c3 - 48) * 1) in
  ret httpRC.

(** Modelled from the spec: the member [dataSize] is declared in SIM800L.h,
    which is not among the sources; the specification calls it an integer
    (the receive-length type).  It is taken as a [uint16_t], the type of the
    loop counter and of the buffer size it is compared with. *)
Definition dataSize_t (z : Z) : Z := uint16 z.

(** The loop that reads the size of the data, over the bytes of the buffer
    from index [idxBase + 19] on.  The counter [i] stays below the size of
    the buffer. *)
Fixpoint parseDataSize_loop (rest : list Z) (i dataSize : Z) : option Z :=
  match rest with
  | [] => None
  | c :: rest' =>
      let v := schar c - 48 in
      if (v >=? 0) && (v <=? 9) then
        let dataSize :=
          if i =? 0 then dataSize else dataSize_t (dataSize * 10) in
        parseDataSize_loop rest' (i + 1) (dataSize_t (dataSize + v))
      else Some dataSize
  end.

(** The lines under [// Get the size of the data to receive]. *)
Definition parseDataSize (idxBase : Z) : M unit :=
  modify (set_dataSize 0) ;;
  n <- (fun d =>
          or_fault (parseDataSize_loop
                      (skipn (Z.to_nat (idxBase + 19)) (internalBuffer d))
                      0 (dataSize d)) d) ;;
  modify (set_dataSize n).

(** ** Copying the payload *)

Definition isCRLF (b : Z) : bool := (b =? CR) || (b =? LF).

(** The [for] loop that loads [dataSize] bytes into the receive buffer, with
    its inner wait [while(!stream->available());].  Returns the buffer and
    what is left of the stream. *)
Fixpoint copyPayload_loop (rx : list (option Z)) (i dataSize : Z)
    (recvBuffer : list Z) {struct rx}
  : outcome (list Z * list (option Z)) :=
  if (i <? dataSize) && (i <? len recvBuffer) then
    match rx with
    | [] => Starved
    | None :: rx' => copyPayload_loop rx' i dataSize recvBuffer
    | Some b :: rx' =>
        match store recvBuffer i b with
        | None => Fault
        | Some recvBuffer1 =>
            let i1 := if isCRLF b then uint16 (i - 1) else i in
            copyPayload_loop rx' (uint16 (i1 + 1)) dataSize recvBuffer1
        end
    end
  else Done (recvBuffer, rx).

Definition copyPayload : M unit :=
  fun d =>
    match copyPayload_loop (rx d) 0 (dataSize d) (recvBuffer d) with
    | Done (buf, r) => Done (tt, set_rx r (set_recvBuffer buf d))
    | Starved => Starved
    | Fault => Fault
    end.

(** [printf]'s [%d] of a 16-bit [int]. *)
Definition print_d (z : Z) : list Z :=
  chars (NilZero.string_of_int (Z.to_int (int16 z))).

Section Driver.

(** Modelled from the spec: [DEFAULT_TIMEOUT] and the default value of the
    argument [crlfToWait] of [readResponse] and [readResponseCheckAnswer_P]
    are given in SIM800L.h, which is not among the sources.  They are
    parameters of the model; the specification gives the default
    [crlfToWait] as 1 and no value for the timeout. *)
Variable DEFAULT_TIMEOUT : Z.
Variable DEFAULT_CRLF : Z.

(** ** The HTTP session *)

(** [SIM800L::initiateHTTP] *)
Definition initiateHTTP (url : list Z) : M Z :=
  sendCommand_P AT_CMD_HTTPINIT ;;
  ok <- readResponseCheckAnswer_P DEFAULT_TIMEOUT AT_RSP_OK DEFAULT_CRLF ;;
  if negb ok then ret 701 else
  sendCommand_P AT_CMD_HTTPPARA_CID ;;
  ok <- readResponseCheckAnswer_P DEFAULT_TIMEOUT AT_RSP_OK DEFAULT_CRLF ;;
  if negb ok then ret 702 else
  sendCommand_P2 AT_CMD_HTTPPARA_URL url ;;
  ok <- readResponseCheckAnswer_P DEFAULT_TIMEOUT AT_RSP_OK DEFAULT_CRLF ;;
  if negb ok then ret 702 else
  if strIndex url (chars "https://") 0 =? 0 then
    sendCommand_P AT_CMD_HTTPSSL_Y ;;
    ok <- readResponseCheckAnswer_P DEFAULT_TIMEOUT AT_RSP_OK DEFAULT_CRLF ;;
    if negb ok then ret 702 else ret 0
  else
    sendCommand_P AT_CMD_HTTPSSL_N ;;
    ok <- readResponseCheckAnswer_P DEFAULT_TIMEOUT AT_RSP_OK DEFAULT_CRLF ;;
    if negb ok then ret 702 else ret 0.

(** [SIM800L::terminateHTTP] *)
Definition terminateHTTP : M Z :=
  sendCommand_P AT_CMD_HTTPTERM ;;
  ok <- readResponseCheckAnswer_P DEFAULT_TIMEOUT AT_RSP_OK DEFAULT_CRLF ;;
  if negb ok then ret 706 else ret 0.

(** The block [if(httpRC == 200) { ... }] of [doGet] and [doPost]: [Some rc]
    when it returns [rc] from the function, [None] when it runs to its
    end. *)
Definition readPayload (idxBase : Z) : M (option Z) :=
  parseDataSize idxBase ;;
  sendCommand_P AT_CMD_HTTPREAD ;;
  ok <- readResponseCheckAnswer_P DEFAULT_TIMEOUT AT_RSP_HTTPREAD 2 ;;
  if negb ok then ret (Some 705) else
  copyPayload ;;
  modify (fun d =>
    if recvBufferSize d <? dataSize d then set_dataSize (recvBufferSize d) d
    else d) ;;
  ok <- readResponseCheckAnswer_P DEFAULT_TIMEOUT AT_RSP_OK DEFAULT_CRLF ;;
  if negb ok then ret (Some 705) else ret None.

(** What [doGet] and [doPost] do once the action is accepted, from
    [// Wait answer from the server] to their end; the two copies in the
    source differ in the method digit of [action] only. *)
Definition awaitAnswer (action : list Z) (serverReadTimeoutMs : Z) : M Z :=
  ok <- readResponse serverReadTimeoutMs DEFAULT_CRLF ;;
  if negb ok then ret 408 else
  idxBase <- strIndex_internalBuffer action 0 ;;
  if idxBase <? 0 then ret 703 else
  httpRC <- parseHttpRC idxBase ;;
  early <- (if httpRC =? 200 then readPayload idxBase else ret None) ;;
  match early with
  | Some rc => ret rc
  | None =>
      termRC <- terminateHTTP ;;
      if termRC >? 0 then ret termRC else ret httpRC
  end.

(** The first lines of [doGet] and [doPost]. *)
Definition cleanupReceiveBuffer : M unit :=
  modify (fun d => set_recvBuffer (repeat 0 (length (recvBuffer d))) d) ;;
  modify (set_dataSize 0).

(** [SIM800L::doGet] *)
Definition doGet (url : list Z) (serverReadTimeoutMs : Z) : M Z :=
  cleanupReceiveBuffer ;;
  initRC <- initiateHTTP url ;;
  if initRC >? 0 then ret initRC else
  sendCommand_P AT_CMD_HTTPACTION0 ;;
  ok <- readResponseCheckAnswer_P DEFAULT_TIMEOUT AT_RSP_OK DEFAULT_CRLF ;;
  if negb ok then ret 703 else
  awaitAnswer (chars "+HTTPACTION: 0,") serverReadTimeoutMs.

(** [SIM800L::doPost] *)
Definition doPost (url contentType payload : list Z)
    (clientWriteTimeoutMs serverReadTimeoutMs : Z) : M Z :=
  cleanupReceiveBuffer ;;
  initRC <- initiateHTTP url ;;
  if initRC >? 0 then ret initRC else
  sendCommand_P2 AT_CMD_HTTPPARA_CONTENT contentType ;;
  ok <- readResponseCheckAnswer_P DEFAULT_TIMEOUT AT_RSP_OK DEFAULT_CRLF ;;
  if negb ok then ret 702 else
  sendCommand (chars "AT+HTTPDATA=" ++ print_d (len payload) ++ chars ","
                 ++ print_d clientWriteTimeoutMs) ;;
  ok <- readResponseCheckAnswer_P DEFAULT_TIMEOUT AT_RSP_DOWNLOAD DEFAULT_CRLF ;;
  if negb ok then ret 707 else
  readToForget 500 ;;
  stream_write payload ;;
  sendCommand_P AT_CMD_HTTPACTION1 ;;
  ok <- readResponseCheckAnswer_P DEFAULT_TIMEOUT AT_RSP_OK DEFAULT_CRLF ;;
  if negb ok then ret 703 else
  awaitAnswer (chars "+HTTPACTION: 1,") serverReadTimeoutMs.

(** [SIM800L::getDataSizeReceived], which returns a [uint8_t] *)
Definition getDataSizeReceived : M Z :=
  n <- get dataSize ;; ret (uint8 n).

(** [SIM800L::getDataReceived] *)
Definition getDataReceived : M (list Z) := get recvBuffer.

(** ** Status functions *)

(** [SIM800L::isReady] *)
Definition isReady : M bool :=
  sendCommand_P AT_CMD_BASE ;;
  readResponseCheckAnswer_P DEFAULT_TIMEOUT AT_RSP_OK DEFAULT_CRLF.

(** [SIM800L::getPowerMode] *)
Definition getPowerMode : M PowerMode :=
  sendCommand_P AT_CMD_CFUN_TEST ;;
  ok <- readResponse DEFAULT_TIMEOUT DEFAULT_CRLF ;;
  if ok then
    errIdx <- strIndex_internalBuffer (chars "ERROR") 0 ;;
    if errIdx >? 0 then ret POW_ERROR else
    idx <- strIndex_internalBuffer (chars "+CFUN: ") 0 ;;
    value <- internalBuffer_at (idx + 7) ;;
    if value =? 48 then ret MINIMUM
    else if value =? 49 then ret NORMAL
    else if value =? 52 then ret SLEEP
    else ret POW_UNKNOWN
  else ret POW_ERROR.

(** [SIM800L::getRegistrationStatus] *)
Definition getRegistrationStatus : M NetworkRegistration :=
  sendCommand_P AT_CMD_CREG_TEST ;;
  ok <- readResponse DEFAULT_TIMEOUT DEFAULT_CRLF ;;
  if ok then
    errIdx <- strIndex_internalBuffer (chars "ERROR") 0 ;;
    if errIdx >? 0 then ret NET_ERROR else
    idx <- strIndex_internalBuffer (chars "+CREG: ") 0 ;;
    value <- internalBuffer_at (idx + 9) ;;
    if value =? 48 then ret NOT_REGISTERED
    else if value =? 49 then ret REGISTERED_HOME
    else if value =? 50 then ret SEARCHING
    else if value =? 51 then ret DENIED
    else if value =? 53 then ret REGISTERED_ROAMING
    else ret NET_UNKNOWN
  else ret NET_ERROR.

(** [SIM800L::setupGPRS] *)
Definition setupGPRS (apn : list Z) : M bool :=
  sendCommand_P AT_CMD_SAPBR_GPRS ;;
  ok <- readResponseCheckAnswer_P 20000 AT_RSP_OK DEFAULT_CRLF ;;
  if negb ok then ret false else
  sendCommand_P2 AT_CMD_SAPBR_APN apn ;;
  readResponseCheckAnswer_P 20000 AT_RSP_OK DEFAULT_CRLF.

(** [SIM800L::connectGPRS] *)
Definition connectGPRS : M bool :=
  sendCommand_P AT_CMD_SAPBR1 ;;
  readResponseCheckAnswer_P 65000 AT_RSP_OK DEFAULT_CRLF.

(** [SIM800L::disconnectGPRS] *)
Definition disconnectGPRS : M bool :=
  sendCommand_P AT_CMD_SAPBR0 ;;
  readResponseCheckAnswer_P 65000 AT_RSP_OK DEFAULT_CRLF.

(** The command [setPowerMode] sends for a mode (its [switch]). *)
Definition powerModeCommand (powerMode : PowerMode) : list Z :=
  match powerMode with
  | MINIMUM => AT_CMD_CFUN0
  | SLEEP => AT_CMD_CFUN4
  | _ => AT_CMD_CFUN1
  end.

Definition undefinedMode (m : PowerMode) : bool :=
  PowerMode_eqb m POW_ERROR || PowerMode_eqb m POW_UNKNOWN.

(** [SIM800L::setPowerMode] *)
Definition setPowerMode (powerMode : PowerMode) : M bool :=
  if undefinedMode powerMode then ret false else
  currentPowerMode <- getPowerMode ;;
  if undefinedMode currentPowerMode then ret false else
  if PowerMode_eqb currentPowerMode powerMode then ret true else
  if (PowerMode_eqb currentPowerMode SLEEP
      || PowerMode_eqb currentPowerMode MINIMUM)
     && negb (PowerMode_eqb powerMode NORMAL) then ret false else
  sendCommand_P (powerModeCommand powerMode) ;;
  readToForget 10000 ;;
  currentPowerMode <- getPowerMode ;;
  ret (PowerMode_eqb currentPowerMode powerMode).

(** [SIM800L::getSignal] *)
Definition getSignal : M Z :=
  sendCommand_P AT_CMD_CSQ ;;
  ok <- readResponse DEFAULT_TIMEOUT DEFAULT_CRLF ;;
  if ok then
    idxBase <- strIndex_internalBuffer (chars "AT+CSQ") 0 ;;
    if negb (idxBase =? 0) then ret 0 else
    idxEnd <- strIndex_internalBuffer (chars ",") idxBase ;;
    c1 <- internalBuffer_at (idxEnd - 1) ;;
    let value := uint8 (schar c1 - 48) in
    c2 <- internalBuffer_at (idxEnd - 2) ;;
    let value :=
      if negb (c2 =? 32) then uint8 (value + (schar c2 - 48) * 10)
      else value in
    if value >? 31 then ret 0 else ret value
  else ret 0.

End Driver.

(** * Notions used in the statements *)

(** The scan for the answer to a GET action. *)
Definition GET_ACTION : list Z := chars "+HTTPACTION: 0,".

(** The invariant of the scan of [strIndex] after the characters [pre],
    started at offset [k]. *)
Definition scan_inv (findStr pre : list Z) (k first size : Z) : Prop :=
  0 <= size <= len findStr /\
  (size = 0 -> first = -1) /\
  (0 < size ->
   k <= first /\ first = len pre - size /\
   skipn (Z.to_nat first) pre = firstn (Z.to_nat size) findStr).

(** ** Decimal fields *)

Definition is_digit (d : Z) : Prop := 0 <= d <= 9.



(** ** Streams and clocks *)

(** The bytes a stream delivers, in order, and those of them that are
    payload: the copy drops every CR and LF. *)
Definition delivered (rx : list (option Z)) : list Z :=
  flat_map (fun o => match o with Some b => [b] | None => [] end) rx.
Definition payload_of (bytes : list Z) : list Z :=
  filter (fun b => negb (isCRLF b)) bytes.

(** The count of raw bytes a step takes from the stream. *)
Definition raw_bytes_consumed (before after : SIM800L) : Z :=
  len (delivered (rx before)) - len (delivered (rx after)).

(** The number of CRLF sequences in a run of bytes: the places where a CR is
    immediately followed by a LF. *)
Fixpoint count_CRLF (bytes : list Z) : Z :=
  match bytes with
  | a :: (b :: _) as rest =>
      (if (a =? CR) && (b =? LF) then 1 else 0) + count_CRLF rest
  | _ => 0
  end.

(** [seenCR] after bytes without a LF: whether the last of them is a CR. *)
Definition seenCR_after (seenCR : bool) (bytes : list Z) : bool :=
  fold_left (fun _ b => b =? CR) bytes seenCR.

(** A clock reading that does not end a read started at [timerStart]. *)
Definition in_time (timerStart timeout t : Z) : Prop :=
  uint32 (t - timerStart) <= timeout.

(** ** Frames *)

(** A member function leaves the observation [f] of the driver as it is,
    whenever it returns. *)
Definition preserves {A B : Type} (f : SIM800L -> B) (m : M A) : Prop :=
  forall (d : SIM800L) (a : A) (d' : SIM800L),
    m d = Done (a, d') -> f d' = f d.

(** The driver after the first lines of [doGet] and [doPost]. *)
Definition cleaned (d : SIM800L) : SIM800L :=
  set_dataSize 0 (set_recvBuffer (repeat 0 (length (recvBuffer d))) d).

(** ** Observations *)

(** The allocated sizes of the two buffers. *)
Definition sizes (d : SIM800L) : nat * nat :=
  (length (internalBuffer d), length (recvBuffer d)).

(** What a request leaves for the caller: the receive buffer and the
    received length. *)
Definition received (d : SIM800L) : list Z * Z := (recvBuffer d, dataSize d).

(** ** What a session writes *)

(** A command line, and one with a parameter between double quotes. *)
Definition line (command : list Z) : list Z := command ++ [CR; LF].
Definition line_with (command parameter : list Z) : list Z :=
  command ++ [QUOTE] ++ parameter ++ [QUOTE] ++ [CR; LF].

(** The commands that open an HTTP session on [url], [ssl] being the command
    that switches SSL on or off. *)
Definition HTTP_setup (url ssl : list Z) : list Z :=
  line AT_CMD_HTTPINIT ++ line AT_CMD_HTTPPARA_CID
    ++ line_with AT_CMD_HTTPPARA_URL url ++ line ssl.

(** The command that switches SSL on or off for a URL: on when the URL
    starts with the eight characters [https://]. *)
Definition SSL_command_for (url : list Z) : list Z :=
  if list_eq_dec Z.eq_dec (firstn 8 url) (chars "https://")
  then AT_CMD_HTTPSSL_Y else AT_CMD_HTTPSSL_N.

(** ** Reading the answers to the queries *)

(** The mode and the registration status a digit stands for. *)
Definition power_mode_of (c : Z) : PowerMode :=
  if c =? 48 then MINIMUM
  else if c =? 49 then NORMAL
  else if c =? 52 then SLEEP
  else POW_UNKNOWN.

Definition registration_of (c : Z) : NetworkRegistration :=
  if c =? 48 then NOT_REGISTERED
  else if c =? 49 then REGISTERED_HOME
  else if c =? 50 then SEARCHING
  else if c =? 51 then DENIED
  else if c =? 53 then REGISTERED_ROAMING
  else NET_UNKNOWN.

(** ** The stream during a request *)

(** A member function takes a prefix of the stream and leaves the rest. *)
Definition reads_ahead {A : Type} (m : M A) : Prop :=
  forall (d : SIM800L) (a : A) (d' : SIM800L),
    m d = Done (a, d') -> exists taken, rx d = taken ++ rx d'.

(** One step of a request that is not the copy of the payload: it keeps the
    sizes of the buffers, the receive buffer and the received length, and
    takes a prefix of the stream. *)
Definition passes_on (d d' : SIM800L) : Prop :=
  sizes d' = sizes d /\ received d' = received d /\
  exists taken, rx d = taken ++ rx d'.



(** * Scripted modules for the examples

    A script is the pair of the oracles [rx] and [clk].  The scripted module
    stays silent while a command is being sent (the drain of [sendCommand]
    polls once, finds nothing and sees 501 ms pass), then answers at once,
    every byte arriving within the same millisecond. *)

(** A command sent at time [t] and its answer.  The clock is read at the
    start of the drain, at its end, at the start of the read, and after
    every byte of the answer but the last. *)
Definition exchange (t : Z) (answer : list Z) : list (option Z) * list Z :=
  (None :: map Some answer,
   [t; t + 501; t + 501] ++ repeat (t + 501) (length answer - 1)).

Fixpoint dialogue (t : Z) (answers : list (list Z))
  : list (option Z) * list Z :=
  match answers with
  | [] => ([], [])
  | a :: rest =>
      let '(r, c) := exchange t a in
      let '(r', c') := dialogue (t + 501) rest in
      (r ++ r', c ++ c')
  end.

(** Bytes that arrive unasked at time [t], within the same millisecond. *)
Definition unsolicited (t : Z) (bytes : list Z) : list (option Z) * list Z :=
  (map Some bytes, t :: repeat t (length bytes - 1)).

(** A module that stays silent after a command sent at time [t], until the
    reader gives up after [timeout] ms. *)
Definition silence (t timeout : Z) : list (option Z) * list Z :=
  ([None; None], [t; t + 501; t + 501; t + 501 + timeout + 1]).

(** A command sent at time [t] whose answer is drained by
    [readToForget(timeout)]: the answer arrives at once and nothing follows
    until the drain times out. *)
Definition drained (t timeout : Z) (answer : list Z)
  : list (option Z) * list Z :=
  (None :: map Some answer ++ [None],
   [t; t + 501; t + 501] ++ repeat (t + 501) (length answer)
     ++ [t + 501 + timeout + 1]).

Definition followed_by (w1 w2 : list (option Z) * list Z)
  : list (option Z) * list Z :=
  (fst w1 ++ fst w2, snd w1 ++ snd w2).

(** A driver with zeroed buffers of [n] and [m] bytes in front of a scripted
    module. *)
Definition device (n m : nat) (w : list (option Z) * list Z) : SIM800L :=
  mkSIM800L (repeat 0 n) (repeat 0 m) 0 (fst w) (snd w) [].

(** The answer [ OK], and the answer OK of a module in verbose mode. *)
Definition OK_line : list Z := chars " OK" ++ [CR; LF].
Definition OK_verbose : list Z := [CR; LF] ++ chars "OK" ++ [CR; LF].

(** A module that sends CR LF LF and then nothing more, in front of a driver
    with a scratch buffer of 16 bytes; every byte arrives at time 0. *)
Definition sends_CR_LF_LF : SIM800L :=
  device 16 8 (map Some [CR; LF; LF], [0; 0; 0]).

(** A module that answers [ OK] and one that answers [OK] at the very start
    of the line, in front of a driver with a scratch buffer of 16 bytes. *)
Definition says_OK_after_space : SIM800L :=
  device 16 8 (map Some (chars " OK" ++ [CR; LF]), [0; 0; 0; 0; 0]).
Definition says_OK_at_start : SIM800L :=
  device 16 8 (map Some (chars "OK" ++ [CR; LF]), [0; 0; 0; 0]).

(** A module whose line [ OK] comes with pauses between its bytes, and five
    bytes that come with pauses in front of a scratch buffer of 4 bytes. *)
Definition pauses_then_OK : SIM800L :=
  device 16 8 ([None; Some 32; Some 79; None; None; Some 75; Some CR; None;
                Some LF; Some 65],
               [0; 1; 2; 3; 4; 5; 6; 7; 8; 9]).
Definition floods_slowly : SIM800L :=
  device 4 8 ([Some 65; None; Some 66; Some 67; None; Some 68; Some 69],
              [0; 1; 2; 3; 4; 5; 6]).

(** A module that answers [ OOK]: the expected answer OK is in the line, at
    index 2, after an O that starts a match and fails it. *)
Definition says_OOK : SIM800L :=
  device 16 8 (map Some (chars " OOK" ++ [CR; LF]), [0; 0; 0; 0; 0; 0]).

(** A driver whose scratch buffer holds the answer to a GET action. *)
Definition answered_1234 : SIM800L :=
  set_internalBuffer
    ([CR; LF] ++ chars "+HTTPACTION: 0,200,1234" ++ [CR; LF; 0; 0])
    (device 0 8 ([], [])).

(** The stream ['H', 'i', CR, '!', LF] in front of a driver with a declared
    length of 3 and a receive buffer of 8 bytes. *)
Definition hi_stream : list (option Z) :=
  map Some (chars "Hi" ++ [CR] ++ chars "!" ++ [LF]).
Definition hi_device : SIM800L :=
  set_dataSize 3 (device 16 8 (hi_stream, [])).

(** A driver that holds the payload "Hi" of an earlier request, in front of
    a module that does not answer any more. *)
Definition holding_Hi : SIM800L :=
  set_recvBuffer (chars "Hi" ++ repeat 0 6)
    (set_dataSize 2 (device 16 8 (silence 0 5000))).

(** A module that accepts a GET, announces status 200 and 5 bytes of data,
    and then answers the command HTTPREAD with ERROR. *)
Definition refuses_HTTPREAD : SIM800L :=
  device 64 8
    (followed_by
       (dialogue 0 [OK_line; OK_line; OK_line; OK_line; OK_line])
       (followed_by
          (unsolicited 2505 (chars "+HTTPACTION: 0,200,5" ++ [CR; LF]))
          (exchange 2505 ([CR; LF] ++ chars "ERROR" ++ [CR; LF])))).

(** The same, for a default [crlfToWait] of 2 and answers in verbose
    mode. *)
Definition refuses_HTTPREAD_2 : SIM800L :=
  device 64 8
    (followed_by
       (dialogue 0 [OK_verbose; OK_verbose; OK_verbose; OK_verbose; OK_verbose])
       (followed_by
          (unsolicited 2505
             ([CR; LF] ++ chars "+HTTPACTION: 0,200,5" ++ [CR; LF]))
          (exchange 2505 ([CR; LF] ++ chars "ERROR" ++ [CR; LF])))).

(** A module that accepts a GET and announces status 200 and 1234 bytes
    after a stray [+], for a default [crlfToWait] of 1 and of 2. *)
Definition announces_after_plus : SIM800L :=
  device 64 8
    (followed_by
       (dialogue 0 [OK_line; OK_line; OK_line; OK_line; OK_line])
       (unsolicited 2505 (chars "++HTTPACTION: 0,200,1234" ++ [CR; LF]))).
Definition announces_after_plus_2 : SIM800L :=
  device 64 8
    (followed_by
       (dialogue 0 [OK_verbose; OK_verbose; OK_verbose; OK_verbose; OK_verbose])
       (unsolicited 2505
          ([CR; LF] ++ chars "++HTTPACTION: 0,200,1234" ++ [CR; LF]))).

(** A module that serves a GET of 5 bytes: it answers OK to the commands,
    announces status 200 and 5 bytes, and sends HELLO when asked to. *)
Definition serves_HELLO : SIM800L :=
  device 64 8
    (followed_by
       (dialogue 0 [OK_verbose; OK_verbose; OK_verbose; OK_verbose; OK_verbose])
    (followed_by
       (unsolicited 2505 ([CR; LF] ++ chars "+HTTPACTION: 0,200,5" ++ [CR; LF]))
    (followed_by
       (exchange 2505 ([CR; LF] ++ chars "+HTTPREAD: 5" ++ [CR; LF]))
    (followed_by (map Some (chars "HELLO"), [])
    (followed_by (unsolicited 3006 OK_verbose)
       (exchange 3006 OK_verbose)))))).

(** A module in SLEEP mode that wakes up when told to. *)
Definition asleep : SIM800L :=
  device 32 8
    (followed_by (exchange 0 (chars "+CFUN: 4" ++ [CR; LF]))
       (followed_by (drained 501 10000 OK_line)
          (exchange 11003 (chars "+CFUN: 1" ++ [CR; LF])))).

(** A module that answers a query with [ ERROR]; one that answers ERROR in
    verbose mode, for a default [crlfToWait] of 2. *)
Definition answers_ERROR : SIM800L :=
  device 32 8 (exchange 0 (chars " ERROR" ++ [CR; LF])).
Definition answers_ERROR_2 : SIM800L :=
  device 32 8 (exchange 0 ([CR; LF] ++ chars "ERROR" ++ [CR; LF])).

(** A module whose answer starts with [ERROR], for a default [crlfToWait]
    of 1 and of 2. *)
Definition starts_with_ERROR : SIM800L :=
  device 32 8 (exchange 0 (chars "ERROR" ++ [CR; LF])).
Definition starts_with_ERROR_2 : SIM800L :=
  device 32 8 (exchange 0 (chars "ERROR" ++ [CR; LF; CR; LF])).

(** A module that echoes the command AT+CSQ and ends the line, for a default
    [crlfToWait] of 1; one that echoes it and reports an error, for a
    default of 2. *)
Definition echoes_CSQ : SIM800L :=
  device 32 8 (exchange 0 (chars "AT+CSQ" ++ [CR; LF])).
Definition echoes_CSQ_2 : SIM800L :=
  device 32 8
    (exchange 0 (chars "AT+CSQ" ++ [CR; CR; LF] ++ chars "ERROR" ++ [CR; LF])).

(** A module that sends the byte A and then nothing, until the read times
    out; the driver afterwards. *)
Definition hears_A_then_nothing : SIM800L :=
  device 8 8 ([Some 65; None; None], [0; 10; 1000; 1001]).
Definition heard_A : SIM800L :=
  set_internalBuffer (chars "A" ++ repeat 0 7) (device 8 8 ([], [])).

(** Six stale bytes pending in front of a scratch buffer of 4 bytes; the
    driver after a drain, with two of them still in the stream. *)
Definition floods : SIM800L :=
  device 4 8 (map Some (chars "ABCDEF"), [0; 0; 0; 0]).
Definition flooded : SIM800L :=
  set_internalBuffer (chars "ABCD") (device 4 8 (map Some (chars "EF"), [])).

(** A module that answers [ OK] to the four commands that open a session. *)
Definition accepts_session : SIM800L :=
  device 64 8 (dialogue 0 [OK_line; OK_line; OK_line; OK_line]).

(** A module that serves a POST: it answers OK to the commands, DOWNLOAD to
    HTTPDATA, stays silent while the payload is written, announces status
    200 and 2 bytes, and sends [ok] when asked to. *)
Definition serves_POST : SIM800L :=
  device 64 8
    (followed_by
       (dialogue 0 [OK_verbose; OK_verbose; OK_verbose; OK_verbose; OK_verbose;
                    [CR; LF] ++ chars "DOWNLOAD" ++ [CR; LF]])
    (followed_by ([None], [3006; 3507])
    (followed_by (exchange 3507 OK_verbose)
    (followed_by
       (unsolicited 4008 ([CR; LF] ++ chars "+HTTPACTION: 1,200,2" ++ [CR; LF]))
    (followed_by
       (exchange 4008 ([CR; LF] ++ chars "+HTTPREAD: 2" ++ [CR; LF]))
    (followed_by (map Some (chars "ok"), [])
    (followed_by (unsolicited 4509 OK_verbose)
       (exchange 4509 OK_verbose)))))))).

(** A module with nothing to say while a command is sent. *)
Definition listens : SIM800L := device 16 8 ([None], [0; 501]).

(** Modules that report the power mode 4 and the registration status 5. *)
Definition reports_CFUN_4 : SIM800L :=
  device 32 8 (exchange 0 (chars " +CFUN: 4" ++ [CR; LF])).
Definition reports_CREG_5 : SIM800L :=
  device 32 8 (exchange 0 (chars " +CREG: 0,5" ++ [CR; LF])).

(** A module that echoes the command AT+CSQ and reports the signal quality
    17, for a default [crlfToWait] of 2. *)
Definition reports_CSQ_17 : SIM800L :=
  device 32 8
    (exchange 0 (chars "AT+CSQ" ++ [CR; CR; LF] ++ chars "+CSQ: 17,0"
                   ++ [CR; LF])).

(** * Properties *)

(** ** Lengths *)

Lemma len_app (a b : list Z) : len (a ++ b) = len a + len b.
Proof. unfold len. rewrite length_app. lia. Qed.

Lemma len_cons (c : Z) (a : list Z) : len (c :: a) = len a + 1.
Proof. unfold len. simpl length. lia. Qed.

Lemma len_snoc (a : list Z) (c : Z) : len (a ++ [c]) = len a + 1.
Proof. rewrite len_app. reflexivity. Qed.

Lemma len_nonneg (a : list Z) : 0 <= len a.
Proof. unfold len. lia. Qed.

(** ** The matcher *)

Lemma int16_small (z : Z) : -32768 <= z < 32768 -> int16 z = z.
Proof. intros H. unfold int16. rewrite Z.mod_small; lia. Qed.

Lemma int16_of_uint16 (z : Z) : 0 <= z < 32768 -> int16 (uint16 z) = z.
Proof.
  intros H. unfold uint16. rewrite Z.mod_small by lia.
  apply int16_small. lia.
Qed.

Lemma int16_wraps (z : Z) : z = 32768 -> int16 z < 0.
Proof. intros ->. reflexivity. Qed.

Lemma ge_strlen_nonneg (a : Z) (s : list Z) :
  0 <= a -> ge_strlen a s = (a >=? len s).
Proof.
  intros H. unfold ge_strlen.
  now replace (a <? 0) with false by (symmetry; apply Z.ltb_ge; lia).
Qed.

Lemma nth_len_middle (done m : list Z) (c : Z) :
  nth (Z.to_nat (len done)) (done ++ c :: m) 0 = c.
Proof.
  unfold len. rewrite Nat2Z.id. apply nth_middle.
Qed.

Lemma strIndex_scan_match (m : list Z) :
  forall (done rest : list Z) (i first : Z),
    0 <= i -> i + len m < 32768 -> len done + len m < 32768 ->
    strIndex_scan (m ++ rest) (done ++ m) i first (len done) =
    ((if first <? 0 then match m with [] => first | _ => i end else first),
     len (done ++ m)).
Proof.
  induction m as [|c m IH]; intros done rest i first Hi Hbound Hsize.
  - rewrite app_nil_r. simpl app.
    destruct rest as [|r rest]; simpl.
    + now destruct (first <? 0).
    + replace (i <? 0) with false by (symmetry; apply Z.ltb_ge; lia).
      rewrite ge_strlen_nonneg by apply len_nonneg.
      replace (len done >=? len done) with true
        by (symmetry; apply Z.geb_le; lia).
      now destruct (first <? 0).
  - rewrite len_cons in Hbound, Hsize. pose proof (len_nonneg m) as Hm.
    pose proof (len_nonneg done) as Hd.
    simpl app. simpl strIndex_scan.
    replace (i <? 0) with false by (symmetry; apply Z.ltb_ge; lia).
    rewrite ge_strlen_nonneg by assumption.
    replace (len done >=? len (done ++ c :: m)) with false.
    2:{ symmetry. rewrite Z.geb_leb. apply Z.leb_gt.
        rewrite len_app, len_cons. lia. }
    rewrite nth_len_middle, Z.eqb_refl.
    rewrite !int16_small by lia.
    replace (done ++ c :: m) with ((done ++ [c]) ++ m)
      by (rewrite <- app_assoc; reflexivity).
    replace (len done + 1) with (len (done ++ [c]))
      by (rewrite len_app; reflexivity).
    rewrite IH by (rewrite ?len_snoc; lia).
    destruct (first <? 0) eqn:Hf.
    + replace (i <? 0) with false by (symmetry; apply Z.ltb_ge; lia).
      reflexivity.
    + rewrite Hf. reflexivity.
Qed.

Lemma strIndex_scan_skip (pre : list Z) :
  forall (rest findStr : list Z) (i : Z),
    findStr <> [] -> 0 <= i -> i + len pre < 32768 ->
    (forall x, In x pre -> x <> nth 0 findStr 0) ->
    strIndex_scan (pre ++ rest) findStr i (-1) 0 =
    strIndex_scan rest findStr (i + len pre) (-1) 0.
Proof.
  induction pre as [|c pre IH]; intros rest findStr i Hne Hi Hbound Hpre.
  - simpl. f_equal. unfold len. simpl. lia.
  - rewrite len_cons in Hbound. pose proof (len_nonneg pre) as Hp.
    simpl app. simpl strIndex_scan.
    replace (i <? 0) with false by (symmetry; apply Z.ltb_ge; lia).
    rewrite ge_strlen_nonneg by lia.
    replace (0 >=? len findStr) with false.
    2:{ symmetry. rewrite Z.geb_leb. apply Z.leb_gt.
        destruct findStr; [congruence | rewrite len_cons].
        pose proof (len_nonneg findStr). lia. }
    replace (c =? nth 0 findStr 0) with false.
    2:{ symmetry. apply Z.eqb_neq. apply Hpre. now left. }
    rewrite int16_small by lia.
    rewrite IH; auto; try lia.
    + f_equal. rewrite len_cons. lia.
    + intros x Hx. apply Hpre. now right.
Qed.

(** The first occurrence is found when the first character of the string
    searched does not appear before it and the match ends before index
    32768. *)
Lemma strIndex_found (pre findStr post : list Z) :
  findStr <> [] ->
  len pre + len findStr < 32768 ->
  (forall x, In x pre -> x <> nth 0 findStr 0) ->
  strIndex (pre ++ findStr ++ post) findStr 0 = len pre.
Proof.
  intros Hne Hbound Hpre. unfold strIndex.
  change (int16 (uint16 0)) with 0. simpl skipn.
  pose proof (len_nonneg pre) as Hp. pose proof (len_nonneg findStr) as Hf.
  rewrite strIndex_scan_skip by (auto; lia).
  rewrite (strIndex_scan_match findStr [] post) by (simpl; lia).
  simpl app. rewrite ge_strlen_nonneg by assumption.
  rewrite Z.geb_leb, Z.leb_refl.
  destruct findStr; [congruence | reflexivity].
Qed.

Lemma firstn_prefix (a b : list Z) : firstn (length a) (a ++ b) = a.
Proof.
  rewrite firstn_app, firstn_all, Nat.sub_diag. simpl. apply app_nil_r.
Qed.

Lemma scan_inv_complete (findStr pre rest : list Z) (k first size : Z) :
  findStr <> [] -> 0 <= k ->
  scan_inv findStr pre k first size ->
  size >= len findStr ->
  k <= first /\ occurs_at (pre ++ rest) findStr first.
Proof.
  intros Hne Hk (Hsz & _ & Hpos) Hfull.
  assert (Hlen : 0 < len findStr).
  { destruct findStr; [congruence | rewrite len_cons].
    pose proof (len_nonneg findStr). lia. }
  destruct Hpos as (Hkf & Hfirst & Hskip); [lia|].
  split; [assumption|]. split; [lia|].
  rewrite skipn_app, Hskip.
  replace (Z.to_nat size) with (length findStr) by (unfold len in *; lia).
  rewrite firstn_all.
  replace (Z.to_nat first - length pre)%nat with 0%nat
    by (unfold len in *; lia).
  simpl skipn. apply firstn_prefix.
Qed.

Lemma firstn_succ_nth (l : list Z) (n : nat) :
  (n < length l)%nat -> firstn (S n) l = firstn n l ++ [nth n l 0].
Proof.
  revert n. induction l as [|x l IH]; intros n Hn; simpl in Hn; [lia|].
  destruct n as [|n]; [reflexivity|].
  simpl. f_equal. apply IH. lia.
Qed.

(** The scan keeps its invariant up to the index where the counter wraps,
    and [sizeMatch] does not wrap when one of the two strings is shorter
    than 2^15. *)
Lemma strIndex_scan_sound (rest : list Z) :
  forall (pre findStr : list Z) (k i first size f s : Z),
    findStr <> [] -> 0 <= k ->
    len findStr < 32768 \/ len pre + len rest < 32768 ->
    (i = len pre /\ k <= i /\ len pre < 32768) \/ i < 0 ->
    scan_inv findStr pre k first size ->
    strIndex_scan rest findStr i first size = (f, s) ->
    ge_strlen s findStr = true ->
    k <= f /\ occurs_at (pre ++ rest) findStr f.
Proof.
  induction rest as [|c rest IH];
    intros pre findStr k i first size f s Hne Hk Hb Hi Hinv Hscan Hs.
  - simpl in Hscan. inversion Hscan; subst f s.
    rewrite ge_strlen_nonneg in Hs by (destruct Hinv; lia).
    rewrite Z.geb_leb in Hs. apply Z.leb_le in Hs.
    apply (scan_inv_complete findStr pre [] k first size); auto; lia.
  - simpl in Hscan.
    assert (Hstop : forall f s, (f, s) = (first, size) ->
                    ge_strlen s findStr = true ->
                    k <= f /\ occurs_at (pre ++ c :: rest) findStr f).
    { intros f0 s0 E Hs0. inversion E; subst f0 s0.
      rewrite ge_strlen_nonneg in Hs0 by (destruct Hinv; lia).
      rewrite Z.geb_leb in Hs0. apply Z.leb_le in Hs0.
      apply (scan_inv_complete findStr pre (c :: rest) k first size);
        auto; lia. }
    destruct (i <? 0) eqn:Hneg; [exact (Hstop f s (eq_sym Hscan) Hs)|].
    apply Z.ltb_ge in Hneg.
    destruct Hi as [(Hi & Hki & Hlt)|Hi]; [|lia].
    destruct (ge_strlen size findStr) eqn:Hfull;
      [exact (Hstop f s (eq_sym Hscan) Hs)|].
    clear Hstop.
    rewrite ge_strlen_nonneg in Hfull by (destruct Hinv; lia).
    rewrite Z.geb_leb in Hfull. apply Z.leb_gt in Hfull.
    replace (pre ++ c :: rest) with ((pre ++ [c]) ++ rest)
      by (rewrite <- app_assoc; reflexivity).
    destruct Hinv as (Hsz & Hzero & Hpos).
    assert (Hb' : len findStr < 32768 \/ len (pre ++ [c]) + len rest < 32768)
      by (rewrite len_snoc; rewrite len_cons in Hb; lia).
    assert (Hi' : (int16 (i + 1) = len (pre ++ [c]) /\ k <= int16 (i + 1) /\
                   len (pre ++ [c]) < 32768) \/ int16 (i + 1) < 0).
    { rewrite len_snoc. destruct (Z.eq_dec (i + 1) 32768) as [E|E].
      - right. now apply int16_wraps.
      - left. rewrite int16_small by lia. lia. }
    assert (Hsize : size <= len pre).
    { destruct (Z.eq_dec size 0) as [->|Hnz]; [apply len_nonneg|].
      destruct Hpos as (Hkf & Hfirst & _); lia. }
    destruct (c =? nth (Z.to_nat size) findStr 0) eqn:Hc.
    + apply Z.eqb_eq in Hc.
      assert (Hno : int16 (size + 1) = size + 1).
      { apply int16_small. rewrite len_cons in Hb.
        pose proof (len_nonneg rest). lia. }
      rewrite Hno in Hscan.
      apply (IH (pre ++ [c]) findStr k (int16 (i + 1))
               (if first <? 0 then i else first) (size + 1) f s);
        auto.
      clear Hscan IH.
      split; [lia|]. split; [lia|]. intros _.
      destruct (Z.eq_dec size 0) as [Hz|Hnz].
      * replace (if first <? 0 then i else first) with i
          by (rewrite (Hzero Hz); reflexivity).
        split; [lia|]. split; [rewrite len_snoc; lia|].
        subst size i. unfold len at 1. rewrite Nat2Z.id.
        rewrite skipn_app, skipn_all, Nat.sub_diag. simpl.
        simpl in Hc. destruct findStr; [congruence|].
        simpl in Hc. subst c. reflexivity.
      * destruct Hpos as (Hkf & Hfirst & Hskip); [lia|].
        replace (first <? 0) with false by (symmetry; apply Z.ltb_ge; lia).
        split; [lia|]. split; [rewrite len_snoc; lia|].
        rewrite skipn_app, Hskip.
        replace (Z.to_nat first - length pre)%nat with 0%nat
          by (unfold len in *; lia).
        simpl skipn.
        replace (Z.to_nat (size + 1)) with (S (Z.to_nat size)) by lia.
        rewrite firstn_succ_nth by (unfold len in *; lia).
        now rewrite Hc.
    + apply (IH (pre ++ [c]) findStr k (int16 (i + 1)) (-1) 0 f s); auto.
      clear Hscan IH.
      split; [pose proof (len_nonneg findStr); lia|].
      split; [reflexivity | lia].
Qed.

(** What the matcher returns is a match: a non-negative result is the index
    of an occurrence of the string searched, at or after the start offset
    (one of the two strings being shorter than 2^15). *)
Lemma strIndex_sound (str findStr : list Z) (startIdx : Z) :
  findStr <> [] -> 0 <= startIdx < 65536 ->
  len findStr < 32768 \/ len str < 32768 ->
  0 <= strIndex str findStr startIdx ->
  startIdx <= strIndex str findStr startIdx /\
  occurs_at str findStr (strIndex str findStr startIdx).
Proof.
  intros Hne Hk Hb. unfold strIndex.
  destruct (Z_lt_le_dec startIdx 32768) as [Hlow|Hhigh].
  - rewrite int16_of_uint16 by lia.
    destruct (strIndex_scan (skipn (Z.to_nat startIdx) str) findStr startIdx
                (-1) 0) as [f s] eqn:Hscan.
    destruct (ge_strlen s findStr) eqn:Hs; [|lia].
    intros _.
    destruct (Z_le_gt_dec startIdx (len str)) as [Hin|Hout].
    + assert (Hpre : len (firstn (Z.to_nat startIdx) str) = startIdx)
        by (unfold len; rewrite length_firstn; unfold len in Hin; lia).
      rewrite <- (firstn_skipn (Z.to_nat startIdx) str).
      apply (strIndex_scan_sound _ _ findStr startIdx startIdx (-1) 0 f s);
        [ assumption | lia | | left; lia | | assumption | assumption ].
      * rewrite <- len_app, firstn_skipn. exact Hb.
      * split; [pose proof (len_nonneg findStr); lia|].
        split; [reflexivity | lia].
    + rewrite skipn_all2 in Hscan by (unfold len in Hout; lia).
      simpl in Hscan. inversion Hscan; subst f s.
      unfold ge_strlen in Hs. simpl in Hs.
      rewrite Z.geb_leb in Hs. apply Z.leb_le in Hs.
      destruct findStr; [congruence|]. rewrite len_cons in Hs.
      pose proof (len_nonneg findStr). lia.
  - (* the counter starts below 0 and the loop is not entered *)
    assert (Hi : int16 (uint16 startIdx) < 0).
    { unfold uint16. rewrite Z.mod_small by lia.
      unfold int16.
      replace (startIdx + 32768) with (startIdx - 32768 + 1 * 65536) by lia.
      rewrite Z.mod_add by lia. rewrite Z.mod_small by lia. lia. }
    replace (Z.to_nat (int16 (uint16 startIdx))) with 0%nat by lia.
    simpl skipn.
    assert (Hscan : strIndex_scan str findStr (int16 (uint16 startIdx)) (-1) 0
                    = (-1, 0)).
    { destruct str; [reflexivity|]. simpl.
      now replace (int16 (uint16 startIdx) <? 0) with true
        by (symmetry; apply Z.ltb_lt; lia). }
    rewrite Hscan. destruct (ge_strlen 0 findStr); lia.
Qed.

Example strIndex_ex1 : strIndex (chars "ABCDEF") (chars "CD") 0 = 2.
Proof. reflexivity. Qed.
Example strIndex_ex2 : strIndex (chars "ABCDEF") (chars "ZZ") 0 = -1.
Proof. reflexivity. Qed.
Example strIndex_ex3 : strIndex (chars "ABCDEF") (chars "CD") 3 = -1.
Proof. reflexivity. Qed.

(** C2: the matcher misses a match that starts inside a failed partial
    match: it does not find [OK] in [OOK], where [OK] occurs at index 1.
    (After the mismatch at index 1 the scan goes on at index 2 without
    looking at index 1 again.) *)
Theorem strIndex_misses_overlapping_match :
  strIndex (chars "OOK") (chars "OK") 0 = -1 /\
  occurs_at (chars "OOK") (chars "OK") 1.
Proof. split; [reflexivity | split; [lia | reflexivity]]. Qed.

(** ** Arrays and C strings *)

Lemma load_app (a b : list Z) (j : Z) :
  0 <= j -> load (a ++ b) (len a + j) = load b j.
Proof.
  intros Hj. unfold load.
  replace (len a + j <? 0) with false
    by (symmetry; apply Z.ltb_ge; pose proof (len_nonneg a); lia).
  replace (j <? 0) with false by (symmetry; apply Z.ltb_ge; lia).
  unfold len. rewrite nth_error_app2 by lia. f_equal. lia.
Qed.




Lemma len_nil : len [] = 0.
Proof. reflexivity. Qed.

Ltac len_lia :=
  rewrite ?len_app, ?len_cons, ?len_nil in *; unfold len in *; lia.

Lemma store_middle (done tl : list Z) (x v : Z) :
  store (done ++ x :: tl) (len done) v = Some (done ++ v :: tl).
Proof.
  unfold store.
  replace (len done <? 0) with false
    by (symmetry; apply Z.ltb_ge; apply len_nonneg).
  unfold len. rewrite Nat2Z.id.
  induction done as [|y done IH]; simpl; [reflexivity|].
  now rewrite IH.
Qed.

Lemma c_str_prefix (a : list Z) :
  forall s, c_str a = Some s -> exists rest, a = s ++ 0 :: rest.
Proof.
  induction a as [|x a IH]; intros s H; simpl in H; [discriminate|].
  destruct (x =? 0) eqn:Hx.
  - apply Z.eqb_eq in Hx. inversion H; subst. now exists a.
  - destruct (c_str a) as [s'|]; [|discriminate].
    inversion H; subst. destruct (IH s' eq_refl) as [rest ->].
    now exists rest.
Qed.

Lemma load_in_string (buf s : list Z) (i : Z) :
  c_str buf = Some s -> 0 <= i < len s -> exists c, load buf i = Some c.
Proof.
  intros Hs Hi. destruct (c_str_prefix buf s Hs) as [rest ->].
  unfold load.
  replace (i <? 0) with false by (symmetry; apply Z.ltb_ge; lia).
  rewrite nth_error_app1 by (unfold len in Hi; lia).
  destruct (nth_error s (Z.to_nat i)) as [c|] eqn:Hc; [now exists c|].
  apply nth_error_None in Hc. unfold len in Hi. lia.
Qed.

(** ** Running member functions *)

Lemma bind_Done {A B : Type} (m : M A) (k : A -> M B) (d : SIM800L) (a : A)
    (d' : SIM800L) :
  m d = Done (a, d') -> bind m k d = k a d'.
Proof. unfold bind. now intros ->. Qed.

Lemma internalBuffer_at_Done (i v : Z) (d : SIM800L) :
  load (internalBuffer d) i = Some v -> internalBuffer_at i d = Done (v, d).
Proof. unfold internalBuffer_at, or_fault. now intros ->. Qed.

Lemma bind_inv {A B : Type} (m : M A) (k : A -> M B) (d : SIM800L) (b : B)
    (d' : SIM800L) :
  bind m k d = Done (b, d') ->
  exists (a : A) (d1 : SIM800L), m d = Done (a, d1) /\ k a d1 = Done (b, d').
Proof.
  unfold bind. destruct (m d) as [[a d1]| |]; try discriminate.
  intros H. now exists a, d1.
Qed.

(** ** The response reader *)

Example readResponse_one_line :
  readResponse 1000 1
    (device 8 8 (map Some (chars "OK" ++ [CR; LF]), [0; 0; 0; 0]))
  = Done (true,
          set_internalBuffer (chars "OK" ++ [CR; LF; 0; 0; 0; 0])
            (device 8 8 ([], []))).
Proof. reflexivity. Qed.

Example readResponse_second_line :
  readResponse 1000 2
    (device 8 8 (map Some ([CR; LF] ++ chars "OK" ++ [CR; LF] ++ chars "x"),
                 [0; 0; 0; 0; 0; 0]))
  = Done (true,
          set_internalBuffer ([CR; LF] ++ chars "OK" ++ [CR; LF; 0; 0])
            (device 8 8 ([Some 120], []))).
Proof. reflexivity. Qed.

Example readResponse_full_buffer :
  readResponse 1000 1
    (device 4 8 (map Some (chars "ABCDEF"), [0; 0; 0; 0]))
  = Done (true,
          set_internalBuffer (chars "ABCD")
            (device 4 8 (map Some (chars "EF"), []))).
Proof. reflexivity. Qed.

Example readResponse_timeout :
  readResponse 1000 1
    (device 8 8 ([Some 65; None; None], [0; 10; 1000; 1001]))
  = Done (false,
          set_internalBuffer (chars "A" ++ repeat 0 7)
            (device 8 8 ([], []))).
Proof. reflexivity. Qed.

Lemma readResponse_loop_byte (rx : list (option Z)) (clk : list Z)
    (timerStart timeout crlfToWait b t : Z) (done room : list Z) (x : Z)
    (seenCR : bool) (countCRLF : Z) :
  in_time timerStart timeout t ->
  snd (detectCRLF b seenCR countCRLF crlfToWait) = false ->
  room <> [] ->
  len (done ++ x :: room) < 65536 ->
  readResponse_loop (Some b :: rx) (t :: clk) timerStart timeout crlfToWait
    (done ++ x :: room) (len done) seenCR countCRLF =
  readResponse_loop rx clk timerStart timeout crlfToWait
    ((done ++ [b]) ++ room) (len (done ++ [b]))
    (fst (fst (detectCRLF b seenCR countCRLF crlfToWait)))
    (snd (fst (detectCRLF b seenCR countCRLF crlfToWait))).
Proof.
  intros Ht Hgo Hroom Hcap. simpl readResponse_loop.
  rewrite store_middle.
  destruct (detectCRLF b seenCR countCRLF crlfToWait) as [[s c] stop].
  simpl in Hgo. subst stop. simpl fst. simpl snd.
  assert (Hn : uint16 (len done + 1) = len done + 1)
    by (unfold uint16; apply Z.mod_small; len_lia).
  rewrite Hn.
  replace (len done + 1 =? len (done ++ x :: room)) with false.
  2:{ symmetry. apply Z.eqb_neq. destruct room; [congruence|]. len_lia. }
  red in Ht.
  replace (uint32 (t - timerStart) >? timeout) with false
    by (symmetry; rewrite Z.gtb_ltb; apply Z.ltb_ge; lia).
  rewrite len_snoc, <- app_assoc. reflexivity.
Qed.

Lemma readResponse_loop_last (rx : list (option Z)) (clk : list Z)
    (timerStart timeout crlfToWait b : Z) (done room : list Z) (x : Z)
    (seenCR : bool) (countCRLF : Z) :
  snd (detectCRLF b seenCR countCRLF crlfToWait) = true ->
  readResponse_loop (Some b :: rx) clk timerStart timeout crlfToWait
    (done ++ x :: room) (len done) seenCR countCRLF =
  Done (true, done ++ b :: room, rx, clk).
Proof.
  intros Hstop. simpl readResponse_loop. rewrite store_middle.
  destruct (detectCRLF b seenCR countCRLF crlfToWait) as [[s c] stop].
  simpl in Hstop. now subst stop.
Qed.

Lemma skipn_repeat_zeros (n m : nat) :
  skipn n (repeat 0 m) = repeat 0 (m - n).
Proof.
  revert m. induction n as [|n IH]; intros m; simpl.
  - now rewrite Nat.sub_0_r.
  - destruct m as [|m]; simpl; [reflexivity | apply IH].
Qed.

Lemma detectCRLF_not_LF (b : Z) (seenCR : bool) (countCRLF crlfToWait : Z) :
  b <> LF ->
  detectCRLF b seenCR countCRLF crlfToWait = (b =? CR, countCRLF, false).
Proof.
  intros Hlf. unfold detectCRLF.
  destruct (b =? CR); [reflexivity|].
  replace (b =? LF) with false by (symmetry; now apply Z.eqb_neq).
  reflexivity.
Qed.

(** The loop passes over polls that find nothing and over bytes that are not
    LF, while the clock stays in time and the buffer has room left. *)
Lemma readResponse_loop_pass (front : list (option Z)) :
  forall (rest : list (option Z)) (clk : list Z)
         (timerStart timeout crlfToWait : Z) (done room : list Z)
         (seenCR : bool) (countCRLF : Z),
    Forall (fun b => b <> LF) (delivered front) ->
    (length (delivered front) < length room)%nat ->
    len (done ++ room) < 65536 ->
    (length front <= length clk)%nat ->
    Forall (in_time timerStart timeout) (firstn (length front) clk) ->
    readResponse_loop (front ++ rest) clk timerStart timeout crlfToWait
      (done ++ room) (len done) seenCR countCRLF
    = readResponse_loop rest (skipn (length front) clk) timerStart timeout
        crlfToWait
        ((done ++ delivered front) ++ skipn (length (delivered front)) room)
        (len (done ++ delivered front))
        (seenCR_after seenCR (delivered front)) countCRLF.
Proof.
  induction front as [|[b|] front IH];
    intros rest clk timerStart timeout crlfToWait done room seenCR countCRLF
           Hlf Hroom Hcap Hclk Htime.
  - simpl. now rewrite app_nil_r.
  - change (delivered (Some b :: front)) with (b :: delivered front) in *.
    inversion Hlf as [|? ? Hb Hlf']; subst.
    destruct room as [|x room]; [simpl in Hroom; lia|].
    destruct clk as [|t clk]; [simpl in Hclk; lia|].
    simpl in Htime. inversion Htime as [|? ? Ht Htime']; subst.
    change ((Some b :: front) ++ rest) with (Some b :: (front ++ rest)).
    rewrite readResponse_loop_byte; auto.
    + rewrite detectCRLF_not_LF by assumption. simpl fst. simpl snd.
      rewrite IH; auto.
      * simpl skipn. simpl length. simpl seenCR_after.
        now rewrite <- !app_assoc.
      * simpl in Hroom. lia.
      * len_lia.
      * simpl in Hclk. lia.
    + now rewrite detectCRLF_not_LF.
    + destruct room; [simpl in Hroom; lia | discriminate].
  - change (delivered (None :: front)) with (delivered front) in *.
    destruct clk as [|t clk]; [simpl in Hclk; lia|].
    simpl in Htime. inversion Htime as [|? ? Ht Htime']; subst.
    simpl app. simpl readResponse_loop. red in Ht.
    replace (uint32 (t - timerStart) >? timeout) with false
      by (symmetry; rewrite Z.gtb_ltb; apply Z.ltb_ge; lia).
    rewrite IH; auto. simpl in Hclk. lia.
Qed.

Lemma seenCR_after_CR (seenCR : bool) (bytes : list Z) :
  seenCR_after seenCR (bytes ++ [CR]) = true.
Proof. unfold seenCR_after. now rewrite fold_left_app. Qed.

(** X19: a line without a LF in it that fits the scratch buffer with its
    CR LF is read by [readResponse(timeout, 1)] up to and including its
    CR LF, whatever polls that find nothing come between its bytes, when
    every clock reading before its LF is in time: the call returns true, the
    rest of the buffer is zero and what follows the line stays in the
    stream. *)
Theorem readResponse_reads_line (line : list Z) (front rest : list (option Z))
    (t0 timeout : Z) (clk' : list Z) (d : SIM800L) :
  Forall (fun b => b <> LF) line ->
  len line + 2 <= internalBufferSize d < 65536 ->
  rx d = front ++ Some LF :: rest ->
  delivered front = line ++ [CR] ->
  clk d = t0 :: clk' ->
  (length front <= length clk')%nat ->
  Forall (in_time t0 timeout) (firstn (length front) clk') ->
  readResponse timeout 1 d =
  Done (true,
        set_clk (skipn (length front) clk')
          (set_rx rest
             (set_internalBuffer
                (line ++ [CR; LF]
                   ++ repeat 0 (length (internalBuffer d) - (length line + 2)))
                d))).
Proof.
  intros Hline Hcap Hrx Hfront Hclk Hlen Htime.
  unfold readResponse, bind, initInternalBuffer, modify, millis.
  simpl. rewrite Hclk. simpl. rewrite Hrx.
  unfold internalBufferSize, len in Hcap.
  pose proof (readResponse_loop_pass front (Some LF :: rest) clk' t0 timeout 1
                [] (repeat 0 (length (internalBuffer d))) false 0) as H.
  simpl app in H. change (len []) with 0 in H.
  rewrite H; clear H.
  - rewrite Hfront, seenCR_after_CR, skipn_repeat_zeros, length_app.
    simpl length.
    destruct (length (internalBuffer d) - (length line + 1))%nat
      as [|n] eqn:Hn; [lia|].
    change (repeat 0 (S n)) with (0 :: repeat 0 n).
    rewrite readResponse_loop_last by reflexivity.
    rewrite <- !app_assoc. simpl app.
    replace (length (internalBuffer d) - (length line + 2))%nat with n by lia.
    reflexivity.
  - rewrite Hfront. apply Forall_app. split; [assumption|].
    constructor; [discriminate | constructor].
  - rewrite Hfront, length_app, repeat_length. simpl. lia.
  - unfold len. rewrite repeat_length. lia.
  - assumption.
  - assumption.
Qed.

Lemma readResponse_reads_line_witness :
  readResponse 5000 1 pauses_then_OK =
  Done (true,
        set_clk [9]
          (set_rx [Some 65]
             (set_internalBuffer (chars " OK" ++ [CR; LF] ++ repeat 0 11)
                pauses_then_OK))).
Proof.
  apply (readResponse_reads_line (chars " OK")
           [None; Some 32; Some 79; None; None; Some 75; Some CR; None]
           [Some 65] 0 5000 [1; 2; 3; 4; 5; 6; 7; 8; 9] pauses_then_OK).
  - repeat (constructor; [discriminate|]). constructor.
  - vm_compute. split; [discriminate | reflexivity].
  - reflexivity.
  - reflexivity.
  - reflexivity.
  - vm_compute. repeat constructor.
  - repeat (constructor; [vm_compute; discriminate|]). constructor.
Defined.

(** The loop while nothing arrives: it ends with failure at the first
    clock reading past the timeout. *)
Lemma readResponse_loop_silence (early : list Z) :
  forall (rest : list (option Z)) (late : Z) (clk : list Z)
         (timerStart timeout crlfToWait : Z) (buf : list Z) (i : Z)
         (seenCR : bool) (countCRLF : Z),
    Forall (in_time timerStart timeout) early ->
    ~ in_time timerStart timeout late ->
    readResponse_loop (repeat None (length early) ++ None :: rest)
      (early ++ late :: clk) timerStart timeout crlfToWait buf i seenCR
      countCRLF
    = Done (false, buf, rest, clk).
Proof.
  induction early as [|t early IH];
    intros rest late clk timerStart timeout crlfToWait buf i seenCR countCRLF
           Hearly Hlate.
  - simpl. unfold in_time in Hlate.
    replace (uint32 (late - timerStart) >? timeout) with true
      by (symmetry; rewrite Z.gtb_ltb; apply Z.ltb_lt; lia).
    reflexivity.
  - inversion Hearly as [|? ? Ht Hearly']; subst. simpl.
    unfold in_time in Ht.
    replace (uint32 (t - timerStart) >? timeout) with false
      by (symmetry; rewrite Z.gtb_ltb; apply Z.ltb_ge; lia).
    now apply IH.
Qed.

(** When nothing arrives before the timeout the read fails, and the buffer
    is all zero. *)
Lemma readResponse_times_out (early : list Z) (rest : list (option Z))
    (t0 late timeout crlfToWait : Z) (clk' : list Z) (d : SIM800L) :
  rx d = repeat None (length early) ++ None :: rest ->
  clk d = t0 :: early ++ late :: clk' ->
  Forall (in_time t0 timeout) early ->
  ~ in_time t0 timeout late ->
  readResponse timeout crlfToWait d =
  Done (false,
        set_clk clk'
          (set_rx rest
             (set_internalBuffer (repeat 0 (length (internalBuffer d))) d))).
Proof.
  intros Hrx Hclk Hearly Hlate.
  unfold readResponse, bind, initInternalBuffer, modify, millis.
  simpl. rewrite Hclk. simpl. rewrite Hrx.
  now rewrite readResponse_loop_silence.
Qed.

Lemma readResponse_loop_full (rx : list (option Z)) (clk : list Z)
    (timerStart timeout crlfToWait b : Z) (done : list Z) (x : Z)
    (seenCR : bool) (countCRLF : Z) :
  len (done ++ [x]) < 65536 ->
  readResponse_loop (Some b :: rx) clk timerStart timeout crlfToWait
    (done ++ [x]) (len done) seenCR countCRLF =
  Done (true, done ++ [b], rx, clk).
Proof.
  intros Hcap. simpl readResponse_loop. rewrite store_middle.
  assert (Hn : uint16 (len done + 1) = len done + 1)
    by (unfold uint16; apply Z.mod_small; len_lia).
  rewrite Hn, len_snoc, Z.eqb_refl.
  now destruct (detectCRLF b seenCR countCRLF crlfToWait) as [[s c] [|]].
Qed.

(** X21: when the bytes that arrive in time, with any polls that find
    nothing between them, fill the scratch buffer with no LF among them,
    [readResponse] returns true with exactly these bytes in the buffer (no
    NUL after them), and what follows them stays in the stream. *)
Theorem readResponse_stops_at_capacity (front rest : list (option Z))
    (b t0 timeout crlfToWait : Z) (clk' : list Z) (d : SIM800L) :
  Forall (fun x => x <> LF) (delivered front ++ [b]) ->
  len (delivered front ++ [b]) = internalBufferSize d ->
  internalBufferSize d < 65536 ->
  rx d = front ++ Some b :: rest ->
  clk d = t0 :: clk' ->
  (length front <= length clk')%nat ->
  Forall (in_time t0 timeout) (firstn (length front) clk') ->
  readResponse timeout crlfToWait d =
  Done (true,
        set_clk (skipn (length front) clk')
          (set_rx rest (set_internalBuffer (delivered front ++ [b]) d))).
Proof.
  intros Hlf Hlen Hcap Hrx Hclk Hclk' Htime.
  unfold readResponse, bind, initInternalBuffer, modify, millis.
  simpl. rewrite Hclk. simpl. rewrite Hrx.
  unfold internalBufferSize, len in Hlen, Hcap.
  rewrite length_app in Hlen. simpl length in Hlen.
  apply Forall_app in Hlf. destruct Hlf as [Hlf _].
  pose proof (readResponse_loop_pass front (Some b :: rest) clk' t0 timeout
                crlfToWait [] (repeat 0 (length (internalBuffer d))) false 0)
    as H.
  simpl app in H. change (len []) with 0 in H.
  rewrite H; clear H.
  - rewrite skipn_repeat_zeros.
    replace (length (internalBuffer d) - length (delivered front))%nat
      with 1%nat by lia.
    change (repeat 0 1) with [0].
    rewrite readResponse_loop_full; [reflexivity|].
    unfold len. rewrite length_app. simpl. lia.
  - assumption.
  - rewrite repeat_length. lia.
  - unfold len. rewrite repeat_length. lia.
  - assumption.
  - assumption.
Qed.

Lemma readResponse_stops_at_capacity_witness :
  readResponse 5000 1 floods_slowly =
  Done (true,
        set_clk [6]
          (set_rx [Some 69]
             (set_internalBuffer (chars "ABCD") floods_slowly))).
Proof.
  apply (readResponse_stops_at_capacity
           [Some 65; None; Some 66; Some 67; None] [Some 69] 68 0 5000 1
           [1; 2; 3; 4; 5; 6] floods_slowly).
  - repeat (constructor; [discriminate|]). constructor.
  - reflexivity.
  - vm_compute. reflexivity.
  - reflexivity.
  - reflexivity.
  - vm_compute. repeat constructor.
  - repeat (constructor; [vm_compute; discriminate|]). constructor.
Defined.

(** C1: the reader counts a LF that follows a CRLF as one more CRLF
    ([seenCR] is not cleared when a CRLF is counted).  Waiting for 2 CRLF on
    the stream CR LF LF it returns success after the third byte, although
    the bytes received hold one CRLF sequence, the buffer of 16 bytes is not
    full and no time has passed. *)
Theorem readResponse_counts_LF_after_CRLF :
  readResponse 1000 2 sends_CR_LF_LF
  = Done (true,
          set_internalBuffer ([CR; LF; LF] ++ repeat 0 13)
            (device 16 8 ([], []))) /\
  count_CRLF (delivered (rx sends_CR_LF_LF)) = 1 /\
  len (delivered (rx sends_CR_LF_LF)) < internalBufferSize sends_CR_LF_LF.
Proof. repeat split. Qed.

(** ** Checking an answer *)

(** In terms of the result of the matcher: [readResponseCheckAnswer_P]
    returns true exactly when [readResponse] succeeds and [strIndex] returns
    an index greater than 0 for the expected answer; it returns false when
    the read fails and when that index is 0 or -1.  (The expected answer has
    to fit the local array of 16 chars.) *)
Lemma readResponseCheckAnswer_P_true_iff (timeout crlfToWait : Z)
    (expectedAnswer : list Z) (d d' : SIM800L) :
  len expectedAnswer < 16 ->
  (readResponseCheckAnswer_P timeout expectedAnswer crlfToWait d
     = Done (true, d') <->
   readResponse timeout crlfToWait d = Done (true, d') /\
   exists s, c_str (internalBuffer d') = Some s /\
             0 < strIndex s expectedAnswer 0) /\
  (readResponseCheckAnswer_P timeout expectedAnswer crlfToWait d
     = Done (false, d') <->
   readResponse timeout crlfToWait d = Done (false, d') \/
   (readResponse timeout crlfToWait d = Done (true, d') /\
    exists s, c_str (internalBuffer d') = Some s /\
              strIndex s expectedAnswer 0 <= 0)) /\
  (forall s,
     readResponse timeout crlfToWait d = Done (true, d') ->
     c_str (internalBuffer d') = Some s ->
     strIndex s expectedAnswer 0 = 0 ->
     readResponseCheckAnswer_P timeout expectedAnswer crlfToWait d
       = Done (false, d')).
Proof.
  intros Hfit.
  unfold readResponseCheckAnswer_P, strcpy_P, strIndex_internalBuffer, bind,
    or_fault, ret.
  replace (len expectedAnswer <? 16) with true
    by (symmetry; now apply Z.ltb_lt).
  destruct (readResponse timeout crlfToWait d) as [[[|] d1]| |].
  - destruct (c_str (internalBuffer d1)) as [s|] eqn:Hs.
    + destruct (strIndex s expectedAnswer 0 >? 0) eqn:Hidx;
        rewrite Z.gtb_ltb in Hidx;
        [apply Z.ltb_lt in Hidx | apply Z.ltb_ge in Hidx].
      * split; [|split].
        -- split.
           ++ intros H. inversion H; subst d'. split; [reflexivity|].
              exists s. now split.
           ++ intros [H _]. inversion H. reflexivity.
        -- split; [discriminate|].
           intros [H|[H (s' & Hs' & Hle)]]; [discriminate|].
           inversion H; subst d'. rewrite Hs in Hs'. inversion Hs'; subst s'.
           lia.
        -- intros s' H Hs' Hz. inversion H; subst d'.
           rewrite Hs in Hs'. inversion Hs'; subst s'. lia.
      * split; [|split].
        -- split; [discriminate|].
           intros [H (s' & Hs' & Hlt)]. inversion H; subst d'.
           rewrite Hs in Hs'. inversion Hs'; subst s'. lia.
        -- split.
           ++ intros H. inversion H; subst d'. right. split; [reflexivity|].
              exists s. now split.
           ++ intros [H|[H _]]; [discriminate|]. inversion H. reflexivity.
        -- intros s' H _ _. inversion H. reflexivity.
    + split; [|split].
      * split; [discriminate|].
        intros [H (s' & Hs' & _)]. inversion H; subst d'. congruence.
      * split; [discriminate|].
        intros [H|[H (s' & Hs' & _)]]; [discriminate|].
        inversion H; subst d'. congruence.
      * intros s' H Hs' _. inversion H; subst d'. congruence.
  - split; [|split].
    + split; [discriminate | intros [H _]; discriminate].
    + split.
      * intros H. inversion H. now left.
      * intros [H|[H _]]; [inversion H; reflexivity | discriminate].
    + intros s H. discriminate.
  - split; [|split].
    + split; [discriminate | intros [H _]; discriminate].
    + split; [discriminate | intros [H|[H _]]; discriminate].
    + intros s H. discriminate.
  - split; [|split].
    + split; [discriminate | intros [H _]; discriminate].
    + split; [discriminate | intros [H|[H _]]; discriminate].
    + intros s H. discriminate.
Qed.

Lemma readResponseCheckAnswer_P_true_iff_witness :
  (exists d', readResponseCheckAnswer_P 1000 AT_RSP_OK 1 says_OK_after_space
                = Done (true, d')) /\
  (exists d', readResponseCheckAnswer_P 1000 AT_RSP_OK 1 says_OK_at_start
                = Done (false, d')).
Proof.
  split; eexists.
  - refine (proj2 (proj1 (readResponseCheckAnswer_P_true_iff 1000 1 AT_RSP_OK
                            says_OK_after_space _ _)) _).
    + vm_compute. reflexivity.
    + split; [reflexivity|]. eexists. split; [reflexivity|].
      vm_compute. reflexivity.
  - refine (proj2 (proj2 (readResponseCheckAnswer_P_true_iff 1000 1 AT_RSP_OK
                            says_OK_at_start _ _)) _ _ _ _).
    + vm_compute. reflexivity.
    + reflexivity.
    + reflexivity.
    + reflexivity.
Defined.

(** C3: the expected answer can be in the scratch buffer at an index greater
    than 0 after a successful read and the helper still returns false.  The
    module answers [ OOK]: the read succeeds, OK is at index 2, and
    [readResponseCheckAnswer_P] returns false, because the matcher misses an
    occurrence that starts inside a failed partial match. *)
Theorem readResponseCheckAnswer_P_misses_answer_after_partial_match :
  exists d' : SIM800L,
    readResponse 1000 1 says_OOK = Done (true, d') /\
    c_str (internalBuffer d') = Some (chars " OOK" ++ [CR; LF]) /\
    occurs_at (chars " OOK" ++ [CR; LF]) AT_RSP_OK 2 /\
    strIndex (chars " OOK" ++ [CR; LF]) AT_RSP_OK 0 = -1 /\
    readResponseCheckAnswer_P 1000 AT_RSP_OK 1 says_OOK = Done (false, d').
Proof.
  eexists. split; [vm_compute; reflexivity|].
  split; [vm_compute; reflexivity|].
  split; [split; [lia | reflexivity]|].
  split; vm_compute; reflexivity.
Qed.

(** ** Decimal fields *)

Lemma schar_digit (d : Z) : is_digit d -> schar (48 + d) - 48 = d.
Proof.
  unfold is_digit, schar. intros Hd.
  replace (48 + d <? 128) with true by (symmetry; apply Z.ltb_lt; lia). lia.
Qed.





(** ** The answer to HTTPACTION *)





(** Two answers with status 200: the lengths 1234 and 0. *)
Example httpaction_200_1234 :
  strIndex_internalBuffer GET_ACTION 0 answered_1234 = Done (2, answered_1234) /\
  parseHttpRC 2 answered_1234 = Done (200, answered_1234) /\
  parseDataSize 2 answered_1234 = Done (tt, set_dataSize 1234 answered_1234) /\
  parseDataSize 0
    (set_internalBuffer (chars "+HTTPACTION: 0,200,0" ++ [CR; LF; 0])
       answered_1234)
  = Done (tt, set_dataSize 0
                (set_internalBuffer (chars "+HTTPACTION: 0,200,0" ++ [CR; LF; 0])
                   answered_1234)).
Proof. repeat split; reflexivity. Qed.

(** C4: the answer [+HTTPACTION: 0,200,1234] can be in the scratch buffer
    and the GET flow parses neither the status nor the length.  The module
    sends a stray [+] right before the answer: the matcher starts a match on
    the stray [+], fails it on the [+] of the answer and does not look at
    that [+] again, so that it returns -1 and [doGet] returns 703 with a
    received length of 0. *)
Theorem doGet_misses_httpaction_after_plus :
  (exists d' : SIM800L,
     doGet 5000 1 (chars "http://example.org/") 10000 announces_after_plus
       = Done (703, d') /\
     c_str (internalBuffer d')
       = Some (chars "++HTTPACTION: 0,200,1234" ++ [CR; LF]) /\
     occurs_at (chars "++HTTPACTION: 0,200,1234" ++ [CR; LF]) GET_ACTION 1 /\
     strIndex (chars "++HTTPACTION: 0,200,1234" ++ [CR; LF]) GET_ACTION 0 = -1 /\
     dataSize d' = 0) /\
  (exists d' : SIM800L,
     doGet 5000 2 (chars "http://example.org/") 10000 announces_after_plus_2
       = Done (703, d') /\
     c_str (internalBuffer d')
       = Some ([CR; LF] ++ chars "++HTTPACTION: 0,200,1234" ++ [CR; LF]) /\
     occurs_at ([CR; LF] ++ chars "++HTTPACTION: 0,200,1234" ++ [CR; LF])
       GET_ACTION 3 /\
     dataSize d' = 0).
Proof.
  split; eexists; (split; [vm_compute; reflexivity|]);
    (split; [vm_compute; reflexivity|]).
  - split; [split; [lia | reflexivity]|].
    split; vm_compute; reflexivity.
  - split; [split; [lia | reflexivity] | vm_compute; reflexivity].
Qed.

(** ** Copying the payload *)

Lemma copyPayload_loop_stop (rx : list (option Z)) (i dataSize : Z)
    (buf : list Z) :
  (i <? dataSize) && (i <? len buf) = false ->
  copyPayload_loop rx i dataSize buf = Done (buf, rx).
Proof. intros H. destruct rx; simpl; now rewrite H. Qed.

Lemma copyPayload_loop_idle (rx : list (option Z)) (i dataSize : Z)
    (buf : list Z) :
  (i <? dataSize) && (i <? len buf) = true ->
  copyPayload_loop (None :: rx) i dataSize buf =
  copyPayload_loop rx i dataSize buf.
Proof. intros H. simpl. now rewrite H. Qed.

Lemma copyPayload_loop_byte (rx : list (option Z)) (c i dataSize : Z)
    (buf : list Z) :
  (i <? dataSize) && (i <? len buf) = true ->
  copyPayload_loop (Some c :: rx) i dataSize buf =
  match store buf i c with
  | None => Fault
  | Some buf1 =>
      copyPayload_loop rx
        (uint16 ((if isCRLF c then uint16 (i - 1) else i) + 1)) dataSize buf1
  end.
Proof. intros H. simpl. now rewrite H. Qed.

Lemma uint16_back (i : Z) : 0 <= i < 65536 -> uint16 (uint16 (i - 1) + 1) = i.
Proof.
  intros Hi. unfold uint16.
  rewrite Z.add_mod_idemp_l by lia.
  replace (i - 1 + 1) with i by lia. apply Z.mod_small. lia.
Qed.

(** The loop from index [i] on: the part [done] of the buffer is filled,
    [old] is about to be overwritten, [keep] stays. *)
Lemma copyPayload_loop_fills (front : list (option Z)) :
  forall (back : list (option Z)) (b dataSize : Z) (done old keep : list Z),
    isCRLF b = false ->
    len old = len (payload_of (delivered front)) + 1 ->
    len (done ++ old ++ keep) < 65536 ->
    len (done ++ old) = Z.min dataSize (len (done ++ old ++ keep)) ->
    copyPayload_loop (front ++ Some b :: back) (len done) dataSize
      (done ++ old ++ keep) =
    Done (done ++ payload_of (delivered front) ++ [b] ++ keep, back).
Proof.
  induction front as [|[c|] front IH];
    intros back b dataSize done old keep Hb Hold Hcap Hmin.
  - (* the last byte of the payload *)
    destruct old as [|x [|y old]]; try (simpl in Hold; len_lia).
    simpl app. rewrite copyPayload_loop_byte.
    2:{ apply andb_true_intro. split; apply Z.ltb_lt; len_lia. }
    rewrite store_middle, Hb.
    assert (Hn : uint16 (len done + 1) = len done + 1)
      by (unfold uint16; apply Z.mod_small; len_lia).
    rewrite Hn. apply copyPayload_loop_stop.
    apply andb_false_iff.
    destruct (Z.min_spec dataSize (len (done ++ [x] ++ keep))) as [[_ Hm]|[_ Hm]];
      [left | right]; apply Z.ltb_ge; len_lia.
  - (* a byte arrives *)
    assert (Hlt : (len done <? dataSize)
                  && (len done <? len (done ++ old ++ keep)) = true)
      by (apply andb_true_intro; split; apply Z.ltb_lt; len_lia).
    simpl app. rewrite copyPayload_loop_byte by assumption.
    destruct old as [|x old]; [len_lia|].
    simpl app. rewrite store_middle.
    change (delivered (Some c :: front)) with (c :: delivered front) in *.
    unfold payload_of in *. simpl filter in *.
    destruct (isCRLF c) eqn:Hc; simpl negb in *; cbv iota in *.
    + (* a CR or LF: stored, then overwritten by the next byte *)
      rewrite uint16_back by len_lia.
      apply (IH back b dataSize done (c :: old) keep); auto; len_lia.
    + (* a byte of the payload *)
      assert (Hn : uint16 (len done + 1) = len done + 1)
        by (unfold uint16; apply Z.mod_small; len_lia).
      rewrite Hn, <- (len_snoc done c).
      replace (done ++ c :: old ++ keep) with ((done ++ [c]) ++ old ++ keep)
        by (now rewrite <- app_assoc).
      rewrite (IH back b dataSize (done ++ [c]) old keep); auto.
      * now rewrite <- !app_assoc.
      * len_lia.
      * len_lia.
      * len_lia.
  - (* an idle poll *)
    simpl app. rewrite copyPayload_loop_idle.
    + apply IH; auto.
    + apply andb_true_intro. split; apply Z.ltb_lt; len_lia.
Qed.

(** C5 (as amended): the copy step stores the first
    [min(dataSize, recvBufferSize)] bytes of the stream that are neither CR
    nor LF at the start of the receive buffer, in order, leaves the rest of
    the buffer as it was, and stops right after the last byte it keeps (any
    CR or LF met on the way is stored at the current index and overwritten
    by the next byte); it takes nothing when that minimum is 0.  For the
    stream ['H','i',CR,'!',LF] and a declared length of 3 the buffer starts
    with "Hi!" and 4 raw bytes are consumed: the final LF stays in the
    stream. *)
Theorem copyPayload_filters_CRLF :
  (forall (front back : list (option Z)) (b : Z) (d : SIM800L),
     rx d = front ++ Some b :: back ->
     isCRLF b = false ->
     recvBufferSize d < 65536 ->
     len (payload_of (delivered front)) + 1 =
       Z.min (dataSize d) (recvBufferSize d) ->
     copyPayload d =
       Done (tt, set_rx back
                   (set_recvBuffer
                      (payload_of (delivered front) ++ [b]
                         ++ skipn (Z.to_nat (Z.min (dataSize d)
                                               (recvBufferSize d)))
                              (recvBuffer d)) d))) /\
  (forall d : SIM800L,
     Z.min (dataSize d) (recvBufferSize d) <= 0 ->
     copyPayload d = Done (tt, set_rx (rx d) (set_recvBuffer (recvBuffer d) d))) /\
  copyPayload hi_device =
    Done (tt, set_rx [Some LF]
                (set_recvBuffer (chars "Hi!" ++ repeat 0 5) hi_device)).
Proof.
  split; [|split].
  - intros front back b d Hrx Hb Hcap Hmin.
    unfold copyPayload, recvBufferSize in *. rewrite Hrx.
    set (n := Z.min (dataSize d) (len (recvBuffer d))) in *.
    assert (Hn : 0 <= n <= len (recvBuffer d))
      by (pose proof (len_nonneg (payload_of (delivered front))); subst n; lia).
    pose proof (copyPayload_loop_fills front back b (dataSize d) []
                  (firstn (Z.to_nat n) (recvBuffer d))
                  (skipn (Z.to_nat n) (recvBuffer d)) Hb) as H.
    simpl app in H. rewrite firstn_skipn in H.
    change (len []) with 0 in H. rewrite H; [reflexivity | | assumption |].
    + unfold len at 1. rewrite length_firstn. unfold len in *. lia.
    + unfold len at 1. rewrite length_firstn. unfold len in *. lia.
  - intros d Hmin. unfold copyPayload, recvBufferSize in *.
    rewrite copyPayload_loop_stop; [reflexivity|].
    apply andb_false_iff.
    destruct (Z.min_spec (dataSize d) (len (recvBuffer d))) as [[_ Hm]|[_ Hm]];
      [left | right]; apply Z.ltb_ge; lia.
  - reflexivity.
Qed.

Lemma copyPayload_filters_CRLF_witness :
  copyPayload hi_device =
    Done (tt, set_rx [Some LF]
                (set_recvBuffer (chars "Hi!" ++ repeat 0 5) hi_device)).
Proof.
  refine (proj1 copyPayload_filters_CRLF
            (map Some (chars "Hi" ++ [CR])) [Some LF] 33 hi_device _ _ _ _).
  - reflexivity.
  - reflexivity.
  - vm_compute. reflexivity.
  - reflexivity.
Defined.

(** C5, counterexample: on the stream ['H','i',CR,'!',LF] with declared
    length 3 the copy step consumes 4 raw bytes, not 5. *)
Lemma copyPayload_leaves_trailing_LF :
  exists d' : SIM800L,
    copyPayload hi_device = Done (tt, d') /\
    firstn 3 (recvBuffer d') = chars "Hi!" /\
    rx d' = [Some LF] /\
    raw_bytes_consumed hi_device d' = 4 /\
    raw_bytes_consumed hi_device d' <> 5.
Proof.
  eexists. split; [reflexivity|].
  split; [reflexivity|]. split; [reflexivity|].
  split; [reflexivity | discriminate].
Qed.

(** ** What the steps of the protocol leave alone *)

Section Frame.

Context {B : Type} (f : SIM800L -> B).

Lemma preserves_ret {A : Type} (a : A) : preserves f (ret a).
Proof. intros d x d' H. now inversion H. Qed.

Lemma preserves_bind {A C : Type} (m : M A) (k : A -> M C) :
  preserves f m -> (forall a, preserves f (k a)) -> preserves f (bind m k).
Proof.
  intros Hm Hk d c d' H.
  apply bind_inv in H. destruct H as (a & d1 & H1 & H2).
  rewrite (Hk a d1 c d' H2). exact (Hm d a d1 H1).
Qed.

Lemma preserves_get {A : Type} (g : SIM800L -> A) : preserves f (get g).
Proof. intros d x d' H. now inversion H. Qed.

Lemma preserves_or_fault {A : Type} (o : SIM800L -> option A) :
  preserves f (fun d => or_fault (o d) d).
Proof.
  intros d x d' H. unfold or_fault in H.
  destruct (o d); now inversion H.
Qed.

Lemma preserves_strcpy_P (size : Z) (s : list Z) :
  preserves f (strcpy_P size s).
Proof.
  intros d x d' H. unfold strcpy_P, or_fault in H.
  destruct (len s <? size); now inversion H.
Qed.

Lemma preserves_modify (g : SIM800L -> SIM800L) :
  (forall d, f (g d) = f d) -> preserves f (modify g).
Proof. intros Hg d x d' H. inversion H. apply Hg. Qed.

Lemma preserves_strIndex_internalBuffer (findStr : list Z) (startIdx : Z) :
  preserves f (strIndex_internalBuffer findStr startIdx).
Proof.
  apply preserves_bind; [apply preserves_or_fault | intros; apply preserves_ret].
Qed.

Lemma preserves_internalBuffer_at (i : Z) : preserves f (internalBuffer_at i).
Proof. apply (preserves_or_fault (fun d => load (internalBuffer d) i)). Qed.

Lemma preserves_parseHttpRC (idxBase : Z) : preserves f (parseHttpRC idxBase).
Proof.
  unfold parseHttpRC.
  repeat (apply preserves_bind; [apply preserves_internalBuffer_at | intro]).
  apply preserves_ret.
Qed.

(** Observations that depend neither on the scratch buffer nor on the
    oracles survive every read. *)
Hypothesis f_internalBuffer : forall b d, f (set_internalBuffer b d) = f d.
Hypothesis f_rx : forall r d, f (set_rx r d) = f d.
Hypothesis f_clk : forall c d, f (set_clk c d) = f d.

Lemma preserves_millis : preserves f millis.
Proof.
  intros d t d' H. unfold millis in H.
  destruct (clk d); inversion H. apply f_clk.
Qed.

Lemma preserves_initInternalBuffer : preserves f initInternalBuffer.
Proof. apply preserves_modify. intros d. apply f_internalBuffer. Qed.

Lemma preserves_readToForget (timeout : Z) : preserves f (readToForget timeout).
Proof.
  unfold readToForget.
  apply preserves_bind; [apply preserves_initInternalBuffer | intros _].
  apply preserves_bind; [apply preserves_millis | intros t].
  intros d x d' H.
  destruct (readToForget_loop (rx d) (clk d) t timeout (internalBuffer d) 0)
    as [[[buf r] c]| |]; inversion H.
  now rewrite f_clk, f_rx, f_internalBuffer.
Qed.

Lemma preserves_readResponse (timeout crlfToWait : Z) :
  preserves f (readResponse timeout crlfToWait).
Proof.
  unfold readResponse.
  apply preserves_bind; [apply preserves_initInternalBuffer | intros _].
  apply preserves_bind; [apply preserves_millis | intros t].
  intros d x d' H.
  destruct (readResponse_loop (rx d) (clk d) t timeout crlfToWait
              (internalBuffer d) 0 false 0)
    as [[[[ok buf] r] c]| |]; inversion H.
  now rewrite f_clk, f_rx, f_internalBuffer.
Qed.

Lemma preserves_readResponseCheckAnswer_P (timeout : Z)
    (expectedAnswer : list Z) (crlfToWait : Z) :
  preserves f (readResponseCheckAnswer_P timeout expectedAnswer crlfToWait).
Proof.
  unfold readResponseCheckAnswer_P.
  apply preserves_bind; [apply preserves_readResponse | intros [|]].
  - apply preserves_bind; [apply preserves_strcpy_P | intros s].
    apply preserves_bind; [apply preserves_strIndex_internalBuffer | intros i].
    destruct (i >? 0); apply preserves_ret.
  - apply preserves_ret.
Qed.

(** Observations that do not depend on what was written either survive
    the sending of a command. *)
Hypothesis f_tx : forall t d, f (set_tx t d) = f d.

Lemma preserves_stream_write (s : list Z) : preserves f (stream_write s).
Proof. apply preserves_modify. intros d. apply f_tx. Qed.

Lemma preserves_sendCommand (command : list Z) :
  preserves f (sendCommand command).
Proof.
  unfold sendCommand.
  apply preserves_bind; [apply preserves_readToForget | intros _].
  apply preserves_bind; [apply preserves_stream_write | intros _].
  apply preserves_stream_write.
Qed.

Lemma preserves_sendCommand2 (command parameter : list Z) :
  preserves f (sendCommand2 command parameter).
Proof.
  unfold sendCommand2.
  apply preserves_bind; [apply preserves_readToForget | intros _].
  repeat (apply preserves_bind; [apply preserves_stream_write | intros _]).
  apply preserves_stream_write.
Qed.

Lemma preserves_sendCommand_P (command : list Z) :
  preserves f (sendCommand_P command).
Proof.
  apply preserves_bind; [apply preserves_strcpy_P | intros s].
  apply preserves_sendCommand.
Qed.

Lemma preserves_sendCommand_P2 (command parameter : list Z) :
  preserves f (sendCommand_P2 command parameter).
Proof.
  apply preserves_bind; [apply preserves_strcpy_P | intros s].
  apply preserves_sendCommand2.
Qed.

Variables DEFAULT_TIMEOUT DEFAULT_CRLF : Z.

(** One step of a session: a command, then the check of its answer. *)
Ltac preserves_step :=
  first
    [ apply preserves_ret
    | apply preserves_sendCommand_P
    | apply preserves_sendCommand_P2
    | apply preserves_sendCommand
    | apply preserves_readResponseCheckAnswer_P
    | apply preserves_readResponse
    | apply preserves_readToForget
    | apply preserves_stream_write
    | apply preserves_strIndex_internalBuffer
    | apply preserves_internalBuffer_at
    | apply preserves_bind; [|intro]
    | match goal with
      | |- preserves _ (if ?b then _ else _) => destruct b
      end ].

Lemma preserves_initiateHTTP (url : list Z) :
  preserves f (initiateHTTP DEFAULT_TIMEOUT DEFAULT_CRLF url).
Proof.
  unfold initiateHTTP.
  repeat preserves_step.
Qed.

Lemma preserves_terminateHTTP :
  preserves f (terminateHTTP DEFAULT_TIMEOUT DEFAULT_CRLF).
Proof.
  unfold terminateHTTP.
  repeat preserves_step.
Qed.

Lemma preserves_isReady : preserves f (isReady DEFAULT_TIMEOUT DEFAULT_CRLF).
Proof. unfold isReady. repeat preserves_step. Qed.

Lemma preserves_getPowerMode :
  preserves f (getPowerMode DEFAULT_TIMEOUT DEFAULT_CRLF).
Proof. unfold getPowerMode. repeat preserves_step. Qed.

Lemma preserves_getRegistrationStatus :
  preserves f (getRegistrationStatus DEFAULT_TIMEOUT DEFAULT_CRLF).
Proof. unfold getRegistrationStatus. repeat preserves_step. Qed.

Lemma preserves_getSignal : preserves f (getSignal DEFAULT_TIMEOUT DEFAULT_CRLF).
Proof. unfold getSignal. repeat preserves_step. Qed.

Lemma preserves_setPowerMode (powerMode : PowerMode) :
  preserves f (setPowerMode DEFAULT_TIMEOUT DEFAULT_CRLF powerMode).
Proof.
  unfold setPowerMode.
  repeat (preserves_step || apply preserves_getPowerMode).
Qed.

Lemma preserves_setupGPRS (apn : list Z) :
  preserves f (setupGPRS DEFAULT_CRLF apn).
Proof. unfold setupGPRS. repeat preserves_step. Qed.

Lemma preserves_connectGPRS : preserves f (connectGPRS DEFAULT_CRLF).
Proof. unfold connectGPRS. repeat preserves_step. Qed.

Lemma preserves_disconnectGPRS : preserves f (disconnectGPRS DEFAULT_CRLF).
Proof. unfold disconnectGPRS. repeat preserves_step. Qed.

Lemma terminateHTTP_code (d d' : SIM800L) (rc : Z) :
  terminateHTTP DEFAULT_TIMEOUT DEFAULT_CRLF d = Done (rc, d') ->
  rc = 0 \/ rc = 706.
Proof.
  unfold terminateHTTP. intros H.
  apply bind_inv in H. destruct H as (u & d1 & _ & H).
  apply bind_inv in H. destruct H as ([|] & d2 & _ & H);
    inversion H; auto.
Qed.

Lemma readPayload_code (idxBase : Z) (d d' : SIM800L) (rc : Z) :
  readPayload DEFAULT_TIMEOUT DEFAULT_CRLF idxBase d = Done (Some rc, d') ->
  rc = 705.
Proof.
  unfold readPayload. intros H.
  apply bind_inv in H. destruct H as (u1 & d1 & _ & H).
  apply bind_inv in H. destruct H as (u2 & d2 & _ & H).
  apply bind_inv in H. destruct H as ([|] & d3 & _ & H);
    [|now inversion H]. simpl negb in H. cbv iota in H.
  apply bind_inv in H. destruct H as (u4 & d4 & _ & H).
  apply bind_inv in H. destruct H as (u5 & d5 & _ & H).
  apply bind_inv in H. destruct H as ([|] & d6 & _ & H); now inversion H.
Qed.

(** Once the action is accepted, a call that ends with a code other than
    200, 705 and 706 never entered the block that reads the payload. *)
Lemma awaitAnswer_keeps (action : list Z) (serverReadTimeoutMs : Z)
    (d d' : SIM800L) (rc : Z) :
  awaitAnswer DEFAULT_TIMEOUT DEFAULT_CRLF action serverReadTimeoutMs d
    = Done (rc, d') ->
  rc <> 200 -> rc <> 705 -> rc <> 706 ->
  f d' = f d.
Proof.
  unfold awaitAnswer. intros H H200 H705 H706.
  apply bind_inv in H. destruct H as (ok & d1 & H1 & H).
  apply preserves_readResponse in H1. rewrite <- H1. clear H1 d.
  destruct ok; simpl negb in H; cbv iota in H; [|now inversion H].
  apply bind_inv in H. destruct H as (idxBase & d2 & H2 & H).
  apply preserves_strIndex_internalBuffer in H2. rewrite <- H2. clear H2 d1.
  destruct (idxBase <? 0); [now inversion H|].
  apply bind_inv in H. destruct H as (httpRC & d3 & H3 & H).
  apply preserves_parseHttpRC in H3. rewrite <- H3. clear H3 d2.
  apply bind_inv in H. destruct H as (early & d4 & H4 & H).
  destruct (httpRC =? 200) eqn:Hrc.
  - apply Z.eqb_eq in Hrc. destruct early as [r|].
    + apply readPayload_code in H4. inversion H. congruence.
    + apply bind_inv in H. destruct H as (termRC & d5 & H5 & H).
      apply terminateHTTP_code in H5.
      destruct (termRC >? 0) eqn:Ht; inversion H; subst; lia.
  - inversion H4; subst early d4.
    apply bind_inv in H. destruct H as (termRC & d5 & H5 & H).
    apply preserves_terminateHTTP in H5. rewrite <- H5.
    destruct (termRC >? 0); now inversion H.
Qed.

End Frame.

(** ** The receive buffer and the received length after a failed request *)

Lemma cleanupReceiveBuffer_Done (d : SIM800L) :
  cleanupReceiveBuffer d =
  Done (tt, set_dataSize 0 (set_recvBuffer (repeat 0 (length (recvBuffer d))) d)).
Proof. reflexivity. Qed.

Section FailedRequest.

Context {B : Type} (f : SIM800L -> B).
Hypothesis f_internalBuffer : forall b d, f (set_internalBuffer b d) = f d.
Hypothesis f_rx : forall r d, f (set_rx r d) = f d.
Hypothesis f_clk : forall c d, f (set_clk c d) = f d.
Hypothesis f_tx : forall t d, f (set_tx t d) = f d.
Variables DEFAULT_TIMEOUT DEFAULT_CRLF : Z.

Lemma doGet_keeps_cleaned (url : list Z) (serverReadTimeoutMs : Z)
    (d d' : SIM800L) (rc : Z) :
  doGet DEFAULT_TIMEOUT DEFAULT_CRLF url serverReadTimeoutMs d = Done (rc, d') ->
  rc <> 200 -> rc <> 705 -> rc <> 706 ->
  f d' = f (cleaned d).
Proof.
  unfold doGet. intros H H200 H705 H706.
  rewrite (bind_Done _ _ d tt (cleaned d) (cleanupReceiveBuffer_Done d)) in H.
  apply bind_inv in H. destruct H as (initRC & d1 & H1 & H).
  apply (preserves_initiateHTTP f) in H1; auto. rewrite <- H1.
  destruct (initRC >? 0); [now inversion H|].
  apply bind_inv in H. destruct H as (u & d2 & H2 & H).
  apply (preserves_sendCommand_P f) in H2; auto. rewrite <- H2.
  apply bind_inv in H. destruct H as (ok & d3 & H3 & H).
  apply (preserves_readResponseCheckAnswer_P f) in H3; auto. rewrite <- H3.
  destruct ok; simpl negb in H; cbv iota in H; [|now inversion H].
  now apply (awaitAnswer_keeps f) in H.
Qed.

Lemma doPost_keeps_cleaned (url contentType payload : list Z)
    (clientWriteTimeoutMs serverReadTimeoutMs : Z) (d d' : SIM800L) (rc : Z) :
  doPost DEFAULT_TIMEOUT DEFAULT_CRLF url contentType payload
    clientWriteTimeoutMs serverReadTimeoutMs d = Done (rc, d') ->
  rc <> 200 -> rc <> 705 -> rc <> 706 ->
  f d' = f (cleaned d).
Proof.
  unfold doPost. intros H H200 H705 H706.
  rewrite (bind_Done _ _ d tt (cleaned d) (cleanupReceiveBuffer_Done d)) in H.
  apply bind_inv in H. destruct H as (initRC & d1 & H1 & H).
  apply (preserves_initiateHTTP f) in H1; auto. rewrite <- H1.
  destruct (initRC >? 0); [now inversion H|].
  apply bind_inv in H. destruct H as (u2 & d2 & H2 & H).
  apply (preserves_sendCommand_P2 f) in H2; auto. rewrite <- H2.
  apply bind_inv in H. destruct H as (ok3 & d3 & H3 & H).
  apply (preserves_readResponseCheckAnswer_P f) in H3; auto. rewrite <- H3.
  destruct ok3; simpl negb in H; cbv iota in H; [|now inversion H].
  apply bind_inv in H. destruct H as (u4 & d4 & H4 & H).
  apply (preserves_sendCommand f) in H4; auto. rewrite <- H4.
  apply bind_inv in H. destruct H as (ok5 & d5 & H5 & H).
  apply (preserves_readResponseCheckAnswer_P f) in H5; auto. rewrite <- H5.
  destruct ok5; simpl negb in H; cbv iota in H; [|now inversion H].
  apply bind_inv in H. destruct H as (u6 & d6 & H6 & H).
  apply (preserves_readToForget f) in H6; auto. rewrite <- H6.
  apply bind_inv in H. destruct H as (u7 & d7 & H7 & H).
  apply (preserves_stream_write f) in H7; auto. rewrite <- H7.
  apply bind_inv in H. destruct H as (u8 & d8 & H8 & H).
  apply (preserves_sendCommand_P f) in H8; auto. rewrite <- H8.
  apply bind_inv in H. destruct H as (ok9 & d9 & H9 & H).
  apply (preserves_readResponseCheckAnswer_P f) in H9; auto. rewrite <- H9.
  destruct ok9; simpl negb in H; cbv iota in H; [|now inversion H].
  now apply (awaitAnswer_keeps f) in H.
Qed.

End FailedRequest.

(** C6: a GET that reads status 200 and a declared length of 5, and then
    fails on the command HTTPREAD, returns the code 705 and leaves 5 as the
    received length: [dataSize] is set before the data is read and is not
    reset on the way out. *)
Theorem doGet_705_keeps_declared_length :
  (exists d' : SIM800L,
     doGet 5000 1 (chars "http://example.org/") 10000 refuses_HTTPREAD
       = Done (705, d') /\
     getDataSizeReceived d' = Done (5, d') /\
     recvBuffer d' = repeat 0 8) /\
  (exists d' : SIM800L,
     doGet 5000 2 (chars "http://example.org/") 10000 refuses_HTTPREAD_2
       = Done (705, d') /\
     getDataSizeReceived d' = Done (5, d') /\
     recvBuffer d' = repeat 0 8).
Proof.
  split; eexists; (split; [vm_compute; reflexivity|]);
    split; vm_compute; reflexivity.
Qed.

(** The getter returns a [uint8_t]: a length of 300 reads as 44. *)
Example getDataSizeReceived_truncates :
  getDataSizeReceived (set_dataSize 300 hi_device)
  = Done (44, set_dataSize 300 hi_device).
Proof. reflexivity. Qed.

(** The part of C6 that holds: after a call that ends with a code other
    than 200, 705 and 706 the received length is 0. *)
Lemma failed_request_dataSize_zero (DEFAULT_TIMEOUT DEFAULT_CRLF : Z)
    (d d' : SIM800L) (rc : Z) :
  rc <> 200 -> rc <> 705 -> rc <> 706 ->
  (forall url serverReadTimeoutMs,
     doGet DEFAULT_TIMEOUT DEFAULT_CRLF url serverReadTimeoutMs d
       = Done (rc, d') ->
     getDataSizeReceived d' = Done (0, d')) /\
  (forall url contentType payload clientWriteTimeoutMs serverReadTimeoutMs,
     doPost DEFAULT_TIMEOUT DEFAULT_CRLF url contentType payload
       clientWriteTimeoutMs serverReadTimeoutMs d = Done (rc, d') ->
     getDataSizeReceived d' = Done (0, d')).
Proof.
  intros H200 H705 H706. unfold getDataSizeReceived, bind, get, ret.
  split; intros.
  - erewrite (doGet_keeps_cleaned dataSize); eauto.
  - erewrite (doPost_keeps_cleaned dataSize); eauto.
Qed.

(** C7, counterexample: a GET that fails with 701 (the module does not
    answer) wipes the payload "Hi" fetched before. *)
Lemma failed_doGet_erases_payload :
  exists d' : SIM800L,
    doGet 5000 1 (chars "http://example.org/") 10000 holding_Hi
      = Done (701, d') /\
    recvBuffer holding_Hi = chars "Hi" ++ repeat 0 6 /\
    recvBuffer d' = repeat 0 8 /\
    recvBuffer d' <> recvBuffer holding_Hi.
Proof.
  eexists. split; [vm_compute; reflexivity|].
  split; [reflexivity|]. split; [reflexivity|].
  vm_compute. discriminate.
Qed.

(** C7 (as amended): the receive buffer is not touched by the status
    functions and the GPRS functions; [doGet] and [doPost] zero it before
    anything else, and a call of theirs that ends with a code other than
    200, 705 and 706 (so with 701, 702, 703, 707, 408 or another HTTP
    status) leaves it all zero. *)
Theorem failed_request_leaves_recvBuffer_zeroed
    (DEFAULT_TIMEOUT DEFAULT_CRLF : Z) (d d' : SIM800L) (rc : Z) :
  rc <> 200 -> rc <> 705 -> rc <> 706 ->
  (forall url serverReadTimeoutMs,
     doGet DEFAULT_TIMEOUT DEFAULT_CRLF url serverReadTimeoutMs d
       = Done (rc, d') ->
     recvBuffer d' = repeat 0 (length (recvBuffer d))) /\
  (forall url contentType payload clientWriteTimeoutMs serverReadTimeoutMs,
     doPost DEFAULT_TIMEOUT DEFAULT_CRLF url contentType payload
       clientWriteTimeoutMs serverReadTimeoutMs d = Done (rc, d') ->
     recvBuffer d' = repeat 0 (length (recvBuffer d))) /\
  preserves recvBuffer (isReady DEFAULT_TIMEOUT DEFAULT_CRLF) /\
  preserves recvBuffer (getSignal DEFAULT_TIMEOUT DEFAULT_CRLF) /\
  preserves recvBuffer (getPowerMode DEFAULT_TIMEOUT DEFAULT_CRLF) /\
  preserves recvBuffer (getRegistrationStatus DEFAULT_TIMEOUT DEFAULT_CRLF) /\
  (forall powerMode,
     preserves recvBuffer (setPowerMode DEFAULT_TIMEOUT DEFAULT_CRLF powerMode)) /\
  (forall apn, preserves recvBuffer (setupGPRS DEFAULT_CRLF apn)) /\
  preserves recvBuffer (connectGPRS DEFAULT_CRLF) /\
  preserves recvBuffer (disconnectGPRS DEFAULT_CRLF).
Proof.
  intros H200 H705 H706.
  split; [|split].
  - intros url t H.
    erewrite (doGet_keeps_cleaned recvBuffer); eauto. reflexivity.
  - intros url ct p cw t H.
    erewrite (doPost_keeps_cleaned recvBuffer); eauto. reflexivity.
  - repeat split; intros.
    + now apply preserves_isReady.
    + now apply preserves_getSignal.
    + now apply preserves_getPowerMode.
    + now apply preserves_getRegistrationStatus.
    + now apply preserves_setPowerMode.
    + now apply preserves_setupGPRS.
    + now apply preserves_connectGPRS.
    + now apply preserves_disconnectGPRS.
Qed.

Lemma failed_request_leaves_recvBuffer_zeroed_witness :
  exists d' : SIM800L,
    doGet 5000 1 (chars "http://example.org/") 10000 holding_Hi
      = Done (701, d') /\
    recvBuffer d' = repeat 0 (length (recvBuffer holding_Hi)).
Proof.
  eexists. split; [vm_compute; reflexivity|].
  refine (proj1 (failed_request_leaves_recvBuffer_zeroed 5000 1 holding_Hi _
                   701 _ _ _) (chars "http://example.org/") 10000 _).
  - discriminate.
  - discriminate.
  - discriminate.
  - vm_compute. reflexivity.
Defined.

(** ** A whole request *)

(** With a default [crlfToWait] of 2 and a module in verbose mode, a GET of
    the 5 bytes HELLO returns 200, with the data and its length. *)
Example doGet_HELLO :
  exists d' : SIM800L,
    doGet 5000 2 (chars "http://example.org/") 10000 serves_HELLO
      = Done (200, d') /\
    getDataReceived d' = Done (chars "HELLO" ++ [0; 0; 0], d') /\
    getDataSizeReceived d' = Done (5, d') /\
    tx d' = chars "AT+HTTPINIT" ++ [CR; LF]
              ++ chars "AT+HTTPPARA=" ++ [QUOTE] ++ chars "CID" ++ [QUOTE]
              ++ chars ",1" ++ [CR; LF]
              ++ chars "AT+HTTPPARA=" ++ [QUOTE] ++ chars "URL" ++ [QUOTE]
              ++ chars "," ++ [QUOTE] ++ chars "http://example.org/"
              ++ [QUOTE] ++ [CR; LF]
              ++ chars "AT+HTTPSSL=0" ++ [CR; LF]
              ++ chars "AT+HTTPACTION=0" ++ [CR; LF]
              ++ chars "AT+HTTPREAD" ++ [CR; LF]
              ++ chars "AT+HTTPTERM" ++ [CR; LF].
Proof.
  eexists. split; [vm_compute; reflexivity|].
  repeat split; vm_compute; reflexivity.
Qed.

(** ** What is written to the module *)

Lemma sendCommand_P_tx (command : list Z) (d d' : SIM800L) (u : unit) :
  sendCommand_P command d = Done (u, d') ->
  tx d' = tx d ++ command ++ [CR; LF].
Proof.
  unfold sendCommand_P, sendCommand. intros H.
  apply bind_inv in H. destruct H as (s & d1 & H1 & H).
  unfold strcpy_P, or_fault in H1.
  destruct (len command <? 32); inversion H1; subst s d1. clear H1.
  apply bind_inv in H. destruct H as (u2 & d2 & H2 & H).
  apply (preserves_readToForget tx) in H2; try reflexivity.
  apply bind_inv in H. destruct H as (u3 & d3 & H3 & H).
  inversion H3; subst d3. inversion H; subst d'.
  simpl. rewrite H2. now rewrite <- app_assoc.
Qed.

Section Queries.

Variables DEFAULT_TIMEOUT DEFAULT_CRLF : Z.

(** A query of the power mode writes its command and nothing else. *)
Lemma getPowerMode_tx (d d' : SIM800L) (mode : PowerMode) :
  getPowerMode DEFAULT_TIMEOUT DEFAULT_CRLF d = Done (mode, d') ->
  tx d' = tx d ++ AT_CMD_CFUN_TEST ++ [CR; LF].
Proof.
  unfold getPowerMode. intros H.
  apply bind_inv in H. destruct H as (u & d1 & H1 & H).
  apply sendCommand_P_tx in H1. rewrite <- H1.
  revert H. generalize d1 mode d'.
  change (preserves tx
            (ok <- readResponse DEFAULT_TIMEOUT DEFAULT_CRLF ;;
             if ok then
               errIdx <- strIndex_internalBuffer (chars "ERROR") 0 ;;
               if errIdx >? 0 then ret POW_ERROR else
               idx <- strIndex_internalBuffer (chars "+CFUN: ") 0 ;;
               value <- internalBuffer_at (idx + 7) ;;
               if value =? 48 then ret MINIMUM
               else if value =? 49 then ret NORMAL
               else if value =? 52 then ret SLEEP
               else ret POW_UNKNOWN
             else ret POW_ERROR)).
  apply preserves_bind;
    [apply preserves_readResponse; reflexivity | intros [|]].
  - apply preserves_bind; [apply preserves_strIndex_internalBuffer | intros e].
    destruct (e >? 0); [apply preserves_ret|].
    apply preserves_bind; [apply preserves_strIndex_internalBuffer | intros i].
    apply preserves_bind; [apply preserves_internalBuffer_at | intros v].
    destruct (v =? 48); [apply preserves_ret|].
    destruct (v =? 49); [apply preserves_ret|].
    destruct (v =? 52); apply preserves_ret.
  - apply preserves_ret.
Qed.

(** C8 (as amended): [setPowerMode] returns false, and writes nothing, when
    the requested mode is ERROR or UNKNOWN.  Otherwise it queries the mode,
    which writes the command AT+CFUN? and no other; then
    - it returns false when the mode read is ERROR or UNKNOWN,
    - it returns true when the mode read is the requested one,
    - it returns false when the mode read is SLEEP or MINIMUM and the
      requested mode is another one than NORMAL,
    and in these three cases nothing more is written.  In all other cases it
    writes the command of the requested mode, drains the answer without
    looking at it, queries the mode again, and returns true exactly when the
    mode read this time is the requested one. *)
Theorem setPowerMode_transitions (powerMode : PowerMode) (d : SIM800L) :
  (undefinedMode powerMode = true ->
   setPowerMode DEFAULT_TIMEOUT DEFAULT_CRLF powerMode d = Done (false, d)) /\
  (undefinedMode powerMode = false ->
   forall (current : PowerMode) (d1 : SIM800L),
     getPowerMode DEFAULT_TIMEOUT DEFAULT_CRLF d = Done (current, d1) ->
     tx d1 = tx d ++ AT_CMD_CFUN_TEST ++ [CR; LF] /\
     (undefinedMode current = true ->
      setPowerMode DEFAULT_TIMEOUT DEFAULT_CRLF powerMode d
        = Done (false, d1)) /\
     (current = powerMode ->
      setPowerMode DEFAULT_TIMEOUT DEFAULT_CRLF powerMode d
        = Done (true, d1)) /\
     (current = SLEEP \/ current = MINIMUM ->
      powerMode <> NORMAL -> current <> powerMode ->
      setPowerMode DEFAULT_TIMEOUT DEFAULT_CRLF powerMode d
        = Done (false, d1)) /\
     (undefinedMode current = false -> current <> powerMode ->
      current = NORMAL \/ powerMode = NORMAL ->
      forall (d2 d3 d4 : SIM800L) (final : PowerMode),
        sendCommand_P (powerModeCommand powerMode) d1 = Done (tt, d2) ->
        readToForget 10000 d2 = Done (tt, d3) ->
        getPowerMode DEFAULT_TIMEOUT DEFAULT_CRLF d3 = Done (final, d4) ->
        setPowerMode DEFAULT_TIMEOUT DEFAULT_CRLF powerMode d
          = Done (PowerMode_eqb final powerMode, d4) /\
        tx d4 = tx d ++ (AT_CMD_CFUN_TEST ++ [CR; LF])
                  ++ (powerModeCommand powerMode ++ [CR; LF])
                  ++ (AT_CMD_CFUN_TEST ++ [CR; LF]))).
Proof.
  split.
  - intros Hreq. unfold setPowerMode. now rewrite Hreq.
  - intros Hreq current d1 Hget.
    split; [exact (getPowerMode_tx d d1 current Hget)|].
    unfold setPowerMode. rewrite Hreq.
    rewrite (bind_Done _ _ d current d1 Hget).
    split; [|split; [|split]].
    + intros Hcur. now rewrite Hcur.
    + intros ->. rewrite Hreq. now destruct powerMode.
    + intros Hlow Hnormal Hneq.
      destruct Hlow; subst current; destruct powerMode;
        try reflexivity; try discriminate; congruence.
    + intros Hcur Hneq Hnormal d2 d3 d4 final Hsend Hdrain Hget'.
      rewrite Hcur.
      replace (PowerMode_eqb current powerMode) with false
        by (destruct current, powerMode; try reflexivity; congruence).
      replace ((PowerMode_eqb current SLEEP || PowerMode_eqb current MINIMUM)
               && negb (PowerMode_eqb powerMode NORMAL)) with false
        by (destruct current, powerMode; simpl in *; try reflexivity;
            try discriminate; destruct Hnormal; congruence).
      rewrite (bind_Done _ _ d1 tt d2 Hsend).
      rewrite (bind_Done _ _ d2 tt d3 Hdrain).
      rewrite (bind_Done _ _ d3 final d4 Hget').
      split; [reflexivity|].
      rewrite (getPowerMode_tx d3 d4 final Hget').
      apply (preserves_readToForget tx) in Hdrain; try reflexivity.
      rewrite Hdrain, (sendCommand_P_tx _ _ _ _ Hsend).
      rewrite (getPowerMode_tx d d1 current Hget).
      now rewrite <- !app_assoc.
Qed.

End Queries.

(** ** The power mode *)

Lemma setPowerMode_transitions_witness :
  (exists d1,
     setPowerMode 5000 1 MINIMUM asleep = Done (false, d1) /\
     tx d1 = chars "AT+CFUN?" ++ [CR; LF]) /\
  (exists d4,
     setPowerMode 5000 1 NORMAL asleep = Done (true, d4) /\
     tx d4 = chars "AT+CFUN?" ++ [CR; LF] ++ chars "AT+CFUN=1" ++ [CR; LF]
               ++ chars "AT+CFUN?" ++ [CR; LF]).
Proof.
  split.
  - eexists.
    destruct (proj2 (setPowerMode_transitions 5000 1 MINIMUM asleep)
                eq_refl SLEEP _ ltac:(vm_compute; reflexivity))
      as (Htx & _ & _ & Hlow & _).
    split; [apply Hlow; [now left | discriminate | discriminate]|].
    exact Htx.
  - eexists.
    destruct (proj2 (setPowerMode_transitions 5000 1 NORMAL asleep)
                eq_refl SLEEP _ ltac:(vm_compute; reflexivity))
      as (_ & _ & _ & _ & Hgo).
    refine (Hgo eq_refl _ _ _ _ _ NORMAL _ _ _).
    + discriminate.
    + now right.
    + vm_compute. reflexivity.
    + vm_compute. reflexivity.
    + vm_compute. reflexivity.
Defined.

(** C8, counterexample: when the mode read is ERROR, [setPowerMode] returns
    false after it has written a command, the query AT+CFUN?. *)
Lemma setPowerMode_writes_query_before_rejecting :
  (exists d' : SIM800L,
     setPowerMode 5000 1 NORMAL answers_ERROR = Done (false, d') /\
     getPowerMode 5000 1 answers_ERROR = Done (POW_ERROR, d') /\
     tx answers_ERROR = [] /\
     tx d' = chars "AT+CFUN?" ++ [CR; LF]) /\
  (exists d' : SIM800L,
     setPowerMode 5000 2 NORMAL answers_ERROR_2 = Done (false, d') /\
     getPowerMode 5000 2 answers_ERROR_2 = Done (POW_ERROR, d') /\
     tx answers_ERROR_2 = [] /\
     tx d' = chars "AT+CFUN?" ++ [CR; LF]).
Proof.
  split; eexists; (split; [vm_compute; reflexivity|]);
    (split; [vm_compute; reflexivity|]); split; reflexivity.
Qed.

(** ** The status queries *)

(** C9: an answer that starts with the token ERROR is read with success,
    the matcher finds the token at index 0, and the queries do not return
    their ERROR enumerant: the test [errIdx > 0] takes index 0 for "not
    found".  They go on to read a value where there is none, and return
    UNKNOWN. *)
Theorem status_query_misses_ERROR_at_index_0 :
  (exists d' : SIM800L,
     getPowerMode 5000 1 starts_with_ERROR = Done (POW_UNKNOWN, d') /\
     c_str (internalBuffer d') = Some (chars "ERROR" ++ [CR; LF]) /\
     strIndex (chars "ERROR" ++ [CR; LF]) (chars "ERROR") 0 = 0) /\
  (exists d' : SIM800L,
     getRegistrationStatus 5000 1 starts_with_ERROR = Done (NET_UNKNOWN, d') /\
     c_str (internalBuffer d') = Some (chars "ERROR" ++ [CR; LF])) /\
  (exists d' : SIM800L,
     getPowerMode 5000 2 starts_with_ERROR_2 = Done (POW_UNKNOWN, d') /\
     c_str (internalBuffer d') = Some (chars "ERROR" ++ [CR; LF; CR; LF])) /\
  (exists d' : SIM800L,
     getRegistrationStatus 5000 2 starts_with_ERROR_2
       = Done (NET_UNKNOWN, d') /\
     c_str (internalBuffer d') = Some (chars "ERROR" ++ [CR; LF; CR; LF])).
Proof.
  repeat split; eexists;
    (split; [vm_compute; reflexivity | repeat split; vm_compute; reflexivity]).
Qed.

(** The answers with ERROR after the start of the line are recognised. *)
Example getPowerMode_ERROR_after_CRLF :
  exists d' : SIM800L,
    getPowerMode 5000 2
      (device 32 8 (exchange 0 ([CR; LF] ++ chars "ERROR" ++ [CR; LF])))
    = Done (POW_ERROR, d').
Proof. eexists. vm_compute. reflexivity. Qed.

(** ** The signal quality *)

(** C10: when the answer read holds the echo AT+CSQ at index 0 and no
    comma, the matcher returns -1 for the comma and [getSignal] reads
    [internalBuffer[-2]] and [internalBuffer[-3]], outside the buffer. *)
Theorem getSignal_reads_before_the_buffer :
  (getSignal 5000 1 echoes_CSQ = Fault /\
   exists d1 : SIM800L,
     (sendCommand_P AT_CMD_CSQ ;; readResponse 5000 1) echoes_CSQ
       = Done (true, d1) /\
     c_str (internalBuffer d1) = Some (chars "AT+CSQ" ++ [CR; LF]) /\
     strIndex (chars "AT+CSQ" ++ [CR; LF]) (chars "AT+CSQ") 0 = 0 /\
     strIndex (chars "AT+CSQ" ++ [CR; LF]) (chars ",") 0 = -1 /\
     load (internalBuffer d1) (-1 - 1) = None /\
     load (internalBuffer d1) (-1 - 2) = None) /\
  (getSignal 5000 2 echoes_CSQ_2 = Fault /\
   exists d1 : SIM800L,
     (sendCommand_P AT_CMD_CSQ ;; readResponse 5000 2) echoes_CSQ_2
       = Done (true, d1) /\
     c_str (internalBuffer d1)
       = Some (chars "AT+CSQ" ++ [CR; CR; LF] ++ chars "ERROR" ++ [CR; LF]) /\
     strIndex (chars "AT+CSQ" ++ [CR; CR; LF] ++ chars "ERROR" ++ [CR; LF])
       (chars ",") 0 = -1).
Proof.
  split; (split; [vm_compute; reflexivity|]); eexists;
    (split; [vm_compute; reflexivity | repeat split; vm_compute; reflexivity]).
Qed.

Example getSignal_answer :
  exists d' : SIM800L,
    getSignal 5000 2
      (device 32 8
         (exchange 0 (chars "AT+CSQ" ++ [CR; CR; LF] ++ chars "+CSQ: 17,0"
                        ++ [CR; LF])))
    = Done (17, d').
Proof. eexists. vm_compute. reflexivity. Qed.

(** When the matcher finds the echo AT+CSQ at index 0 and a comma, the two
    reads of [getSignal] before the comma are inside the buffer. *)
Lemma getSignal_reads_inside_buffer (buf s : list Z) :
  c_str buf = Some s ->
  strIndex s (chars "AT+CSQ") 0 = 0 ->
  0 <= strIndex s (chars ",") 0 ->
  exists c1 c2 : Z,
    load buf (strIndex s (chars ",") 0 - 1) = Some c1 /\
    load buf (strIndex s (chars ",") 0 - 2) = Some c2.
Proof.
  intros Hs Hecho Hcomma.
  destruct (strIndex_sound s (chars "AT+CSQ") 0) as [_ [_ Hat]];
    [discriminate | lia | left; reflexivity | lia |].
  rewrite Hecho in Hat. simpl in Hat.
  destruct (strIndex_sound s (chars ",") 0) as [_ [_ Hc]];
    [discriminate | lia | left; reflexivity | lia |].
  set (j := strIndex s (chars ",") 0) in *.
  change (length (chars ",")) with 1%nat in Hc.
  assert (Hlt : (Z.to_nat j < length s)%nat).
  { apply Nat.nle_gt. intros Hge.
    rewrite skipn_all2 in Hc by exact Hge. discriminate. }
  assert (Hj : 2 <= j < len s).
  { unfold len. split; [|lia].
    destruct s as [|a0 [|a1 s2]]; try discriminate.
    simpl in Hat. inversion Hat; subst a0 a1.
    destruct (Z.to_nat j) as [|[|n]] eqn:Hn; try discriminate. lia. }
  destruct (load_in_string buf s (j - 1) Hs) as [c1 H1]; [lia|].
  destruct (load_in_string buf s (j - 2) Hs) as [c2 H2]; [lia|].
  now exists c1, c2.
Qed.

(** * Further properties of the code *)

(** ** The matcher: what a result means *)

Lemma strIndex_scan_first (rest : list Z) :
  forall (findStr : list Z) (i first size f s : Z),
    first = -1 \/ 0 <= first ->
    strIndex_scan rest findStr i first size = (f, s) ->
    f = -1 \/ 0 <= f.
Proof.
  induction rest as [|c rest IH]; intros findStr i first size f s Hf H;
    simpl in H.
  - inversion H. now subst.
  - destruct (i <? 0) eqn:Hi; [inversion H; now subst|].
    apply Z.ltb_ge in Hi.
    destruct (ge_strlen size findStr); [inversion H; now subst|].
    destruct (c =? nth (Z.to_nat size) findStr 0).
    + apply IH in H; [assumption|].
      destruct (first <? 0); [right; assumption | assumption].
    + apply IH in H; [assumption | now left].
Qed.

Lemma strIndex_minus_one_or_index (str findStr : list Z) (startIdx : Z) :
  strIndex str findStr startIdx = -1 \/ 0 <= strIndex str findStr startIdx.
Proof.
  unfold strIndex.
  destruct (strIndex_scan (skipn (Z.to_nat (int16 (uint16 startIdx))) str)
              findStr (int16 (uint16 startIdx)) (-1) 0) as [f s] eqn:Hscan.
  destruct (ge_strlen s findStr); [|now left].
  apply strIndex_scan_first in Hscan; [assumption | now left].
Qed.

Lemma occurs_at_fits (hay needle : list Z) (i : Z) :
  needle <> [] -> occurs_at hay needle i -> i + len needle <= len hay.
Proof.
  intros Hne [Hi Hocc]. unfold len.
  assert (Hpos : (0 < length needle)%nat)
    by (destruct needle; [congruence | simpl; lia]).
  assert (H : length needle = length (firstn (length needle)
                                        (skipn (Z.to_nat i) hay)))
    by (now rewrite Hocc).
  rewrite length_firstn, length_skipn in H. clear Hocc. lia.
Qed.

(** X1: for a string shorter than 2^15, a string searched that is not
    empty and a start offset in the range of its type, the matcher returns
    -1 or the index of a real occurrence of the string searched, at or after
    the start offset and wholly inside the string. *)
Theorem strIndex_is_minus_one_or_an_occurrence (str findStr : list Z)
    (startIdx : Z) :
  findStr <> [] -> 0 <= startIdx < 65536 -> len str < 32768 ->
  strIndex str findStr startIdx = -1 \/
  (startIdx <= strIndex str findStr startIdx /\
   occurs_at str findStr (strIndex str findStr startIdx) /\
   strIndex str findStr startIdx + len findStr <= len str).
Proof.
  intros Hne Hk Hlen.
  destruct (strIndex_minus_one_or_index str findStr startIdx) as [Hneg|Hpos].
  - now left.
  - right.
    destruct (strIndex_sound str findStr startIdx Hne Hk (or_intror Hlen) Hpos)
      as [Hge Hocc].
    split; [assumption|]. split; [assumption|].
    now apply occurs_at_fits.
Qed.

Lemma strIndex_is_minus_one_or_an_occurrence_witness :
  strIndex (chars "ABCDEF") (chars "CD") 1 = -1 \/
  (1 <= strIndex (chars "ABCDEF") (chars "CD") 1 /\
   occurs_at (chars "ABCDEF") (chars "CD")
     (strIndex (chars "ABCDEF") (chars "CD") 1) /\
   strIndex (chars "ABCDEF") (chars "CD") 1 + len (chars "CD")
     <= len (chars "ABCDEF")).
Proof.
  apply strIndex_is_minus_one_or_an_occurrence.
  - discriminate.
  - lia.
  - reflexivity.
Defined.

(** X2: the empty needle is never found: the matcher returns -1 for it,
    whatever the haystack and the start offset. *)
Theorem strIndex_empty_needle (str : list Z) (startIdx : Z) :
  strIndex str [] startIdx = -1.
Proof.
  unfold strIndex.
  destruct (skipn (Z.to_nat (int16 (uint16 startIdx))) str) as [|c rest];
    [reflexivity|].
  simpl. now destruct (int16 (uint16 startIdx) <? 0).
Qed.

(** X3: in a string shorter than 2^15, when the first character of the
    string searched does not occur between the start offset and an
    occurrence of it, the matcher returns the index of that occurrence. *)
Theorem strIndex_finds_occurrence (pre findStr post : list Z)
    (startIdx : Z) :
  findStr <> [] -> 0 <= startIdx <= len pre ->
  len (pre ++ findStr ++ post) < 32768 ->
  (forall x, In x (skipn (Z.to_nat startIdx) pre) -> x <> nth 0 findStr 0) ->
  strIndex (pre ++ findStr ++ post) findStr startIdx = len pre.
Proof.
  intros Hne Hk Hlen Hpre. unfold strIndex.
  rewrite !len_app in Hlen.
  pose proof (len_nonneg post) as Hpost.
  pose proof (len_nonneg findStr) as Hfind.
  rewrite int16_of_uint16 by lia.
  rewrite skipn_app.
  replace (Z.to_nat startIdx - length pre)%nat with 0%nat
    by (unfold len in Hk; lia).
  simpl skipn.
  assert (Hskip : startIdx + len (skipn (Z.to_nat startIdx) pre) = len pre)
    by (unfold len in *; rewrite length_skipn; lia).
  rewrite strIndex_scan_skip by (auto; lia).
  rewrite Hskip.
  rewrite (strIndex_scan_match findStr [] post) by (simpl; lia).
  simpl app. rewrite ge_strlen_nonneg by assumption.
  rewrite Z.geb_leb, Z.leb_refl.
  destruct findStr; [congruence | reflexivity].
Qed.

Lemma strIndex_finds_occurrence_witness :
  strIndex (chars "+x" ++ chars "+CFUN: " ++ chars "1") (chars "+CFUN: ") 1
  = len (chars "+x").
Proof.
  apply strIndex_finds_occurrence.
  - discriminate.
  - vm_compute. split; discriminate.
  - reflexivity.
  - intros x Hx. simpl in Hx. destruct Hx as [<-|[]]. discriminate.
Defined.


(** ** The readers: what the scratch buffer holds *)

Lemma store_at_end (done : list Z) (v : Z) : store done (len done) v = None.
Proof.
  unfold store.
  replace (len done <? 0) with false
    by (symmetry; apply Z.ltb_ge; apply len_nonneg).
  unfold len. rewrite Nat2Z.id.
  induction done as [|y done IH]; simpl; [reflexivity|].
  now rewrite IH.
Qed.

Lemma detectCRLF_stop (b : Z) (seenCR : bool) (countCRLF crlfToWait : Z) :
  snd (detectCRLF b seenCR countCRLF crlfToWait) = true ->
  b = LF /\ seenCR = true.
Proof.
  unfold detectCRLF. destruct (b =? CR); [discriminate|].
  destruct (b =? LF) eqn:Hlf; [|discriminate].
  destruct seenCR; [|discriminate].
  intros _. apply Z.eqb_eq in Hlf. now split.
Qed.

Lemma detectCRLF_seen (b : Z) (seenCR : bool) (countCRLF crlfToWait : Z) :
  fst (fst (detectCRLF b seenCR countCRLF crlfToWait)) = true ->
  b = CR \/ seenCR = true.
Proof.
  unfold detectCRLF. destruct (b =? CR) eqn:Hcr.
  - apply Z.eqb_eq in Hcr. now left.
  - destruct ((b =? LF) && seenCR); simpl; [now right | discriminate].
Qed.

(** The loop of [readResponse], whatever the stream: the bytes it took from
    the stream are in the buffer, in order, from the index it started at. *)
Lemma readResponse_loop_delivered (rx : list (option Z)) :
  forall (clk : list Z) (timerStart timeout crlfToWait : Z)
         (done room : list Z) (seenCR : bool) (countCRLF : Z) (ok : bool)
         (buf' : list Z) (rx' : list (option Z)) (clk' : list Z),
    len (done ++ room) < 65536 ->
    readResponse_loop rx clk timerStart timeout crlfToWait (done ++ room)
      (len done) seenCR countCRLF = Done (ok, buf', rx', clk') ->
    exists consumed : list (option Z),
      rx = consumed ++ rx' /\
      (length (delivered consumed) <= length room)%nat /\
      buf' = done ++ delivered consumed
               ++ skipn (length (delivered consumed)) room /\
      (ok = true ->
       length (delivered consumed) = length room \/
       exists pre, delivered consumed = pre ++ [LF] /\
                   (seenCR = true \/ In CR pre)).
Proof.
  induction rx as [|[b|] rx IH];
    intros clk timerStart timeout crlfToWait done room seenCR countCRLF ok
           buf' rx' clk' Hcap H.
  - discriminate.
  - (* a byte *)
    simpl in H. destruct room as [|x room].
    + rewrite app_nil_r, store_at_end in H. discriminate.
    + rewrite store_middle in H.
      destruct (detectCRLF b seenCR countCRLF crlfToWait) as [[s1 c1] stop]
        eqn:Hd.
      assert (Hone : forall o c,
                 Done (o, done ++ b :: room, rx, c) = Done (ok, buf', rx', clk') ->
                 (o = true ->
                  length [b] = length (x :: room) \/
                  exists pre, [b] = pre ++ [LF] /\ (seenCR = true \/ In CR pre)) ->
                 exists consumed : list (option Z),
                   Some b :: rx = consumed ++ rx' /\
                   (length (delivered consumed) <= length (x :: room))%nat /\
                   buf' = done ++ delivered consumed
                            ++ skipn (length (delivered consumed)) (x :: room) /\
                   (ok = true ->
                    length (delivered consumed) = length (x :: room) \/
                    exists pre, delivered consumed = pre ++ [LF] /\
                                (seenCR = true \/ In CR pre))).
      { intros o c Heq Hwhy. inversion Heq; subst.
        exists [Some b]. split; [reflexivity|].
        split; [simpl; lia|]. split; [reflexivity|]. exact Hwhy. }
      destruct stop.
      * apply (Hone true clk H). intros _. right. exists [].
        destruct (detectCRLF_stop b seenCR countCRLF crlfToWait) as [-> ->];
          [now rewrite Hd|]. split; [reflexivity | now left].
      * assert (Hn : uint16 (len done + 1) = len done + 1)
          by (unfold uint16; apply Z.mod_small; len_lia).
        rewrite Hn in H.
        destruct (len done + 1 =? len (done ++ x :: room)) eqn:Hfull.
        -- apply (Hone true clk H). intros _. left.
           apply Z.eqb_eq in Hfull. simpl. len_lia.
        -- destruct clk as [|t clk]; [discriminate|].
           destruct (uint32 (t - timerStart) >? timeout).
           ++ apply (Hone false clk H). discriminate.
           ++ replace (done ++ b :: room) with ((done ++ [b]) ++ room) in H
                by (now rewrite <- app_assoc).
              rewrite <- (len_snoc done b) in H.
              apply IH in H; [|len_lia].
              destruct H as (consumed & Hrx & Hlen & Hbuf & Hwhy).
              exists (Some b :: consumed). subst rx buf'.
              split; [reflexivity|].
              split; [simpl; lia|].
              split; [simpl; now rewrite <- app_assoc|].
              intros Hok. destruct (Hwhy Hok) as [Hf|(pre & Hpre & Hcr)].
              ** left. simpl. lia.
              ** right. exists (b :: pre). simpl. rewrite Hpre.
                 split; [reflexivity|].
                 destruct Hcr as [Hs|Hin]; [|right; now right].
                 destruct (detectCRLF_seen b seenCR countCRLF crlfToWait)
                   as [->|Hs']; [now rewrite Hd | right; now left | now left].
  - (* an idle poll *)
    simpl in H. destruct clk as [|t clk]; [discriminate|].
    destruct (uint32 (t - timerStart) >? timeout).
    + inversion H; subst. exists [None].
      split; [reflexivity|]. split; [simpl; lia|].
      split; [reflexivity | discriminate].
    + apply IH in H; [|assumption].
      destruct H as (consumed & Hrx & Hlen & Hbuf & Hwhy).
      exists (None :: consumed). subst rx. now repeat split.
Qed.

Lemma readResponse_Done_inv (timeout crlfToWait : Z) (d d' : SIM800L)
    (ok : bool) :
  internalBufferSize d < 65536 ->
  readResponse timeout crlfToWait d = Done (ok, d') ->
  exists consumed : list (option Z),
    rx d = consumed ++ rx d' /\
    (length (delivered consumed) <= length (internalBuffer d))%nat /\
    internalBuffer d' =
      delivered consumed
        ++ repeat 0 (length (internalBuffer d) - length (delivered consumed)) /\
    (ok = true ->
     length (delivered consumed) = length (internalBuffer d) \/
     exists pre, delivered consumed = pre ++ [LF] /\ In CR pre).
Proof.
  intros Hcap H.
  unfold readResponse, bind, initInternalBuffer, modify, millis in H.
  simpl in H. destruct (clk d) as [|t0 clk0]; [discriminate|]. simpl in H.
  destruct (readResponse_loop (rx d) clk0 t0 timeout crlfToWait
              (repeat 0 (length (internalBuffer d))) 0 false 0)
    as [[[[o buf] r] c]| |] eqn:Hloop; inversion H; subst o d'. clear H.
  apply (readResponse_loop_delivered (rx d) clk0 t0 timeout crlfToWait []
           (repeat 0 (length (internalBuffer d)))) in Hloop.
  - destruct Hloop as (consumed & Hrx & Hlen & Hbuf & Hwhy).
    rewrite repeat_length in Hlen. exists consumed. simpl.
    split; [assumption|]. split; [assumption|].
    split; [now rewrite Hbuf, skipn_repeat_zeros|].
    intros Hok. destruct (Hwhy Hok) as [Hf|(pre & Hpre & [Hs|Hin])].
    + left. now rewrite repeat_length in Hf.
    + discriminate.
    + right. now exists pre.
  - simpl. unfold internalBufferSize, len in *. now rewrite repeat_length.
Qed.

(** X4: whenever [readResponse] returns, with success or not, the scratch
    buffer holds exactly the bytes it took from the stream, in the order
    they came and unchanged, followed by zeros; it never takes more bytes
    than the buffer holds. *)
Theorem readResponse_buffer_holds_the_bytes_read (timeout crlfToWait : Z)
    (d d' : SIM800L) (ok : bool) :
  internalBufferSize d < 65536 ->
  readResponse timeout crlfToWait d = Done (ok, d') ->
  exists consumed : list (option Z),
    rx d = consumed ++ rx d' /\
    len (delivered consumed) <= internalBufferSize d /\
    internalBuffer d' =
      delivered consumed
        ++ repeat 0 (length (internalBuffer d) - length (delivered consumed)).
Proof.
  intros Hcap H.
  destruct (readResponse_Done_inv timeout crlfToWait d d' ok Hcap H)
    as (consumed & Hrx & Hlen & Hbuf & _).
  exists consumed. split; [assumption|].
  split; [unfold internalBufferSize, len; lia | assumption].
Qed.

Lemma readResponse_buffer_holds_the_bytes_read_witness :
  exists consumed : list (option Z),
    rx hears_A_then_nothing = consumed ++ rx heard_A /\
    len (delivered consumed) <= internalBufferSize hears_A_then_nothing /\
    internalBuffer heard_A =
      delivered consumed
        ++ repeat 0 (length (internalBuffer hears_A_then_nothing)
                     - length (delivered consumed)).
Proof.
  apply (readResponse_buffer_holds_the_bytes_read 1000 1
           hears_A_then_nothing heard_A false).
  - vm_compute. reflexivity.
  - vm_compute. reflexivity.
Defined.

(** X5: when [readResponse] returns success, either the bytes it took fill
    the scratch buffer, or the last byte it took is a LF and a CR came
    before it. *)
Theorem readResponse_success_is_full_buffer_or_LF (timeout crlfToWait : Z)
    (d d' : SIM800L) :
  internalBufferSize d < 65536 ->
  readResponse timeout crlfToWait d = Done (true, d') ->
  exists consumed : list (option Z),
    rx d = consumed ++ rx d' /\
    (len (delivered consumed) = internalBufferSize d \/
     exists pre, delivered consumed = pre ++ [LF] /\ In CR pre).
Proof.
  intros Hcap H.
  destruct (readResponse_Done_inv timeout crlfToWait d d' true Hcap H)
    as (consumed & Hrx & _ & _ & Hwhy).
  exists consumed. split; [assumption|].
  destruct (Hwhy eq_refl) as [Hf|Hlf]; [left | now right].
  unfold internalBufferSize, len. lia.
Qed.

Lemma readResponse_success_is_full_buffer_or_LF_witness :
  exists consumed : list (option Z),
    rx sends_CR_LF_LF = consumed ++ [] /\
    (len (delivered consumed) = internalBufferSize sends_CR_LF_LF \/
     exists pre, delivered consumed = pre ++ [LF] /\ In CR pre).
Proof.
  apply (readResponse_success_is_full_buffer_or_LF 1000 2 sends_CR_LF_LF
           (set_internalBuffer ([CR; LF; LF] ++ repeat 0 13)
              (device 16 8 ([], [])))).
  - vm_compute. reflexivity.
  - vm_compute. reflexivity.
Defined.

(** The loop of [readToForget], whatever the stream. *)
Lemma readToForget_loop_delivered (rx : list (option Z)) :
  forall (clk : list Z) (timerStart timeout : Z) (done room : list Z)
         (buf' : list Z) (rx' : list (option Z)) (clk' : list Z),
    len (done ++ room) < 65536 ->
    readToForget_loop rx clk timerStart timeout (done ++ room) (len done)
      = Done (buf', rx', clk') ->
    exists consumed : list (option Z),
      rx = consumed ++ rx' /\
      (length (delivered consumed) <= length room)%nat /\
      buf' = done ++ delivered consumed
               ++ skipn (length (delivered consumed)) room.
Proof.
  induction rx as [|[b|] rx IH];
    intros clk timerStart timeout done room buf' rx' clk' Hcap H.
  - discriminate.
  - simpl in H. destruct room as [|x room].
    + rewrite app_nil_r, store_at_end in H. discriminate.
    + rewrite store_middle in H.
      assert (Hone : forall c,
                 Done (done ++ b :: room, rx, c) = Done (buf', rx', clk') ->
                 exists consumed : list (option Z),
                   Some b :: rx = consumed ++ rx' /\
                   (length (delivered consumed) <= length (x :: room))%nat /\
                   buf' = done ++ delivered consumed
                            ++ skipn (length (delivered consumed)) (x :: room)).
      { intros c Heq. inversion Heq; subst. exists [Some b].
        split; [reflexivity|]. split; [simpl; lia | reflexivity]. }
      assert (Hn : uint16 (len done + 1) = len done + 1)
        by (unfold uint16; apply Z.mod_small; len_lia).
      rewrite Hn in H.
      destruct (len done + 1 =? len (done ++ x :: room)); [now apply (Hone clk)|].
      destruct clk as [|t clk]; [discriminate|].
      destruct (uint32 (t - timerStart) >? timeout); [now apply (Hone clk)|].
      replace (done ++ b :: room) with ((done ++ [b]) ++ room) in H
        by (now rewrite <- app_assoc).
      rewrite <- (len_snoc done b) in H.
      apply IH in H; [|len_lia].
      destruct H as (consumed & Hrx & Hlen & Hbuf).
      exists (Some b :: consumed). subst rx buf'.
      split; [reflexivity|]. split; [simpl; lia|].
      simpl. now rewrite <- app_assoc.
  - simpl in H. destruct clk as [|t clk]; [discriminate|].
    destruct (uint32 (t - timerStart) >? timeout).
    + inversion H; subst. exists [None].
      split; [reflexivity|]. split; [simpl; lia | reflexivity].
    + apply IH in H; [|assumption].
      destruct H as (consumed & Hrx & Hlen & Hbuf).
      exists (None :: consumed). subst rx. now repeat split.
Qed.

(** X6: the drain [readToForget] takes at most as many bytes from the
    stream as the scratch buffer holds, whatever is pending; the bytes it
    took are left in the scratch buffer, followed by zeros, and it writes
    nothing and leaves the receive buffer and the received length alone. *)
Theorem readToForget_takes_at_most_a_buffer (timeout : Z) (d d' : SIM800L) :
  internalBufferSize d < 65536 ->
  readToForget timeout d = Done (tt, d') ->
  (exists consumed : list (option Z),
     rx d = consumed ++ rx d' /\
     len (delivered consumed) <= internalBufferSize d /\
     internalBuffer d' =
       delivered consumed
         ++ repeat 0 (length (internalBuffer d)
                      - length (delivered consumed))) /\
  tx d' = tx d /\ recvBuffer d' = recvBuffer d /\ dataSize d' = dataSize d.
Proof.
  intros Hcap H. split.
  - unfold readToForget, bind, initInternalBuffer, modify, millis in H.
    simpl in H. destruct (clk d) as [|t0 clk0]; [discriminate|]. simpl in H.
    destruct (readToForget_loop (rx d) clk0 t0 timeout
                (repeat 0 (length (internalBuffer d))) 0)
      as [[[buf r] c]| |] eqn:Hloop; inversion H; subst d'. clear H.
    apply (readToForget_loop_delivered (rx d) clk0 t0 timeout []
             (repeat 0 (length (internalBuffer d)))) in Hloop.
    + destruct Hloop as (consumed & Hrx & Hlen & Hbuf).
      rewrite repeat_length in Hlen. exists consumed. simpl.
      split; [assumption|].
      split; [unfold internalBufferSize, len; lia|].
      now rewrite Hbuf, skipn_repeat_zeros.
    + simpl. unfold internalBufferSize, len in *. now rewrite repeat_length.
  - repeat split.
    + now apply (preserves_readToForget tx) in H.
    + now apply (preserves_readToForget recvBuffer) in H.
    + now apply (preserves_readToForget dataSize) in H.
Qed.

Lemma readToForget_takes_at_most_a_buffer_witness :
  (exists consumed : list (option Z),
     rx floods = consumed ++ rx flooded /\
     len (delivered consumed) <= internalBufferSize floods /\
     internalBuffer flooded =
       delivered consumed
         ++ repeat 0 (length (internalBuffer floods)
                      - length (delivered consumed))) /\
  tx flooded = tx floods /\ recvBuffer flooded = recvBuffer floods /\
  dataSize flooded = dataSize floods.
Proof.
  apply (readToForget_takes_at_most_a_buffer 500 floods flooded).
  - vm_compute. reflexivity.
  - vm_compute. reflexivity.
Defined.

(** ** The payload copy, whatever the stream *)

Lemma copyPayload_loop_result (rx : list (option Z)) :
  forall (dataSize : Z) (done old keep buf' : list Z) (rx' : list (option Z)),
    len (done ++ old ++ keep) < 65536 ->
    len (done ++ old) = Z.min dataSize (len (done ++ old ++ keep)) ->
    copyPayload_loop rx (len done) dataSize (done ++ old ++ keep)
      = Done (buf', rx') ->
    exists consumed : list (option Z),
      rx = consumed ++ rx' /\
      buf' = done ++ payload_of (delivered consumed) ++ keep /\
      len (payload_of (delivered consumed)) = len old.
Proof.
  induction rx as [|[b|] rx IH];
    intros dataSize done old keep buf' rx' Hcap Hmin H.
  - (* the stream is exhausted: the loop has ended, or it starves *)
    destruct old as [|x old].
    + rewrite copyPayload_loop_stop in H.
      * inversion H; subst. exists []. simpl. now rewrite app_nil_r in *.
      * apply andb_false_iff.
        destruct (Z.min_spec dataSize (len (done ++ [] ++ keep)))
          as [[_ Hm]|[_ Hm]]; [left | right]; apply Z.ltb_ge; len_lia.
    + simpl in H.
      replace ((len done <? dataSize)
               && (len done <? len (done ++ x :: old ++ keep))) with true in H
        by (symmetry; apply andb_true_intro; split; apply Z.ltb_lt; len_lia).
      discriminate.
  - (* a byte *)
    destruct old as [|x old].
    + rewrite copyPayload_loop_stop in H.
      * inversion H; subst. exists []. simpl. now rewrite app_nil_r in *.
      * apply andb_false_iff.
        destruct (Z.min_spec dataSize (len (done ++ [] ++ keep)))
          as [[_ Hm]|[_ Hm]]; [left | right]; apply Z.ltb_ge; len_lia.
    + rewrite copyPayload_loop_byte in H
        by (apply andb_true_intro; split; apply Z.ltb_lt; len_lia).
      simpl app in H. rewrite store_middle in H.
      destruct (isCRLF b) eqn:Hb.
      * rewrite uint16_back in H by len_lia.
        apply (IH dataSize done (b :: old) keep) in H; [| len_lia | len_lia].
        destruct H as (consumed & Hrx & Hbuf & Hlen).
        exists (Some b :: consumed). subst rx.
        split; [reflexivity|].
        change (delivered (Some b :: consumed)) with (b :: delivered consumed).
        unfold payload_of in *. simpl filter. rewrite Hb. simpl negb. cbv iota.
        split; [assumption | len_lia].
      * assert (Hn : uint16 (len done + 1) = len done + 1)
          by (unfold uint16; apply Z.mod_small; len_lia).
        rewrite Hn, <- (len_snoc done b) in H.
        replace (done ++ b :: old ++ keep) with ((done ++ [b]) ++ old ++ keep)
          in H by (now rewrite <- app_assoc).
        apply IH in H; [| len_lia | len_lia].
        destruct H as (consumed & Hrx & Hbuf & Hlen).
        exists (Some b :: consumed). subst rx.
        split; [reflexivity|].
        change (delivered (Some b :: consumed)) with (b :: delivered consumed).
        unfold payload_of in *. simpl filter. rewrite Hb. simpl negb. cbv iota.
        split; [now rewrite Hbuf, <- app_assoc | len_lia].
  - (* an idle poll *)
    destruct old as [|x old].
    + rewrite copyPayload_loop_stop in H.
      * inversion H; subst. exists []. simpl. now rewrite app_nil_r in *.
      * apply andb_false_iff.
        destruct (Z.min_spec dataSize (len (done ++ [] ++ keep)))
          as [[_ Hm]|[_ Hm]]; [left | right]; apply Z.ltb_ge; len_lia.
    + rewrite copyPayload_loop_idle in H
        by (apply andb_true_intro; split; apply Z.ltb_lt; len_lia).
      apply IH in H; [| len_lia | len_lia].
      destruct H as (consumed & Hrx & Hbuf & Hlen).
      exists (None :: consumed). subst rx. now repeat split.
Qed.

(** X7: whenever the copy of the payload returns, the receive buffer starts
    with the bytes the copy took from the stream less every CR and LF,
    [min(dataSize, recvBufferSize)] of them, and is unchanged after them;
    the received length, the scratch buffer and what was written are left
    alone. *)
Theorem copyPayload_keeps_all_but_CR_and_LF (d d' : SIM800L) :
  recvBufferSize d < 65536 -> 0 <= dataSize d ->
  copyPayload d = Done (tt, d') ->
  exists consumed : list (option Z),
    rx d = consumed ++ rx d' /\
    recvBuffer d' =
      payload_of (delivered consumed)
        ++ skipn (Z.to_nat (Z.min (dataSize d) (recvBufferSize d)))
             (recvBuffer d) /\
    len (payload_of (delivered consumed))
      = Z.min (dataSize d) (recvBufferSize d) /\
    dataSize d' = dataSize d /\ internalBuffer d' = internalBuffer d /\
    tx d' = tx d.
Proof.
  intros Hcap Hsize H. unfold copyPayload, recvBufferSize in *.
  destruct (copyPayload_loop (rx d) 0 (dataSize d) (recvBuffer d))
    as [[buf r]| |] eqn:Hloop; inversion H; subst d'. clear H.
  set (n := Z.min (dataSize d) (len (recvBuffer d))) in *.
  assert (Hn : 0 <= n <= len (recvBuffer d))
    by (pose proof (len_nonneg (recvBuffer d)); subst n; lia).
  rewrite <- (firstn_skipn (Z.to_nat n) (recvBuffer d)) in Hloop.
  apply (copyPayload_loop_result (rx d) (dataSize d) []
           (firstn (Z.to_nat n) (recvBuffer d))
           (skipn (Z.to_nat n) (recvBuffer d))) in Hloop.
  - destruct Hloop as (consumed & Hrx & Hbuf & Hlen).
    exists consumed. simpl.
    split; [assumption|]. split; [assumption|].
    split; [|repeat split].
    rewrite Hlen. unfold len. rewrite length_firstn. unfold len in Hn. lia.
  - simpl app. now rewrite firstn_skipn.
  - simpl app. rewrite firstn_skipn. fold n.
    unfold len at 1. rewrite length_firstn. unfold len in Hn. lia.
Qed.

Lemma copyPayload_keeps_all_but_CR_and_LF_witness :
  exists consumed : list (option Z),
    rx hi_device = consumed ++ [Some LF] /\
    chars "Hi!" ++ repeat 0 5 =
      payload_of (delivered consumed)
        ++ skipn (Z.to_nat (Z.min (dataSize hi_device)
                              (recvBufferSize hi_device)))
             (recvBuffer hi_device) /\
    len (payload_of (delivered consumed))
      = Z.min (dataSize hi_device) (recvBufferSize hi_device) /\
    3 = dataSize hi_device /\ repeat 0 16 = internalBuffer hi_device /\
    [] = tx hi_device.
Proof.
  apply (copyPayload_keeps_all_but_CR_and_LF hi_device
           (set_rx [Some LF]
              (set_recvBuffer (chars "Hi!" ++ repeat 0 5) hi_device))).
  - vm_compute. reflexivity.
  - vm_compute. discriminate.
  - vm_compute. reflexivity.
Defined.

(** ** The buffers are never resized *)

Lemma store_length (a : list Z) (i v : Z) (a' : list Z) :
  store a i v = Some a' -> length a' = length a.
Proof.
  unfold store. destruct (i <? 0); [discriminate|].
  generalize (Z.to_nat i). clear i. revert a'.
  induction a as [|x a IH]; intros a' n H; simpl in H; [discriminate|].
  destruct n as [|n].
  - inversion H. reflexivity.
  - destruct (store_nat a n v) as [a1|] eqn:Ha; [|discriminate].
    inversion H. simpl. f_equal. now apply (IH a1 n).
Qed.

Lemma readResponse_loop_length (rx : list (option Z)) :
  forall (clk : list Z) (timerStart timeout crlfToWait : Z) (buf : list Z)
         (i : Z) (seenCR : bool) (countCRLF : Z) (ok : bool) (buf' : list Z)
         (rx' : list (option Z)) (clk' : list Z),
    readResponse_loop rx clk timerStart timeout crlfToWait buf i seenCR
      countCRLF = Done (ok, buf', rx', clk') ->
    length buf' = length buf.
Proof.
  induction rx as [|[b|] rx IH];
    intros clk timerStart timeout crlfToWait buf i seenCR countCRLF ok buf'
           rx' clk' H; simpl in H.
  - discriminate.
  - destruct (store buf i b) as [buf1|] eqn:Hst; [|discriminate].
    apply store_length in Hst.
    destruct (detectCRLF b seenCR countCRLF crlfToWait) as [[s1 c1] stop].
    destruct stop; [inversion H; now subst|].
    destruct (uint16 (i + 1) =? len buf); [inversion H; now subst|].
    destruct clk as [|t clk]; [discriminate|].
    destruct (uint32 (t - timerStart) >? timeout); [inversion H; now subst|].
    apply IH in H. congruence.
  - destruct clk as [|t clk]; [discriminate|].
    destruct (uint32 (t - timerStart) >? timeout); [inversion H; now subst|].
    now apply IH in H.
Qed.

Lemma readToForget_loop_length (rx : list (option Z)) :
  forall (clk : list Z) (timerStart timeout : Z) (buf : list Z) (i : Z)
         (buf' : list Z) (rx' : list (option Z)) (clk' : list Z),
    readToForget_loop rx clk timerStart timeout buf i = Done (buf', rx', clk') ->
    length buf' = length buf.
Proof.
  induction rx as [|[b|] rx IH];
    intros clk timerStart timeout buf i buf' rx' clk' H; simpl in H.
  - discriminate.
  - destruct (store buf i b) as [buf1|] eqn:Hst; [|discriminate].
    apply store_length in Hst.
    destruct (uint16 (i + 1) =? len buf); [inversion H; now subst|].
    destruct clk as [|t clk]; [discriminate|].
    destruct (uint32 (t - timerStart) >? timeout); [inversion H; now subst|].
    apply IH in H. congruence.
  - destruct clk as [|t clk]; [discriminate|].
    destruct (uint32 (t - timerStart) >? timeout); [inversion H; now subst|].
    now apply IH in H.
Qed.

Lemma copyPayload_loop_length (rx : list (option Z)) :
  forall (i dataSize : Z) (buf buf' : list Z) (rx' : list (option Z)),
    copyPayload_loop rx i dataSize buf = Done (buf', rx') ->
    length buf' = length buf.
Proof.
  induction rx as [|[b|] rx IH]; intros i dataSize buf buf' rx' H;
    simpl in H; destruct ((i <? dataSize) && (i <? len buf));
    try discriminate; try (inversion H; now subst).
  - destruct (store buf i b) as [buf1|] eqn:Hst; [|discriminate].
    apply store_length in Hst. apply IH in H. congruence.
  - now apply IH in H.
Qed.

Section Sizes.

Variables DEFAULT_TIMEOUT DEFAULT_CRLF : Z.

Lemma sizes_millis : preserves sizes millis.
Proof. now apply preserves_millis. Qed.

Lemma sizes_stream_write (s : list Z) : preserves sizes (stream_write s).
Proof. now apply preserves_modify. Qed.

Lemma sizes_initInternalBuffer : preserves sizes initInternalBuffer.
Proof.
  apply preserves_modify. intros d. unfold sizes. simpl.
  now rewrite repeat_length.
Qed.

Lemma sizes_readToForget (timeout : Z) : preserves sizes (readToForget timeout).
Proof.
  unfold readToForget.
  apply preserves_bind; [apply sizes_initInternalBuffer | intros _].
  apply preserves_bind; [apply sizes_millis | intros t].
  intros d x d' H.
  destruct (readToForget_loop (rx d) (clk d) t timeout (internalBuffer d) 0)
    as [[[buf r] c]| |] eqn:Hloop; inversion H.
  apply readToForget_loop_length in Hloop. unfold sizes. simpl. congruence.
Qed.

Lemma sizes_readResponse (timeout crlfToWait : Z) :
  preserves sizes (readResponse timeout crlfToWait).
Proof.
  unfold readResponse.
  apply preserves_bind; [apply sizes_initInternalBuffer | intros _].
  apply preserves_bind; [apply sizes_millis | intros t].
  intros d x d' H.
  destruct (readResponse_loop (rx d) (clk d) t timeout crlfToWait
              (internalBuffer d) 0 false 0)
    as [[[[ok buf] r] c]| |] eqn:Hloop; inversion H.
  apply readResponse_loop_length in Hloop. unfold sizes. simpl. congruence.
Qed.

Lemma sizes_copyPayload : preserves sizes copyPayload.
Proof.
  intros d x d' H. unfold copyPayload in H.
  destruct (copyPayload_loop (rx d) 0 (dataSize d) (recvBuffer d))
    as [[buf r]| |] eqn:Hloop; inversion H.
  apply copyPayload_loop_length in Hloop. unfold sizes. simpl. congruence.
Qed.

Lemma sizes_cleanupReceiveBuffer : preserves sizes cleanupReceiveBuffer.
Proof.
  intros d x d' H. rewrite cleanupReceiveBuffer_Done in H. inversion H.
  unfold sizes, cleaned. simpl. now rewrite repeat_length.
Qed.

Lemma sizes_parseDataSize (idxBase : Z) : preserves sizes (parseDataSize idxBase).
Proof.
  unfold parseDataSize.
  apply preserves_bind; [now apply preserves_modify | intros _].
  apply preserves_bind; [|intros n; now apply preserves_modify].
  apply (preserves_or_fault sizes
           (fun d => parseDataSize_loop
                       (skipn (Z.to_nat (idxBase + 19)) (internalBuffer d))
                       0 (dataSize d))).
Qed.

Ltac sizes_step :=
  first
    [ apply preserves_ret
    | apply preserves_strcpy_P
    | apply sizes_readToForget
    | apply sizes_readResponse
    | apply sizes_stream_write
    | apply sizes_copyPayload
    | apply sizes_cleanupReceiveBuffer
    | apply sizes_parseDataSize
    | apply preserves_parseHttpRC
    | apply preserves_strIndex_internalBuffer
    | apply preserves_internalBuffer_at
    | apply preserves_modify; intros d; now destruct (recvBufferSize d <? dataSize d)
    | apply preserves_bind; [|intro]
    | match goal with
      | |- preserves _ (if ?b then _ else _) => destruct b
      | |- preserves _ (match ?o with Some _ => _ | None => _ end) => destruct o
      end ].

Ltac sizes_auto :=
  unfold doGet, doPost, awaitAnswer, readPayload, initiateHTTP, terminateHTTP,
    isReady, getPowerMode, getRegistrationStatus, getSignal, setPowerMode,
    setupGPRS, connectGPRS, disconnectGPRS, readResponseCheckAnswer_P,
    sendCommand_P, sendCommand_P2, sendCommand, sendCommand2;
  repeat sizes_step.


Lemma sizes_sendCommand_P (command : list Z) :
  preserves sizes (sendCommand_P command).
Proof. sizes_auto. Qed.




(** X8: no operation of the driver resizes a buffer: whenever one returns,
    the scratch buffer and the receive buffer have the sizes they had
    before. *)
Theorem buffers_keep_their_sizes :
  (forall url serverReadTimeoutMs,
     preserves sizes
       (doGet DEFAULT_TIMEOUT DEFAULT_CRLF url serverReadTimeoutMs)) /\
  (forall url contentType payload clientWriteTimeoutMs serverReadTimeoutMs,
     preserves sizes
       (doPost DEFAULT_TIMEOUT DEFAULT_CRLF url contentType payload
          clientWriteTimeoutMs serverReadTimeoutMs)) /\
  preserves sizes (isReady DEFAULT_TIMEOUT DEFAULT_CRLF) /\
  preserves sizes (getSignal DEFAULT_TIMEOUT DEFAULT_CRLF) /\
  preserves sizes (getPowerMode DEFAULT_TIMEOUT DEFAULT_CRLF) /\
  preserves sizes (getRegistrationStatus DEFAULT_TIMEOUT DEFAULT_CRLF) /\
  (forall powerMode,
     preserves sizes (setPowerMode DEFAULT_TIMEOUT DEFAULT_CRLF powerMode)) /\
  (forall apn, preserves sizes (setupGPRS DEFAULT_CRLF apn)) /\
  preserves sizes (connectGPRS DEFAULT_CRLF) /\
  preserves sizes (disconnectGPRS DEFAULT_CRLF) /\
  (forall timeout, preserves sizes (readToForget timeout)) /\
  (forall timeout crlfToWait,
     preserves sizes (readResponse timeout crlfToWait)).
Proof.
  repeat split; intros; try (apply sizes_readToForget);
    try (apply sizes_readResponse); sizes_auto.
Qed.

End Sizes.

(** ** A request that returns 200 *)


Lemma payload_of_no_CRLF (bytes : list Z) :
  Forall (fun b => b <> CR /\ b <> LF) (payload_of bytes).
Proof.
  apply Forall_forall. intros b Hb. unfold payload_of in Hb.
  apply filter_In in Hb. destruct Hb as [_ Hb].
  apply negb_true_iff in Hb. unfold isCRLF in Hb.
  apply orb_false_iff in Hb. destruct Hb as [H1 H2].
  apply Z.eqb_neq in H1. apply Z.eqb_neq in H2. now split.
Qed.

Lemma strcpy_P_Done (size : Z) (s s' : list Z) (d d' : SIM800L) :
  strcpy_P size s d = Done (s', d') -> s' = s /\ d' = d /\ len s < size.
Proof.
  unfold strcpy_P, or_fault. destruct (len s <? size) eqn:Hlt; intros H;
    inversion H; subst. apply Z.ltb_lt in Hlt. auto.
Qed.

(** ** What a call takes from the stream *)

Lemma reads_ahead_keep {A : Type} (m : M A) : preserves rx m -> reads_ahead m.
Proof. intros Hm d a d' H. exists []. simpl. symmetry. exact (Hm d a d' H). Qed.

Lemma reads_ahead_bind {A C : Type} (m : M A) (k : A -> M C) :
  reads_ahead m -> (forall a, reads_ahead (k a)) -> reads_ahead (bind m k).
Proof.
  intros Hm Hk d c d' H.
  apply bind_inv in H. destruct H as (a & d1 & H1 & H2).
  destruct (Hm d a d1 H1) as [t1 E1]. destruct (Hk a d1 c d' H2) as [t2 E2].
  exists (t1 ++ t2). now rewrite E1, E2, app_assoc.
Qed.

Lemma readToForget_loop_suffix (rx : list (option Z)) :
  forall (clk : list Z) (timerStart timeout : Z) (buf : list Z) (i : Z)
         (buf' : list Z) (rx' : list (option Z)) (clk' : list Z),
    readToForget_loop rx clk timerStart timeout buf i = Done (buf', rx', clk') ->
    exists taken, rx = taken ++ rx'.
Proof.
  induction rx as [|[b|] rx IH];
    intros clk timerStart timeout buf i buf' rx' clk' H; simpl in H.
  - discriminate.
  - destruct (store buf i b) as [buf1|]; [|discriminate].
    destruct (uint16 (i + 1) =? len buf);
      [inversion H; subst; now exists [Some b]|].
    destruct clk as [|t clk]; [discriminate|].
    destruct (uint32 (t - timerStart) >? timeout);
      [inversion H; subst; now exists [Some b]|].
    apply IH in H. destruct H as [taken ->]. now exists (Some b :: taken).
  - destruct clk as [|t clk]; [discriminate|].
    destruct (uint32 (t - timerStart) >? timeout);
      [inversion H; subst; now exists [None]|].
    apply IH in H. destruct H as [taken ->]. now exists (None :: taken).
Qed.

Lemma readResponse_loop_suffix (rx : list (option Z)) :
  forall (clk : list Z) (timerStart timeout crlfToWait : Z) (buf : list Z)
         (i : Z) (seenCR : bool) (countCRLF : Z) (ok : bool) (buf' : list Z)
         (rx' : list (option Z)) (clk' : list Z),
    readResponse_loop rx clk timerStart timeout crlfToWait buf i seenCR
      countCRLF = Done (ok, buf', rx', clk') ->
    exists taken, rx = taken ++ rx'.
Proof.
  induction rx as [|[b|] rx IH];
    intros clk timerStart timeout crlfToWait buf i seenCR countCRLF ok buf'
           rx' clk' H; simpl in H.
  - discriminate.
  - destruct (store buf i b) as [buf1|]; [|discriminate].
    destruct (detectCRLF b seenCR countCRLF crlfToWait) as [[s1 c1] stop].
    destruct stop; [inversion H; subst; now exists [Some b]|].
    destruct (uint16 (i + 1) =? len buf);
      [inversion H; subst; now exists [Some b]|].
    destruct clk as [|t clk]; [discriminate|].
    destruct (uint32 (t - timerStart) >? timeout);
      [inversion H; subst; now exists [Some b]|].
    apply IH in H. destruct H as [taken ->]. now exists (Some b :: taken).
  - destruct clk as [|t clk]; [discriminate|].
    destruct (uint32 (t - timerStart) >? timeout);
      [inversion H; subst; now exists [None]|].
    apply IH in H. destruct H as [taken ->]. now exists (None :: taken).
Qed.

Lemma reads_ahead_readToForget (timeout : Z) :
  reads_ahead (readToForget timeout).
Proof.
  unfold readToForget.
  apply reads_ahead_bind;
    [apply reads_ahead_keep; now apply preserves_modify | intros _].
  apply reads_ahead_bind;
    [apply reads_ahead_keep; now apply preserves_millis | intros t].
  intros d x d' H.
  destruct (readToForget_loop (rx d) (clk d) t timeout (internalBuffer d) 0)
    as [[[buf r] c]| |] eqn:Hloop; inversion H.
  apply readToForget_loop_suffix in Hloop. exact Hloop.
Qed.

Lemma reads_ahead_readResponse (timeout crlfToWait : Z) :
  reads_ahead (readResponse timeout crlfToWait).
Proof.
  unfold readResponse.
  apply reads_ahead_bind;
    [apply reads_ahead_keep; now apply preserves_modify | intros _].
  apply reads_ahead_bind;
    [apply reads_ahead_keep; now apply preserves_millis | intros t].
  intros d x d' H.
  destruct (readResponse_loop (rx d) (clk d) t timeout crlfToWait
              (internalBuffer d) 0 false 0)
    as [[[[ok buf] r] c]| |] eqn:Hloop; inversion H.
  apply readResponse_loop_suffix in Hloop. exact Hloop.
Qed.

Ltac reads_step :=
  first
    [ apply reads_ahead_readToForget
    | apply reads_ahead_readResponse
    | apply reads_ahead_keep; apply preserves_ret
    | apply reads_ahead_keep; apply preserves_strcpy_P
    | apply reads_ahead_keep; apply preserves_strIndex_internalBuffer
    | apply reads_ahead_keep; apply preserves_internalBuffer_at
    | apply reads_ahead_keep; apply preserves_modify; reflexivity
    | apply reads_ahead_bind; [|intro]
    | match goal with
      | |- reads_ahead (if ?b then _ else _) => destruct b
      end ].

Ltac reads_auto :=
  unfold initiateHTTP, terminateHTTP, readResponseCheckAnswer_P,
    sendCommand_P, sendCommand_P2, sendCommand, sendCommand2, stream_write;
  repeat reads_step.






Lemma reads_ahead_terminateHTTP (DEFAULT_TIMEOUT DEFAULT_CRLF : Z) :
  reads_ahead (terminateHTTP DEFAULT_TIMEOUT DEFAULT_CRLF).
Proof. reads_auto. Qed.

(** ** A check that succeeds *)

Lemma c_str_no_nul (a : list Z) :
  forall s, c_str a = Some s -> Forall (fun x => x <> 0) s.
Proof.
  induction a as [|x a IH]; intros s H; simpl in H; [discriminate|].
  destruct (x =? 0) eqn:Hx.
  - inversion H. constructor.
  - destruct (c_str a) as [s'|]; [|discriminate].
    inversion H; subst. constructor; [now apply Z.eqb_neq | now apply IH].
Qed.

(** The string in a buffer that holds bytes followed by zeros is a prefix of
    these bytes. *)
Lemma c_str_of_bytes_and_zeros (bytes s : list Z) (n : nat) :
  c_str (bytes ++ repeat 0 n) = Some s -> exists tail, bytes = s ++ tail.
Proof.
  revert s. induction bytes as [|x bytes IH]; intros s H.
  - simpl in H. destruct n; simpl in H; [discriminate|].
    inversion H. now exists [].
  - simpl in H. destruct (x =? 0).
    + inversion H. now exists (x :: bytes).
    + destruct (c_str (bytes ++ repeat 0 n)) as [s'|] eqn:E; [|discriminate].
      inversion H; subst. destruct (IH s' eq_refl) as [tail ->].
      now exists tail.
Qed.

Lemma occurs_at_app (hay tail needle : list Z) (i : Z) :
  needle <> [] -> occurs_at hay needle i -> occurs_at (hay ++ tail) needle i.
Proof.
  intros Hne Hocc. pose proof (occurs_at_fits hay needle i Hne Hocc) as Hfit.
  destruct Hocc as [Hi Hocc]. split; [assumption|].
  rewrite skipn_app, firstn_app, Hocc.
  replace (length needle - length (skipn (Z.to_nat i) hay))%nat with 0%nat
    by (rewrite length_skipn; unfold len in Hfit; lia).
  simpl. apply app_nil_r.
Qed.

(** When the check of an answer returns true, the expected answer occurs,
    at an index greater than 0, in the bytes the read took from the
    stream. *)
Lemma check_true_inv (timeout : Z) (expectedAnswer : list Z) (crlfToWait : Z)
    (d d' : SIM800L) :
  expectedAnswer <> [] ->
  internalBufferSize d < 65536 ->
  readResponseCheckAnswer_P timeout expectedAnswer crlfToWait d
    = Done (true, d') ->
  exists (taken : list (option Z)) (i : Z),
    rx d = taken ++ rx d' /\
    0 < i /\ occurs_at (delivered taken) expectedAnswer i.
Proof.
  intros Hne Hcap H. unfold readResponseCheckAnswer_P in H.
  apply bind_inv in H. destruct H as (ok & d1 & H1 & H).
  destruct ok; [|inversion H].
  apply bind_inv in H. destruct H as (e & d2 & H2 & H).
  apply strcpy_P_Done in H2. destruct H2 as (-> & -> & Hfit).
  apply bind_inv in H. destruct H as (idx & d3 & H3 & H).
  unfold strIndex_internalBuffer in H3.
  apply bind_inv in H3. destruct H3 as (s & d4 & Hs & H3).
  unfold or_fault in Hs.
  destruct (c_str (internalBuffer d1)) as [s'|] eqn:Hstr; inversion Hs;
    subst s' d4. clear Hs.
  inversion H3; subst idx d3. clear H3.
  destruct (strIndex s expectedAnswer 0 >? 0) eqn:Hidx; inversion H; subst d'.
  rewrite Z.gtb_ltb in Hidx. apply Z.ltb_lt in Hidx.
  destruct (readResponse_Done_inv _ _ _ _ _ Hcap H1)
    as (taken & Hrx & _ & Hbuf & _).
  rewrite Hbuf in Hstr.
  destruct (c_str_of_bytes_and_zeros _ _ _ Hstr) as [tail Htail].
  destruct (strIndex_sound s expectedAnswer 0 Hne) as [_ Hocc];
    [lia | left; lia | lia |].
  exists taken, (strIndex s expectedAnswer 0).
  split; [assumption|]. split; [assumption|].
  rewrite Htail. now apply occurs_at_app.
Qed.

(** X25: when [readResponseCheckAnswer_P] returns true, the expected answer
    occurs, at an index greater than 0, in the bytes the read took from the
    stream; what it did not take stays in the stream. *)
Theorem readResponseCheckAnswer_P_true_means_answer_read (timeout : Z)
    (expectedAnswer : list Z) (crlfToWait : Z) (d d' : SIM800L) :
  expectedAnswer <> [] ->
  internalBufferSize d < 65536 ->
  readResponseCheckAnswer_P timeout expectedAnswer crlfToWait d
    = Done (true, d') ->
  exists (taken : list (option Z)) (i : Z),
    rx d = taken ++ rx d' /\
    0 < i /\ occurs_at (delivered taken) expectedAnswer i.
Proof. exact (check_true_inv timeout expectedAnswer crlfToWait d d'). Qed.

Lemma readResponseCheckAnswer_P_true_means_answer_read_witness :
  exists (d' : SIM800L) (taken : list (option Z)) (i : Z),
    rx says_OK_after_space = taken ++ rx d' /\
    0 < i /\ occurs_at (delivered taken) AT_RSP_OK i.
Proof.
  eexists.
  apply (readResponseCheckAnswer_P_true_means_answer_read 1000 AT_RSP_OK 1
           says_OK_after_space).
  - vm_compute. discriminate.
  - vm_compute. reflexivity.
  - vm_compute. reflexivity.
Defined.

(** ** The payload of a request that returns 200 *)

Lemma passes_on_refl (d : SIM800L) : passes_on d d.
Proof. split; [reflexivity|]. split; [reflexivity|]. now exists []. Qed.



Section Success.

Variables DEFAULT_TIMEOUT DEFAULT_CRLF : Z.

Lemma initiateHTTP_code (url : list Z) (d d' : SIM800L) (rc : Z) :
  initiateHTTP DEFAULT_TIMEOUT DEFAULT_CRLF url d = Done (rc, d') ->
  rc = 0 \/ rc = 701 \/ rc = 702.
Proof.
  unfold initiateHTTP. intros H.
  apply bind_inv in H. destruct H as (u1 & d1 & _ & H).
  apply bind_inv in H. destruct H as ([|] & d2 & _ & H);
    simpl negb in H; cbv iota in H; [|inversion H; auto].
  apply bind_inv in H. destruct H as (u3 & d3 & _ & H).
  apply bind_inv in H. destruct H as ([|] & d4 & _ & H);
    simpl negb in H; cbv iota in H; [|inversion H; auto].
  apply bind_inv in H. destruct H as (u5 & d5 & _ & H).
  apply bind_inv in H. destruct H as ([|] & d6 & _ & H);
    simpl negb in H; cbv iota in H; [|inversion H; auto].
  destruct (strIndex url (chars "https://") 0 =? 0);
    apply bind_inv in H; destruct H as (u7 & d7 & _ & H);
    apply bind_inv in H; destruct H as ([|] & d8 & _ & H);
    inversion H; auto.
Qed.
















End Success.



(** ** The commands a call writes *)

Lemma sendCommand_tx (command : list Z) (d d' : SIM800L) (u : unit) :
  sendCommand command d = Done (u, d') -> tx d' = tx d ++ line command.
Proof.
  unfold sendCommand, line. intros H.
  apply bind_inv in H. destruct H as (u2 & d2 & H2 & H).
  apply (preserves_readToForget tx) in H2; try reflexivity.
  apply bind_inv in H. destruct H as (u3 & d3 & H3 & H).
  inversion H3; subst d3. inversion H; subst d'.
  simpl. rewrite H2. now rewrite <- app_assoc.
Qed.

Lemma sendCommand2_tx (command parameter : list Z) (d d' : SIM800L) (u : unit) :
  sendCommand2 command parameter d = Done (u, d') ->
  tx d' = tx d ++ line_with command parameter.
Proof.
  unfold sendCommand2, line_with. intros H.
  apply bind_inv in H. destruct H as (u2 & d2 & H2 & H).
  apply (preserves_readToForget tx) in H2; try reflexivity.
  apply bind_inv in H. destruct H as (u3 & d3 & H3 & H).
  inversion H3; subst d3. clear H3.
  apply bind_inv in H. destruct H as (u4 & d4 & H4 & H).
  inversion H4; subst d4. clear H4.
  apply bind_inv in H. destruct H as (u5 & d5 & H5 & H).
  inversion H5; subst d5. clear H5.
  apply bind_inv in H. destruct H as (u6 & d6 & H6 & H).
  inversion H6; subst d6. clear H6.
  inversion H; subst d'.
  simpl. rewrite H2. now rewrite <- !app_assoc.
Qed.

Lemma sendCommand_P2_tx (command parameter : list Z) (d d' : SIM800L)
    (u : unit) :
  sendCommand_P2 command parameter d = Done (u, d') ->
  tx d' = tx d ++ line_with command parameter.
Proof.
  unfold sendCommand_P2. intros H.
  apply bind_inv in H. destruct H as (s & d1 & H1 & H).
  apply strcpy_P_Done in H1. destruct H1 as (-> & -> & _).
  now apply sendCommand2_tx in H.
Qed.

(** X10: a command is written after the drain of the stale input, followed
    by CR LF; a parameter is written between two double quotes as it is,
    with no escaping.  Nothing else is written, and the receive buffer and
    the received length are left alone.  The variants that take the command
    from program memory copy it into 32 chars first, so it has less than 32
    characters when they return. *)
Theorem commands_are_lines (d d' : SIM800L) :
  (forall command,
     sendCommand command d = Done (tt, d') ->
     tx d' = tx d ++ command ++ [CR; LF] /\
     recvBuffer d' = recvBuffer d /\ dataSize d' = dataSize d) /\
  (forall command parameter,
     sendCommand2 command parameter d = Done (tt, d') ->
     tx d' = tx d ++ command ++ [QUOTE] ++ parameter ++ [QUOTE] ++ [CR; LF] /\
     recvBuffer d' = recvBuffer d /\ dataSize d' = dataSize d) /\
  (forall command,
     sendCommand_P command d = Done (tt, d') ->
     len command < 32 /\
     tx d' = tx d ++ command ++ [CR; LF] /\
     recvBuffer d' = recvBuffer d /\ dataSize d' = dataSize d) /\
  (forall command parameter,
     sendCommand_P2 command parameter d = Done (tt, d') ->
     len command < 32 /\
     tx d' = tx d ++ command ++ [QUOTE] ++ parameter ++ [QUOTE] ++ [CR; LF] /\
     recvBuffer d' = recvBuffer d /\ dataSize d' = dataSize d).
Proof.
  split; [|split; [|split]].
  - intros command H. split; [exact (sendCommand_tx _ _ _ _ H)|].
    split; [apply (preserves_sendCommand recvBuffer) in H
           | apply (preserves_sendCommand dataSize) in H]; auto.
  - intros command parameter H. split; [exact (sendCommand2_tx _ _ _ _ _ H)|].
    split; [apply (preserves_sendCommand2 recvBuffer) in H
           | apply (preserves_sendCommand2 dataSize) in H]; auto.
  - intros command H.
    split.
    { unfold sendCommand_P in H. apply bind_inv in H.
      destruct H as (s & d1 & H1 & _). now apply strcpy_P_Done in H1. }
    split; [exact (sendCommand_P_tx _ _ _ _ H)|].
    split; [apply (preserves_sendCommand_P recvBuffer) in H
           | apply (preserves_sendCommand_P dataSize) in H]; auto.
  - intros command parameter H.
    split.
    { unfold sendCommand_P2 in H. apply bind_inv in H.
      destruct H as (s & d1 & H1 & _). now apply strcpy_P_Done in H1. }
    split; [exact (sendCommand_P2_tx _ _ _ _ _ H)|].
    split; [apply (preserves_sendCommand_P2 recvBuffer) in H
           | apply (preserves_sendCommand_P2 dataSize) in H]; auto.
Qed.

(** The matcher started at 0 returns 0 exactly when the string starts with
    the string searched. *)
Lemma strIndex_zero_iff_prefix (str findStr : list Z) :
  findStr <> [] -> len findStr < 32768 ->
  (strIndex str findStr 0 = 0 <-> firstn (length findStr) str = findStr).
Proof.
  intros Hne Hlen. split; intros H.
  - destruct (strIndex_sound str findStr 0 Hne) as [_ [_ Hat]];
      [lia | now left | lia |].
    rewrite H in Hat. exact Hat.
  - rewrite <- (firstn_skipn (length findStr) str), H.
    apply (strIndex_found [] findStr (skipn (length findStr) str) Hne).
    + exact Hlen.
    + intros x [].
Qed.

Section Transcripts.

Variables DEFAULT_TIMEOUT DEFAULT_CRLF : Z.

(** A command and the check of its answer: what is written when the check
    returns. *)
Lemma command_and_check_tx (command : list Z) (timeout : Z)
    (expectedAnswer : list Z) (crlfToWait : Z) (d d1 d2 : SIM800L)
    (u : unit) (ok : bool) :
  sendCommand_P command d = Done (u, d1) ->
  readResponseCheckAnswer_P timeout expectedAnswer crlfToWait d1
    = Done (ok, d2) ->
  tx d2 = tx d ++ line command.
Proof.
  intros H1 H2.
  apply (preserves_readResponseCheckAnswer_P tx) in H2; try reflexivity.
  rewrite H2. exact (sendCommand_P_tx _ _ _ _ H1).
Qed.

Lemma initiateHTTP_tx (url : list Z) (d d' : SIM800L) :
  initiateHTTP DEFAULT_TIMEOUT DEFAULT_CRLF url d = Done (0, d') ->
  tx d' = tx d ++ HTTP_setup url (SSL_command_for url).
Proof.
  unfold initiateHTTP, HTTP_setup. intros H.
  apply bind_inv in H. destruct H as (u1 & d1 & H1 & H).
  apply bind_inv in H. destruct H as ([|] & d2 & H2 & H);
    simpl negb in H; cbv iota in H; [|inversion H].
  pose proof (command_and_check_tx _ _ _ _ _ _ _ _ _ H1 H2) as T2.
  clear H1 H2.
  apply bind_inv in H. destruct H as (u3 & d3 & H3 & H).
  apply bind_inv in H. destruct H as ([|] & d4 & H4 & H);
    simpl negb in H; cbv iota in H; [|inversion H].
  pose proof (command_and_check_tx _ _ _ _ _ _ _ _ _ H3 H4) as T4.
  clear H3 H4.
  apply bind_inv in H. destruct H as (u5 & d5 & H5 & H).
  apply bind_inv in H. destruct H as ([|] & d6 & H6 & H);
    simpl negb in H; cbv iota in H; [|inversion H].
  apply sendCommand_P2_tx in H5.
  apply (preserves_readResponseCheckAnswer_P tx) in H6; try reflexivity.
  assert (T6 : tx d6 = tx d ++ line AT_CMD_HTTPINIT ++ line AT_CMD_HTTPPARA_CID
                         ++ line_with AT_CMD_HTTPPARA_URL url)
    by (rewrite H6, H5, T4, T2; now rewrite <- !app_assoc).
  clear H5 H6 T4 T2.
  unfold SSL_command_for.
  destruct (strIndex url (chars "https://") 0 =? 0) eqn:Hs.
  - apply Z.eqb_eq in Hs.
    apply strIndex_zero_iff_prefix in Hs; [| discriminate | reflexivity].
    change (length (chars "https://")) with 8%nat in Hs.
    destruct (list_eq_dec Z.eq_dec (firstn 8 url) (chars "https://"));
      [|contradiction].
    apply bind_inv in H. destruct H as (u7 & d7 & H7 & H).
    apply bind_inv in H. destruct H as ([|] & d8 & H8 & H);
      simpl negb in H; cbv iota in H; inversion H; subst d8.
    rewrite (command_and_check_tx _ _ _ _ _ _ _ _ _ H7 H8), T6.
    now rewrite <- !app_assoc.
  - apply Z.eqb_neq in Hs.
    destruct (list_eq_dec Z.eq_dec (firstn 8 url) (chars "https://"))
      as [e|_].
    { exfalso. apply Hs.
      apply strIndex_zero_iff_prefix; [discriminate | reflexivity |].
      exact e. }
    apply bind_inv in H. destruct H as (u7 & d7 & H7 & H).
    apply bind_inv in H. destruct H as ([|] & d8 & H8 & H);
      simpl negb in H; cbv iota in H; inversion H; subst d8.
    rewrite (command_and_check_tx _ _ _ _ _ _ _ _ _ H7 H8), T6.
    now rewrite <- !app_assoc.
Qed.

(** X11: when the opening of an HTTP session succeeds, the driver has
    written HTTPINIT, the bearer profile, the URL between double quotes,
    and HTTPSSL=1 when the URL starts with [https://] (in lower case),
    HTTPSSL=0 otherwise; it returns 0, 701 or 702 and nothing else. *)
Theorem initiateHTTP_selects_SSL_by_prefix (url : list Z) (d d' : SIM800L)
    (rc : Z) :
  initiateHTTP DEFAULT_TIMEOUT DEFAULT_CRLF url d = Done (rc, d') ->
  (rc = 0 \/ rc = 701 \/ rc = 702) /\
  (rc = 0 ->
   (firstn 8 url = chars "https://" ->
    tx d' = tx d ++ HTTP_setup url AT_CMD_HTTPSSL_Y) /\
   (firstn 8 url <> chars "https://" ->
    tx d' = tx d ++ HTTP_setup url AT_CMD_HTTPSSL_N)).
Proof.
  intros H. split; [exact (initiateHTTP_code _ _ _ _ _ _ H)|].
  intros ->. apply initiateHTTP_tx in H. unfold SSL_command_for in H.
  destruct (list_eq_dec Z.eq_dec (firstn 8 url) (chars "https://"));
    split; intros; congruence.
Qed.

End Transcripts.

Lemma initiateHTTP_selects_SSL_by_prefix_witness :
  exists d' : SIM800L,
    initiateHTTP 5000 1 (chars "https://example.org/") accepts_session
      = Done (0, d') /\
    (0 = 0 \/ 0 = 701 \/ 0 = 702) /\
    (0 = 0 ->
     (firstn 8 (chars "https://example.org/") = chars "https://" ->
      tx d' = tx accepts_session
                ++ HTTP_setup (chars "https://example.org/") AT_CMD_HTTPSSL_Y) /\
     (firstn 8 (chars "https://example.org/") <> chars "https://" ->
      tx d' = tx accepts_session
                ++ HTTP_setup (chars "https://example.org/") AT_CMD_HTTPSSL_N)).
Proof.
  eexists. split; [vm_compute; reflexivity|].
  apply (initiateHTTP_selects_SSL_by_prefix 5000 1
           (chars "https://example.org/") accepts_session _ 0).
  vm_compute. reflexivity.
Defined.

Section SessionTranscripts.

Variables DEFAULT_TIMEOUT DEFAULT_CRLF : Z.

Lemma readPayload_None_tx (idxBase : Z) (d d' : SIM800L) :
  readPayload DEFAULT_TIMEOUT DEFAULT_CRLF idxBase d = Done (None, d') ->
  tx d' = tx d ++ line AT_CMD_HTTPREAD.
Proof.
  unfold readPayload. intros H.
  apply bind_inv in H. destruct H as (u1 & d1 & H1 & H).
  assert (T1 : tx d1 = tx d).
  { revert H1. unfold parseDataSize. generalize d u1 d1.
    change (preserves tx
              (modify (set_dataSize 0) ;;
               n <- (fun d =>
                       or_fault
                         (parseDataSize_loop
                            (skipn (Z.to_nat (idxBase + 19)) (internalBuffer d))
                            0 (dataSize d)) d) ;;
               modify (set_dataSize n))).
    apply preserves_bind; [now apply preserves_modify | intros _].
    apply preserves_bind; [|intros n; now apply preserves_modify].
    apply (preserves_or_fault tx
             (fun d => parseDataSize_loop
                         (skipn (Z.to_nat (idxBase + 19)) (internalBuffer d))
                         0 (dataSize d))). }
  apply bind_inv in H. destruct H as (u2 & d2 & H2 & H).
  apply bind_inv in H. destruct H as (ok & d3 & H3 & H).
  pose proof (command_and_check_tx _ _ _ _ _ _ _ _ _ H2 H3) as T3.
  destruct ok; simpl negb in H; cbv iota in H; [|now inversion H].
  apply bind_inv in H. destruct H as (u4 & d4 & H4 & H).
  assert (T4 : tx d4 = tx d3).
  { unfold copyPayload in H4.
    destruct (copyPayload_loop (rx d3) 0 (dataSize d3) (recvBuffer d3))
      as [[buf r]| |]; now inversion H4. }
  apply bind_inv in H. destruct H as (u5 & d5 & H5 & H).
  assert (T5 : tx d5 = tx d4).
  { inversion H5. now destruct (recvBufferSize d4 <? dataSize d4). }
  apply bind_inv in H. destruct H as (ok6 & d6 & H6 & H).
  apply (preserves_readResponseCheckAnswer_P tx) in H6; try reflexivity.
  destruct ok6; simpl negb in H; cbv iota in H; inversion H; subst d6.
  congruence.
Qed.

Lemma awaitAnswer_200_tx (action : list Z) (serverReadTimeoutMs : Z)
    (d d' : SIM800L) :
  awaitAnswer DEFAULT_TIMEOUT DEFAULT_CRLF action serverReadTimeoutMs d
    = Done (200, d') ->
  tx d' = tx d ++ line AT_CMD_HTTPREAD ++ line AT_CMD_HTTPTERM.
Proof.
  unfold awaitAnswer. intros H.
  apply bind_inv in H. destruct H as (ok & d1 & H1 & H).
  apply (preserves_readResponse tx) in H1; try reflexivity.
  destruct ok; simpl negb in H; cbv iota in H; [|now inversion H].
  apply bind_inv in H. destruct H as (idxBase & d2 & H2 & H).
  apply (preserves_strIndex_internalBuffer tx) in H2.
  destruct (idxBase <? 0); [now inversion H|].
  apply bind_inv in H. destruct H as (httpRC & d3 & H3 & H).
  apply (preserves_parseHttpRC tx) in H3.
  assert (T3 : tx d3 = tx d) by congruence.
  clear H1 H2 H3.
  apply bind_inv in H. destruct H as (early & d4 & H4 & H).
  destruct (httpRC =? 200) eqn:Hrc.
  - destruct early as [rc|].
    + apply readPayload_code in H4. inversion H. congruence.
    + apply readPayload_None_tx in H4.
      apply bind_inv in H. destruct H as (termRC & d5 & H5 & H).
      assert (d5 = d') by (destruct (termRC >? 0); now inversion H).
      subst d5. unfold terminateHTTP in H5.
      apply bind_inv in H5. destruct H5 as (u6 & d6 & H6 & H5).
      apply bind_inv in H5. destruct H5 as (ok7 & d7 & H7 & H5).
      assert (d7 = d') by (destruct ok7; now inversion H5). subst d7.
      rewrite (command_and_check_tx _ _ _ _ _ _ _ _ _ H6 H7), H4, T3.
      now rewrite <- app_assoc.
  - apply Z.eqb_neq in Hrc. inversion H4; subst early d4.
    apply bind_inv in H. destruct H as (termRC & d5 & H5 & H).
    apply terminateHTTP_code in H5.
    destruct (termRC >? 0) eqn:Ht; inversion H; subst; lia.
Qed.

(** X12: a GET that returns 200 has written, in this order and with nothing
    in between: the four commands that open the session (SSL chosen by the
    prefix of the URL), HTTPACTION=0, HTTPREAD and HTTPTERM. *)
Theorem doGet_200_transcript (url : list Z) (serverReadTimeoutMs : Z)
    (d d' : SIM800L) :
  doGet DEFAULT_TIMEOUT DEFAULT_CRLF url serverReadTimeoutMs d
    = Done (200, d') ->
  tx d' = tx d ++ HTTP_setup url (SSL_command_for url)
            ++ line AT_CMD_HTTPACTION0
            ++ line AT_CMD_HTTPREAD ++ line AT_CMD_HTTPTERM.
Proof.
  unfold doGet. intros H.
  rewrite (bind_Done _ _ d tt (cleaned d) (cleanupReceiveBuffer_Done d)) in H.
  apply bind_inv in H. destruct H as (initRC & d1 & H1 & H).
  pose proof (initiateHTTP_code _ _ _ _ _ _ H1) as Hcode.
  destruct (initRC >? 0) eqn:Hpos; [inversion H; lia|].
  assert (initRC = 0) by (rewrite Z.gtb_ltb in Hpos; apply Z.ltb_ge in Hpos; lia).
  subst initRC. apply initiateHTTP_tx in H1.
  apply bind_inv in H. destruct H as (u & d2 & H2 & H).
  apply bind_inv in H. destruct H as (ok & d3 & H3 & H).
  pose proof (command_and_check_tx _ _ _ _ _ _ _ _ _ H2 H3) as T3.
  destruct ok; simpl negb in H; cbv iota in H; [|now inversion H].
  apply awaitAnswer_200_tx in H.
  rewrite H, T3, H1. simpl tx. now rewrite <- !app_assoc.
Qed.

(** X13: a POST that returns 200 has written, in this order and with
    nothing in between: the four commands that open the session, the
    content type between double quotes, HTTPDATA with the length of the
    payload and the write timeout in decimal, the payload as it is (no CR LF
    after it), HTTPACTION=1, HTTPREAD and HTTPTERM. *)
Theorem doPost_200_transcript (url contentType payload : list Z)
    (clientWriteTimeoutMs serverReadTimeoutMs : Z) (d d' : SIM800L) :
  doPost DEFAULT_TIMEOUT DEFAULT_CRLF url contentType payload
    clientWriteTimeoutMs serverReadTimeoutMs d = Done (200, d') ->
  tx d' = tx d ++ HTTP_setup url (SSL_command_for url)
            ++ line_with AT_CMD_HTTPPARA_CONTENT contentType
            ++ line (chars "AT+HTTPDATA=" ++ print_d (len payload)
                       ++ chars "," ++ print_d clientWriteTimeoutMs)
            ++ payload
            ++ line AT_CMD_HTTPACTION1
            ++ line AT_CMD_HTTPREAD ++ line AT_CMD_HTTPTERM.
Proof.
  unfold doPost. intros H.
  rewrite (bind_Done _ _ d tt (cleaned d) (cleanupReceiveBuffer_Done d)) in H.
  apply bind_inv in H. destruct H as (initRC & d1 & H1 & H).
  pose proof (initiateHTTP_code _ _ _ _ _ _ H1) as Hcode.
  destruct (initRC >? 0) eqn:Hpos; [inversion H; lia|].
  assert (initRC = 0) by (rewrite Z.gtb_ltb in Hpos; apply Z.ltb_ge in Hpos; lia).
  subst initRC. apply initiateHTTP_tx in H1.
  apply bind_inv in H. destruct H as (u2 & d2 & H2 & H).
  apply sendCommand_P2_tx in H2.
  apply bind_inv in H. destruct H as (ok3 & d3 & H3 & H).
  apply (preserves_readResponseCheckAnswer_P tx) in H3; try reflexivity.
  destruct ok3; simpl negb in H; cbv iota in H; [|now inversion H].
  apply bind_inv in H. destruct H as (u4 & d4 & H4 & H).
  apply sendCommand_tx in H4.
  apply bind_inv in H. destruct H as (ok5 & d5 & H5 & H).
  apply (preserves_readResponseCheckAnswer_P tx) in H5; try reflexivity.
  destruct ok5; simpl negb in H; cbv iota in H; [|now inversion H].
  apply bind_inv in H. destruct H as (u6 & d6 & H6 & H).
  apply (preserves_readToForget tx) in H6; try reflexivity.
  apply bind_inv in H. destruct H as (u7 & d7 & H7 & H).
  assert (T7 : tx d7 = tx d6 ++ payload) by (now inversion H7).
  apply bind_inv in H. destruct H as (u8 & d8 & H8 & H).
  apply bind_inv in H. destruct H as (ok9 & d9 & H9 & H).
  pose proof (command_and_check_tx _ _ _ _ _ _ _ _ _ H8 H9) as T9.
  destruct ok9; simpl negb in H; cbv iota in H; [|now inversion H].
  apply awaitAnswer_200_tx in H.
  rewrite H, T9, T7, H6, H5, H4, H3, H2, H1. simpl tx.
  now rewrite <- !app_assoc.
Qed.

End SessionTranscripts.

Lemma doGet_200_transcript_witness :
  exists d' : SIM800L,
    doGet 5000 2 (chars "http://example.org/") 10000 serves_HELLO
      = Done (200, d') /\
    tx d' = tx serves_HELLO
              ++ HTTP_setup (chars "http://example.org/")
                   (SSL_command_for (chars "http://example.org/"))
              ++ line AT_CMD_HTTPACTION0
              ++ line AT_CMD_HTTPREAD ++ line AT_CMD_HTTPTERM.
Proof.
  eexists. split; [vm_compute; reflexivity|].
  apply (doGet_200_transcript 5000 2 (chars "http://example.org/") 10000
           serves_HELLO).
  vm_compute. reflexivity.
Defined.

Lemma doPost_200_transcript_witness :
  exists d' : SIM800L,
    doPost 5000 2 (chars "https://example.org/") (chars "text/plain")
      (chars "ping") 10000 10000 serves_POST = Done (200, d') /\
    tx d' = tx serves_POST
              ++ HTTP_setup (chars "https://example.org/")
                   (SSL_command_for (chars "https://example.org/"))
              ++ line_with AT_CMD_HTTPPARA_CONTENT (chars "text/plain")
              ++ line (chars "AT+HTTPDATA=" ++ print_d (len (chars "ping"))
                         ++ chars "," ++ print_d 10000)
              ++ chars "ping"
              ++ line AT_CMD_HTTPACTION1
              ++ line AT_CMD_HTTPREAD ++ line AT_CMD_HTTPTERM.
Proof.
  eexists. split; [vm_compute; reflexivity|].
  apply (doPost_200_transcript 5000 2 (chars "https://example.org/")
           (chars "text/plain") (chars "ping") 10000 10000 serves_POST).
  vm_compute. reflexivity.
Defined.

(** The POST above, as the module sees it. *)
Example doPost_ping :
  exists d' : SIM800L,
    doPost 5000 2 (chars "https://example.org/") (chars "text/plain")
      (chars "ping") 10000 10000 serves_POST = Done (200, d') /\
    getDataReceived d' = Done (chars "ok" ++ repeat 0 6, d') /\
    getDataSizeReceived d' = Done (2, d') /\
    tx d' = chars "AT+HTTPINIT" ++ [CR; LF]
              ++ chars "AT+HTTPPARA=" ++ [QUOTE] ++ chars "CID" ++ [QUOTE]
              ++ chars ",1" ++ [CR; LF]
              ++ chars "AT+HTTPPARA=" ++ [QUOTE] ++ chars "URL" ++ [QUOTE]
              ++ chars "," ++ [QUOTE] ++ chars "https://example.org/"
              ++ [QUOTE] ++ [CR; LF]
              ++ chars "AT+HTTPSSL=1" ++ [CR; LF]
              ++ chars "AT+HTTPPARA=" ++ [QUOTE] ++ chars "CONTENT" ++ [QUOTE]
              ++ chars "," ++ [QUOTE] ++ chars "text/plain" ++ [QUOTE]
              ++ [CR; LF]
              ++ chars "AT+HTTPDATA=4,10000" ++ [CR; LF]
              ++ chars "ping"
              ++ chars "AT+HTTPACTION=1" ++ [CR; LF]
              ++ chars "AT+HTTPREAD" ++ [CR; LF]
              ++ chars "AT+HTTPTERM" ++ [CR; LF].
Proof.
  eexists. split; [vm_compute; reflexivity|].
  repeat split; vm_compute; reflexivity.
Qed.

Lemma commands_are_lines_witness :
  exists d' : SIM800L,
    sendCommand_P2 AT_CMD_SAPBR_APN (chars "internet") listens
      = Done (tt, d') /\
    len AT_CMD_SAPBR_APN < 32 /\
    tx d' = tx listens ++ AT_CMD_SAPBR_APN ++ [QUOTE] ++ chars "internet"
              ++ [QUOTE] ++ [CR; LF] /\
    recvBuffer d' = recvBuffer listens /\ dataSize d' = dataSize listens.
Proof.
  eexists. split; [vm_compute; reflexivity|].
  apply (proj2 (proj2 (proj2 (commands_are_lines listens _)))).
  vm_compute. reflexivity.
Defined.

Lemma buffers_keep_their_sizes_witness :
  exists d' : SIM800L,
    doGet 5000 2 (chars "http://example.org/") 10000 serves_HELLO
      = Done (200, d') /\
    sizes d' = sizes serves_HELLO.
Proof.
  eexists. split; [vm_compute; reflexivity|].
  apply (proj1 (buffers_keep_their_sizes 5000 2) (chars "http://example.org/")
           10000 serves_HELLO 200).
  vm_compute. reflexivity.
Defined.
(** ** What the status and GPRS functions write *)

Ltac frame_step :=
  first
    [ apply preserves_ret
    | apply preserves_readResponseCheckAnswer_P; reflexivity
    | apply preserves_readResponse; reflexivity
    | apply preserves_strIndex_internalBuffer
    | apply preserves_internalBuffer_at
    | apply preserves_bind; [|intro]
    | match goal with
      | |- preserves _ (if ?b then _ else _) => destruct b
      end
    | progress cbv beta zeta ].

Lemma command_then_tx {A : Type} (command : list Z) (k : unit -> M A)
    (d d' : SIM800L) (a : A) :
  bind (sendCommand_P command) k d = Done (a, d') ->
  (forall u, preserves tx (k u)) ->
  tx d' = tx d ++ line command.
Proof.
  intros H Hk. apply bind_inv in H. destruct H as (u & d1 & H1 & H).
  apply Hk in H. rewrite H. exact (sendCommand_P_tx _ _ _ _ H1).
Qed.

Section QueryTranscripts.

Variables DEFAULT_TIMEOUT DEFAULT_CRLF : Z.

(** X14: each status function writes its one query and nothing else,
    whatever the module answers; connecting and disconnecting write their
    one command.  [setupGPRS] writes the connection type and checks the
    answer: when the check fails it returns false there, with nothing more
    written; when the check succeeds it writes the APN between double
    quotes and returns the check of that answer. *)
Theorem queries_write_one_command (d d' : SIM800L) :
  (forall ok, isReady DEFAULT_TIMEOUT DEFAULT_CRLF d = Done (ok, d') ->
              tx d' = tx d ++ AT_CMD_BASE ++ [CR; LF]) /\
  (forall v, getSignal DEFAULT_TIMEOUT DEFAULT_CRLF d = Done (v, d') ->
             tx d' = tx d ++ AT_CMD_CSQ ++ [CR; LF]) /\
  (forall m, getPowerMode DEFAULT_TIMEOUT DEFAULT_CRLF d = Done (m, d') ->
             tx d' = tx d ++ AT_CMD_CFUN_TEST ++ [CR; LF]) /\
  (forall r, getRegistrationStatus DEFAULT_TIMEOUT DEFAULT_CRLF d
               = Done (r, d') ->
             tx d' = tx d ++ AT_CMD_CREG_TEST ++ [CR; LF]) /\
  (forall ok, connectGPRS DEFAULT_CRLF d = Done (ok, d') ->
              tx d' = tx d ++ AT_CMD_SAPBR1 ++ [CR; LF]) /\
  (forall ok, disconnectGPRS DEFAULT_CRLF d = Done (ok, d') ->
              tx d' = tx d ++ AT_CMD_SAPBR0 ++ [CR; LF]) /\
  (forall apn ok,
     setupGPRS DEFAULT_CRLF apn d = Done (ok, d') ->
     exists (ack : bool) (d1 : SIM800L),
       (sendCommand_P AT_CMD_SAPBR_GPRS ;;
        readResponseCheckAnswer_P 20000 AT_RSP_OK DEFAULT_CRLF) d
         = Done (ack, d1) /\
       tx d1 = tx d ++ AT_CMD_SAPBR_GPRS ++ [CR; LF] /\
       (ack = false -> ok = false /\ d' = d1) /\
       (ack = true ->
        (sendCommand_P2 AT_CMD_SAPBR_APN apn ;;
         readResponseCheckAnswer_P 20000 AT_RSP_OK DEFAULT_CRLF) d1
          = Done (ok, d') /\
        tx d' = tx d1 ++ AT_CMD_SAPBR_APN ++ [QUOTE] ++ apn ++ [QUOTE]
                  ++ [CR; LF])).
Proof.
  repeat match goal with |- _ /\ _ => split end.
  - intros ok H. eapply command_then_tx; [exact H|]. intro. frame_step.
  - intros v H. eapply command_then_tx; [exact H|]. intro. repeat frame_step.
  - intros m H. exact (getPowerMode_tx _ _ _ _ _ H).
  - intros r H. eapply command_then_tx; [exact H|]. intro. repeat frame_step.
  - intros ok H. eapply command_then_tx; [exact H|]. intro. frame_step.
  - intros ok H. eapply command_then_tx; [exact H|]. intro. frame_step.
  - intros apn ok H. unfold setupGPRS in H.
    apply bind_inv in H. destruct H as (u1 & d1 & H1 & H).
    apply bind_inv in H. destruct H as (ack & d2 & H2 & H).
    exists ack, d2.
    split; [now rewrite (bind_Done _ _ d u1 d1 H1)|].
    split; [exact (command_and_check_tx _ _ _ _ _ _ _ _ _ H1 H2)|].
    destruct ack; simpl negb in H; cbv iota in H.
    + split; [discriminate | intros _].
      split; [exact H|].
      apply bind_inv in H. destruct H as (u3 & d3 & H3 & H).
      apply sendCommand_P2_tx in H3. unfold line_with in H3.
      apply (preserves_readResponseCheckAnswer_P tx) in H; try reflexivity.
      now rewrite H, H3.
    + inversion H; subst ok d2. split; [now split | discriminate].
Qed.

End QueryTranscripts.

Lemma queries_write_one_command_witness :
  exists d' : SIM800L,
    setupGPRS 1 (chars "internet")
      (device 32 8 (dialogue 0 [OK_line; OK_line])) = Done (true, d') /\
    exists (ack : bool) (d1 : SIM800L),
      (sendCommand_P AT_CMD_SAPBR_GPRS ;;
       readResponseCheckAnswer_P 20000 AT_RSP_OK 1)
        (device 32 8 (dialogue 0 [OK_line; OK_line])) = Done (ack, d1) /\
      tx d1 = [] ++ AT_CMD_SAPBR_GPRS ++ [CR; LF] /\
      (ack = false -> true = false /\ d' = d1) /\
      (ack = true ->
       (sendCommand_P2 AT_CMD_SAPBR_APN (chars "internet") ;;
        readResponseCheckAnswer_P 20000 AT_RSP_OK 1) d1 = Done (true, d') /\
       tx d' = tx d1 ++ AT_CMD_SAPBR_APN ++ [QUOTE] ++ chars "internet"
                 ++ [QUOTE] ++ [CR; LF]).
Proof.
  eexists. split; [vm_compute; reflexivity|].
  apply (proj2 (proj2 (proj2 (proj2 (proj2 (proj2
           (queries_write_one_command 5000 1
              (device 32 8 (dialogue 0 [OK_line; OK_line])) _))))))
           (chars "internet") true).
  vm_compute. reflexivity.
Defined.

(** A refused connection type: [setupGPRS] returns false and the APN is not
    written. *)
Example setupGPRS_refused :
  exists d' : SIM800L,
    setupGPRS 1 (chars "internet") answers_ERROR = Done (false, d') /\
    tx d' = AT_CMD_SAPBR_GPRS ++ [CR; LF].
Proof. eexists. split; vm_compute; reflexivity. Qed.

(** ** The answers to the status queries *)

Lemma strIndex_internalBuffer_Done (s findStr : list Z) (startIdx : Z)
    (d : SIM800L) :
  c_str (internalBuffer d) = Some s ->
  strIndex_internalBuffer findStr startIdx d
  = Done (strIndex s findStr startIdx, d).
Proof.
  intros Hs. unfold strIndex_internalBuffer, bind, or_fault. now rewrite Hs.
Qed.

Lemma load_c_str (buf a b : list Z) (v : Z) :
  c_str buf = Some (a ++ v :: b) -> load buf (len a) = Some v.
Proof.
  intros Hs. destruct (c_str_prefix buf _ Hs) as [rest ->].
  rewrite <- app_assoc. rewrite <- (Z.add_0_r (len a)).
  rewrite load_app by lia. reflexivity.
Qed.

Lemma c_str_shorter (buf s : list Z) : c_str buf = Some s -> len s < len buf.
Proof.
  intros Hs. destruct (c_str_prefix buf s Hs) as [rest ->].
  rewrite len_app, len_cons. pose proof (len_nonneg rest). lia.
Qed.

(** The string read by a query lies in a scratch buffer of the size it had
    before the query. *)
Lemma query_string_fits (command : list Z) (timeout crlfToWait : Z)
    (d d1 : SIM800L) (ok : bool) (s : list Z) :
  (sendCommand_P command ;; readResponse timeout crlfToWait) d
    = Done (ok, d1) ->
  c_str (internalBuffer d1) = Some s ->
  len s < internalBufferSize d.
Proof.
  intros Hread Hs.
  apply bind_inv in Hread. destruct Hread as (u & d0 & Hsend & Hread).
  apply sizes_sendCommand_P in Hsend. apply sizes_readResponse in Hread.
  apply c_str_shorter in Hs.
  unfold sizes in *. unfold internalBufferSize, len in *.
  inversion Hsend. inversion Hread. lia.
Qed.

Section Answers.

Variables DEFAULT_TIMEOUT DEFAULT_CRLF : Z.

(** X15: with a scratch buffer shorter than 2^15, when the answer read holds
    no ERROR after its first character and the first [+] in it starts
    [+CFUN: ], the power mode returned is the one of the character that
    follows [+CFUN: ]: 0 is MINIMUM, 1 is NORMAL, 4 is SLEEP, anything else
    UNKNOWN. *)
Theorem getPowerMode_reads_the_digit_after_CFUN (pre post : list Z) (v : Z)
    (d d1 : SIM800L) :
  internalBufferSize d < 32768 ->
  (sendCommand_P AT_CMD_CFUN_TEST ;;
   readResponse DEFAULT_TIMEOUT DEFAULT_CRLF) d = Done (true, d1) ->
  c_str (internalBuffer d1) = Some (pre ++ chars "+CFUN: " ++ v :: post) ->
  (forall x, In x pre -> x <> 43) ->
  strIndex (pre ++ chars "+CFUN: " ++ v :: post) (chars "ERROR") 0 <= 0 ->
  getPowerMode DEFAULT_TIMEOUT DEFAULT_CRLF d = Done (power_mode_of v, d1).
Proof.
  intros Hsize Hread Hs Hpre Herr.
  pose proof (query_string_fits _ _ _ _ _ _ _ Hread Hs) as Hfit.
  rewrite !len_app in Hfit. pose proof (len_nonneg (v :: post)) as Hpost.
  apply bind_inv in Hread. destruct Hread as (u & d0 & Hsend & Hread).
  unfold getPowerMode.
  rewrite (bind_Done _ _ d u d0 Hsend).
  rewrite (bind_Done _ _ d0 true d1 Hread).
  rewrite (bind_Done _ _ d1 _ d1 (strIndex_internalBuffer_Done _ _ _ _ Hs)).
  replace (strIndex (pre ++ chars "+CFUN: " ++ v :: post) (chars "ERROR") 0 >? 0)
    with false by (symmetry; rewrite Z.gtb_ltb; apply Z.ltb_ge; exact Herr).
  rewrite (bind_Done _ _ d1 _ d1 (strIndex_internalBuffer_Done _ _ _ _ Hs)).
  rewrite (strIndex_found pre (chars "+CFUN: ") (v :: post));
    [| discriminate | lia | exact Hpre].
  assert (Hload : load (internalBuffer d1) (len pre + 7) = Some v).
  { change (len pre + 7) with (len pre + len (chars "+CFUN: ")).
    rewrite <- len_app. apply (load_c_str _ _ post).
    now rewrite <- app_assoc. }
  rewrite (bind_Done _ _ d1 v d1 (internalBuffer_at_Done _ _ _ Hload)).
  unfold power_mode_of.
  destruct (v =? 48); [reflexivity|].
  destruct (v =? 49); [reflexivity|].
  destruct (v =? 52); reflexivity.
Qed.

(** X16: with a scratch buffer shorter than 2^15, when the answer read holds
    no ERROR after its first character and the first [+] in it starts
    [+CREG: ], the registration status returned
    is the one of the third character after [+CREG: ] (the one after the
    mode digit and the comma): 0 is NOT_REGISTERED, 1 REGISTERED_HOME, 2
    SEARCHING, 3 DENIED, 5 REGISTERED_ROAMING, anything else UNKNOWN. *)
Theorem getRegistrationStatus_reads_the_third_character (pre post : list Z)
    (n c v : Z) (d d1 : SIM800L) :
  internalBufferSize d < 32768 ->
  (sendCommand_P AT_CMD_CREG_TEST ;;
   readResponse DEFAULT_TIMEOUT DEFAULT_CRLF) d = Done (true, d1) ->
  c_str (internalBuffer d1)
    = Some (pre ++ chars "+CREG: " ++ n :: c :: v :: post) ->
  (forall x, In x pre -> x <> 43) ->
  strIndex (pre ++ chars "+CREG: " ++ n :: c :: v :: post) (chars "ERROR") 0
    <= 0 ->
  getRegistrationStatus DEFAULT_TIMEOUT DEFAULT_CRLF d
    = Done (registration_of v, d1).
Proof.
  intros Hsize Hread Hs Hpre Herr.
  pose proof (query_string_fits _ _ _ _ _ _ _ Hread Hs) as Hfit.
  rewrite !len_app in Hfit.
  pose proof (len_nonneg (n :: c :: v :: post)) as Hpost.
  apply bind_inv in Hread. destruct Hread as (u & d0 & Hsend & Hread).
  unfold getRegistrationStatus.
  rewrite (bind_Done _ _ d u d0 Hsend).
  rewrite (bind_Done _ _ d0 true d1 Hread).
  rewrite (bind_Done _ _ d1 _ d1 (strIndex_internalBuffer_Done _ _ _ _ Hs)).
  replace (strIndex (pre ++ chars "+CREG: " ++ n :: c :: v :: post)
             (chars "ERROR") 0 >? 0)
    with false by (symmetry; rewrite Z.gtb_ltb; apply Z.ltb_ge; exact Herr).
  rewrite (bind_Done _ _ d1 _ d1 (strIndex_internalBuffer_Done _ _ _ _ Hs)).
  rewrite (strIndex_found pre (chars "+CREG: ") (n :: c :: v :: post));
    [| discriminate | lia | exact Hpre].
  assert (Hload : load (internalBuffer d1) (len pre + 9) = Some v).
  { change (len pre + 9) with (len pre + len (chars "+CREG: " ++ [n; c])).
    rewrite <- len_app. apply (load_c_str _ _ post).
    rewrite Hs. f_equal. now rewrite <- !app_assoc. }
  rewrite (bind_Done _ _ d1 v d1 (internalBuffer_at_Done _ _ _ Hload)).
  unfold registration_of.
  destruct (v =? 48); [reflexivity|].
  destruct (v =? 49); [reflexivity|].
  destruct (v =? 50); [reflexivity|].
  destruct (v =? 51); [reflexivity|].
  destruct (v =? 53); reflexivity.
Qed.

End Answers.

Lemma getPowerMode_reads_the_digit_after_CFUN_witness :
  exists d1 : SIM800L,
    getPowerMode 5000 1 reports_CFUN_4 = Done (SLEEP, d1).
Proof.
  eexists.
  apply (getPowerMode_reads_the_digit_after_CFUN 5000 1 (chars " ") [CR; LF] 52
           reports_CFUN_4).
  - reflexivity.
  - vm_compute. reflexivity.
  - vm_compute. reflexivity.
  - intros x [<-|[]]. discriminate.
  - vm_compute. discriminate.
Defined.

Lemma getRegistrationStatus_reads_the_third_character_witness :
  exists d1 : SIM800L,
    getRegistrationStatus 5000 1 reports_CREG_5
      = Done (REGISTERED_ROAMING, d1).
Proof.
  eexists.
  apply (getRegistrationStatus_reads_the_third_character 5000 1 (chars " ")
           [CR; LF] 48 44 53 reports_CREG_5).
  - reflexivity.
  - vm_compute. reflexivity.
  - vm_compute. reflexivity.
  - intros x [<-|[]]. discriminate.
  - vm_compute. discriminate.
Defined.

(** ** The signal quality, when the answer is well formed *)

Section Signal.

Variables DEFAULT_TIMEOUT DEFAULT_CRLF : Z.

(** X17: the signal quality returned is between 0 and 31, whatever the
    module sends. *)
Theorem getSignal_at_most_31 (d d' : SIM800L) (v : Z) :
  getSignal DEFAULT_TIMEOUT DEFAULT_CRLF d = Done (v, d') -> 0 <= v <= 31.
Proof.
  unfold getSignal. intros H.
  apply bind_inv in H. destruct H as (u & d1 & _ & H).
  apply bind_inv in H. destruct H as ([|] & d2 & _ & H);
    [|inversion H; lia].
  apply bind_inv in H. destruct H as (idxBase & d3 & _ & H).
  destruct (negb (idxBase =? 0)); [inversion H; lia|].
  apply bind_inv in H. destruct H as (idxEnd & d4 & _ & H).
  apply bind_inv in H. destruct H as (c1 & d5 & _ & H).
  apply bind_inv in H. destruct H as (c2 & d6 & _ & H).
  cbv zeta in H.
  match type of H with
  | (if ?value >? 31 then _ else _) _ = _ =>
      assert (Hv : 0 <= value)
        by (destruct (negb (c2 =? 32)); unfold uint8;
            apply Z.mod_pos_bound; lia);
      destruct (value >? 31) eqn:Hgt;
        [ inversion H; lia
        | rewrite Z.gtb_ltb in Hgt; apply Z.ltb_ge in Hgt;
          inversion H; subst; lia ]
  end.
Qed.

(** X18: with a scratch buffer shorter than 2^15, when the answer read
    starts with the echo [AT+CSQ] and holds a comma, the signal quality is
    read from the two characters before the first comma: a digit after a
    space is the value; two digits are the value they write, or 0 when that
    is more than 31. *)
Theorem getSignal_reads_the_digits_before_the_comma (mid post : list Z)
    (tens b : Z) (d d1 : SIM800L) :
  internalBufferSize d < 32768 ->
  (sendCommand_P AT_CMD_CSQ ;;
   readResponse DEFAULT_TIMEOUT DEFAULT_CRLF) d = Done (true, d1) ->
  c_str (internalBuffer d1)
    = Some (chars "AT+CSQ" ++ mid ++ [tens; 48 + b] ++ chars "," ++ post) ->
  (forall x, In x (mid ++ [tens]) -> x <> 44) ->
  is_digit b ->
  (tens = 32 ->
   getSignal DEFAULT_TIMEOUT DEFAULT_CRLF d = Done (b, d1)) /\
  (forall a : Z,
     is_digit a -> tens = 48 + a ->
     getSignal DEFAULT_TIMEOUT DEFAULT_CRLF d
       = Done (if 10 * a + b >? 31 then 0 else 10 * a + b, d1)).
Proof.
  intros Hsize Hread Hs Hmid Hb.
  pose proof (query_string_fits _ _ _ _ _ _ _ Hread Hs) as Hfit.
  rewrite !len_app in Hfit. pose proof (len_nonneg post) as Hpost.
  pose proof (len_nonneg mid) as Hmidlen.
  apply bind_inv in Hread. destruct Hread as (u & d0 & Hsend & Hread).
  assert (Hrun :
    getSignal DEFAULT_TIMEOUT DEFAULT_CRLF d =
    (let value := uint8 (schar (48 + b) - 48) in
     let value :=
       if negb (tens =? 32) then uint8 (value + (schar tens - 48) * 10)
       else value in
     if value >? 31 then ret 0 else ret value) d1).
  { unfold getSignal.
    rewrite (bind_Done _ _ d u d0 Hsend).
    rewrite (bind_Done _ _ d0 true d1 Hread).
    rewrite (bind_Done _ _ d1 _ d1 (strIndex_internalBuffer_Done _ _ _ _ Hs)).
    assert (E0 : strIndex
                   (chars "AT+CSQ" ++ mid ++ [tens; 48 + b] ++ chars "," ++ post)
                   (chars "AT+CSQ") 0 = 0)
      by (apply (strIndex_found [] (chars "AT+CSQ")
                   (mid ++ [tens; 48 + b] ++ chars "," ++ post));
          [discriminate | reflexivity | intros x []]).
    rewrite E0. change (negb (0 =? 0)) with false. cbv iota.
    rewrite (bind_Done _ _ d1 _ d1 (strIndex_internalBuffer_Done _ _ _ _ Hs)).
    replace (chars "AT+CSQ" ++ mid ++ [tens; 48 + b] ++ chars "," ++ post)
      with ((chars "AT+CSQ" ++ mid ++ [tens; 48 + b]) ++ chars "," ++ post)
      by (now rewrite <- !app_assoc).
    rewrite (strIndex_found (chars "AT+CSQ" ++ mid ++ [tens; 48 + b])
               (chars ",") post);
      [| discriminate | rewrite !len_app; lia |].
    - assert (H1 : load (internalBuffer d1)
                     (len (chars "AT+CSQ" ++ mid ++ [tens; 48 + b]) - 1)
                   = Some (48 + b)).
      { replace (len (chars "AT+CSQ" ++ mid ++ [tens; 48 + b]) - 1)
          with (len (chars "AT+CSQ" ++ mid ++ [tens])) by len_lia.
        apply (load_c_str _ _ (chars "," ++ post)).
        rewrite Hs. f_equal. now rewrite <- !app_assoc. }
      assert (H2 : load (internalBuffer d1)
                     (len (chars "AT+CSQ" ++ mid ++ [tens; 48 + b]) - 2)
                   = Some tens).
      { replace (len (chars "AT+CSQ" ++ mid ++ [tens; 48 + b]) - 2)
          with (len (chars "AT+CSQ" ++ mid)) by len_lia.
        apply (load_c_str _ _ ([48 + b] ++ chars "," ++ post)).
        rewrite Hs. reflexivity. }
      rewrite (bind_Done _ _ d1 _ d1 (internalBuffer_at_Done _ _ _ H1)).
      rewrite (bind_Done _ _ d1 _ d1 (internalBuffer_at_Done _ _ _ H2)).
      reflexivity.
    - intros x Hx. change (nth 0 (chars ",") 0) with 44.
      rewrite app_assoc in Hx. apply in_app_or in Hx.
      destruct Hx as [Hx|Hx].
      + apply in_app_or in Hx. destruct Hx as [Hx|Hx].
        * simpl in Hx. intuition (subst; discriminate).
        * apply Hmid. apply in_or_app. now left.
      + destruct Hx as [<-|[<-|[]]].
        * apply Hmid. apply in_or_app. right. now left.
        * unfold is_digit in Hb. lia. }
  rewrite Hrun. clear Hrun. cbv zeta.
  assert (Hd : uint8 (schar (48 + b) - 48) = b).
  { rewrite schar_digit by exact Hb. unfold uint8, is_digit in *.
    apply Z.mod_small. lia. }
  rewrite Hd. split.
  - intros ->. change (negb (32 =? 32)) with false. cbv iota.
    replace (b >? 31) with false
      by (symmetry; rewrite Z.gtb_ltb; apply Z.ltb_ge;
          unfold is_digit in Hb; lia).
    reflexivity.
  - intros a Ha ->.
    replace (negb (48 + a =? 32)) with true
      by (symmetry; apply negb_true_iff, Z.eqb_neq;
          unfold is_digit in Ha; lia).
    cbv iota. rewrite schar_digit by exact Ha.
    replace (uint8 (b + a * 10)) with (10 * a + b)
      by (unfold uint8, is_digit in *; rewrite Z.mod_small; lia).
    now destruct (10 * a + b >? 31).
Qed.

End Signal.

Lemma getSignal_at_most_31_witness :
  exists d' : SIM800L,
    getSignal 5000 2 reports_CSQ_17 = Done (17, d') /\ 0 <= 17 <= 31.
Proof.
  eexists. split; [vm_compute; reflexivity|].
  eapply (getSignal_at_most_31 5000 2 reports_CSQ_17).
  vm_compute. reflexivity.
Defined.

Lemma getSignal_reads_the_digits_before_the_comma_witness :
  exists d1 : SIM800L,
    getSignal 5000 2 reports_CSQ_17 = Done (17, d1).
Proof.
  eexists.
  refine (proj2 (getSignal_reads_the_digits_before_the_comma 5000 2
                   ([CR; CR; LF] ++ chars "+CSQ: ") (chars "0" ++ [CR; LF])
                   49 7 reports_CSQ_17 _ _ _ _ _ _) 1 _ _).
  - reflexivity.
  - vm_compute. reflexivity.
  - vm_compute. reflexivity.
  - intros x Hx. simpl in Hx.
    repeat (destruct Hx as [<-|Hx]; [discriminate|]). destruct Hx.
  - unfold is_digit. lia.
  - unfold is_digit. lia.
  - reflexivity.
Defined.
(** ** The general lemmas above, on the scripted modules *)

Lemma readResponse_times_out_witness :
  readResponse 500 1 listens =
  Done (false, set_clk [] (set_rx [] (set_internalBuffer (repeat 0 16) listens))).
Proof.
  apply (readResponse_times_out [] [] 0 501 500 1 [] listens).
  - reflexivity.
  - reflexivity.
  - constructor.
  - vm_compute. intros H. now apply H.
Defined.

Lemma failed_request_dataSize_zero_witness :
  exists d' : SIM800L,
    doGet 5000 1 (chars "http://example.org/") 10000 holding_Hi
      = Done (701, d') /\
    getDataSizeReceived d' = Done (0, d').
Proof.
  eexists. split; [vm_compute; reflexivity|].
  refine (proj1 (failed_request_dataSize_zero 5000 1 holding_Hi _ 701 _ _ _)
            (chars "http://example.org/") 10000 _).
  - discriminate.
  - discriminate.
  - discriminate.
  - vm_compute. reflexivity.
Defined.

Lemma getSignal_reads_inside_buffer_witness :
  exists c1 c2 : Z,
    load (chars "AT+CSQ: 17,0" ++ [0])
      (strIndex (chars "AT+CSQ: 17,0") (chars ",") 0 - 1) = Some c1 /\
    load (chars "AT+CSQ: 17,0" ++ [0])
      (strIndex (chars "AT+CSQ: 17,0") (chars ",") 0 - 2) = Some c2.
Proof.
  apply (getSignal_reads_inside_buffer (chars "AT+CSQ: 17,0" ++ [0])
           (chars "AT+CSQ: 17,0")).
  - reflexivity.
  - reflexivity.
  - vm_compute. discriminate.
Defined.
